(** * The FSL result-directory parser of nidmresults-fsl, embedded in Rocq

    Source: [src/nidmfsl/fsl_exporter/fsl_exporter.py], class
    [FSLtoNIDMExporter].  The methods are embedded shallowly:

    - Python values keep their dynamic type where the code compares values
      of different types ([pyval], [py_eq]);
    - an exception is a value of [exn] and a call that may raise returns
      [res A];
    - [self] is a record that is passed explicitly and returned when a
      method assigns to one of its attributes;
    - a [dict] whose order of iteration is used is an association list in
      order of insertion, the other ones are [gmap]s;
    - floating-point numbers are the rationals they denote: the code only
      compares them, truncates them to integers and stores them (NaN and
      the infinities are outside the model);
    - the regular expressions of the source are given as syntax trees and
      run by a backtracking matcher with Python's priorities (leftmost
      start, greedy repetitions, first alternative first);
    - the file system is a record of the four primitives the code uses. *)

From stdpp Require Import gmap strings list pretty.
From Stdlib Require Import QArith Ascii Lqa.

Open Scope string_scope.
Open Scope list_scope.
Open Scope Z_scope.

(** ** Exceptions and results *)

Inductive exn : Type :=
| AttributeError | AssertionError | KeyError | UnboundLocalError
| IndexError | ValueError | IOError | TypeError.

Inductive res (A : Type) : Type :=
| Ok (a : A)
| Raise (e : exn).
Arguments Ok {A} a.
Arguments Raise {A} e.

Definition bind {A B : Type} (m : res A) (k : A -> res B) : res B :=
  match m with
  | Ok a => k a
  | Raise e => Raise e
  end.

Notation "x <- m ;; k" := (bind m (fun x => k))
  (at level 100, m at next level, right associativity).

Definition is_ok {A : Type} (m : res A) : bool :=
  match m with Ok _ => true | Raise _ => false end.

(** Reading a local variable that may not have been assigned yet. *)
Definition local {A : Type} (v : option A) : res A :=
  match v with Some a => Ok a | None => Raise UnboundLocalError end.

(** A loop [for x in xs: body], the loop state passed along. *)
Fixpoint for_each {A S : Type} (body : S -> A -> res S) (xs : list A) (st : S)
  : res S :=
  match xs with
  | [] => Ok st
  | x :: xs' => st' <- body st x ;; for_each body xs' st'
  end.

(** The results of [f] on the elements of a list, in order, or the first
    error. *)
Fixpoint map_res {A B : Type} (f : A -> res B) (xs : list A) : res (list B) :=
  match xs with
  | [] => Ok []
  | x :: xs' => y <- f x ;; ys <- map_res f xs' ;; Ok (y :: ys)
  end.

(** ** Python strings *)

Definition dquote : ascii := "034"%char.
Definition squote : ascii := "039"%char.
Definition newline : ascii := "010"%char.
Definition str1 (c : ascii) : string := String c EmptyString.

Definition is_digit (c : ascii) : bool :=
  ((48 <=? nat_of_ascii c) && (nat_of_ascii c <=? 57))%nat.

Definition is_space (c : ascii) : bool :=
  let n := nat_of_ascii c in ((n =? 32) || ((9 <=? n) && (n <=? 13)))%nat.

Definition is_word (c : ascii) : bool :=
  let n := nat_of_ascii c in
  (is_digit c || ((65 <=? n) && (n <=? 90)) || ((97 <=? n) && (n <=? 122))
   || (n =? 95))%nat.

(** [s.startswith(p)] *)
Definition startswith (s p : string) : bool := String.prefix p s.

Fixpoint str_drop (n : nat) (s : string) : string :=
  match n, s with
  | S n', String _ s' => str_drop n' s'
  | _, _ => s
  end.

Definition str_take (n : nat) (s : string) : string := String.substring 0 n s.

(** [s.replace(old, new)], for [old] not empty: the occurrences of [old]
    are replaced from left to right, without overlap.  [skip] counts the
    characters of an occurrence still to be passed over. *)
Fixpoint replace_from (old new : string) (skip : nat) (s : string) : string :=
  match s with
  | EmptyString => EmptyString
  | String c s' =>
      match skip with
      | S k => replace_from old new k s'
      | O =>
          if String.prefix old s
          then new +:+ replace_from old new (String.length old - 1) s'
          else String c (replace_from old new 0 s')
      end
  end.

(** With an empty [old], Python puts [new] before every character and at
    the end. *)
Fixpoint interleave (new : string) (s : string) : string :=
  match s with
  | EmptyString => new
  | String c s' => new +:+ String c (interleave new s')
  end.

Definition replace (s old new : string) : string :=
  match old with
  | EmptyString => interleave new s
  | _ => replace_from old new 0 s
  end.

(** [s.split(sep)] for a separator of one character (the code splits on a
    comma only); the result is never empty. *)
Fixpoint split (sep : ascii) (s : string) : list string :=
  match s with
  | EmptyString => [EmptyString]
  | String c s' =>
      if Ascii.eqb c sep then EmptyString :: split sep s'
      else match split sep s' with
           | w :: ws => String c w :: ws
           | [] => [str1 c]
           end
  end.

Fixpoint lstrip (s : string) : string :=
  match s with
  | String c s' => if is_space c then lstrip s' else s
  | EmptyString => s
  end.

Fixpoint rstrip (s : string) : string :=
  match s with
  | EmptyString => EmptyString
  | String c s' =>
      match rstrip s' with
      | EmptyString => if is_space c then EmptyString else str1 c
      | t => String c t
      end
  end.

Definition strip (s : string) : string := lstrip (rstrip s).

(** The value of a string of decimal digits, [None] when another character
    occurs in it. *)
Fixpoint digits_value (acc : Z) (s : string) : option Z :=
  match s with
  | EmptyString => Some acc
  | String c s' =>
      if is_digit c
      then digits_value (10 * acc + Z.of_nat (nat_of_ascii c - 48)) s'
      else None
  end.

Definition unsigned_value (s : string) : option Z :=
  match s with
  | EmptyString => None
  | _ => digits_value 0 s
  end.

(** The sign of a numeric literal and what follows it. *)
Definition split_sign (s : string) : bool * string :=
  match s with
  | String "-" s' => (true, s')
  | String "+" s' => (false, s')
  | _ => (false, s)
  end.

(** [int(s)] on a string: blanks around, a sign, decimal digits.  (The
    digit-group underscores of Python 3.6 are not part of the model.) *)
Definition int_of_str (s : string) : res Z :=
  let '(neg, d) := split_sign (strip s) in
  match unsigned_value d with
  | Some z => Ok (if neg then - z else z)
  | None => Raise ValueError
  end.

(** [float(s)] on a string: blanks around, a sign, the decimal notations
    [digits], [digits.], [.digits] and [digits.digits], and an exponent [e]
    or [E] with its sign and digits; the value is the number written.  (The
    strings [inf], [infinity] and [nan], which [float] accepts as well,
    denote no rational: as said above they are outside the model, which
    raises on them.) *)
Fixpoint split_dot (s : string) : string * option string :=
  match s with
  | EmptyString => (EmptyString, None)
  | String c s' =>
      if Ascii.eqb c "."%char then (EmptyString, Some s')
      else let '(a, b) := split_dot s' in (String c a, b)
  end.

(** The mantissa of a literal and what follows its [e] or [E]. *)
Fixpoint split_exponent (s : string) : string * option string :=
  match s with
  | EmptyString => (EmptyString, None)
  | String c s' =>
      if Ascii.eqb c "e"%char || Ascii.eqb c "E"%char
      then (EmptyString, Some s')
      else let '(a, b) := split_exponent s' in (String c a, b)
  end.

(** The number [q] times ten to the power of the exponent written in [e],
    [None] when [e] is not a sign and digits. *)
Definition scale_by_exponent (q : Q) (e : option string) : option Q :=
  match e with
  | None => Some q
  | Some t =>
      let '(neg, d) := split_sign t in
      match unsigned_value d with
      | Some x =>
          Some (if neg then Qdiv q (inject_Z (10 ^ x))
                else Qmult q (inject_Z (10 ^ x)))
      | None => None
      end
  end.

Definition float_of_str (s : string) : res Q :=
  let '(neg, d) := split_sign (strip s) in
  let '(mantissa, e) := split_exponent d in
  let '(ip, fp) := split_dot mantissa in
  let fp := default EmptyString fp in
  match ip, fp with
  | EmptyString, EmptyString => Raise ValueError
  | _, _ =>
      match digits_value 0 ip, digits_value 0 fp with
      | Some i, Some f =>
          let q := Qmake (i * 10 ^ Z.of_nat (String.length fp) + f)
                         (Z.to_pos (10 ^ Z.of_nat (String.length fp))) in
          match scale_by_exponent q e with
          | Some q => Ok (if neg then Qopp q else q)
          | None => Raise ValueError
          end
      | _, _ => Raise ValueError
      end
  end.

(** [int(x)] on a float: truncation towards zero. *)
Definition int_of_float (q : Q) : Z := Z.quot (Qnum q) (Zpos (Qden q)).

(** [format(s)] with the format [{0:0>3}]: [s] right-aligned in three
    columns, filled with zeros. *)
Fixpoint zeros (n : nat) : string :=
  match n with O => EmptyString | S n' => String "0" (zeros n') end.

Definition format_0gt3 (s : string) : string :=
  zeros (3 - String.length s) +:+ s.

(** [repr(s)] of a string of ASCII characters: single quotes unless the
    string holds one and no double quote; the quote, the backslash and the
    control characters are escaped. *)
Fixpoint str_mem (c : ascii) (s : string) : bool :=
  match s with
  | EmptyString => false
  | String d s' => Ascii.eqb c d || str_mem c s'
  end.

Definition hex_digit (n : nat) : ascii :=
  ascii_of_nat (if (n <? 10)%nat then 48 + n else 87 + n)%nat.

Definition repr_char (q : ascii) (c : ascii) : string :=
  let n := nat_of_ascii c in
  if Ascii.eqb c q || Ascii.eqb c "\"%char then String "\" (str1 c)
  else if (n =? 10)%nat then "\n"
  else if (n =? 13)%nat then "\r"
  else if (n =? 9)%nat then "\t"
  else if ((n <? 32) || (126 <? n))%nat
       then "\x" +:+ String (hex_digit (n / 16)) (str1 (hex_digit (n mod 16)))
  else str1 c.

Fixpoint repr_body (q : ascii) (s : string) : string :=
  match s with
  | EmptyString => EmptyString
  | String c s' => repr_char q c +:+ repr_body q s'
  end.

Definition repr (s : string) : string :=
  let q := if str_mem squote s && negb (str_mem dquote s) then dquote
           else squote in
  String q (repr_body q s +:+ str1 q).

(** [sep.join(l)] *)
Fixpoint str_join (sep : string) (l : list string) : string :=
  match l with
  | [] => EmptyString
  | [x] => x
  | x :: l' => x +:+ sep +:+ str_join sep l'
  end.

(** [str(l)] for a list of strings. *)
Definition str_of_list (l : list string) : string :=
  "[" +:+ str_join ", " (map repr l) +:+ "]".

Definition endswith_slash (s : string) : bool :=
  match String.get (String.length s - 1) s with
  | Some c => Ascii.eqb c "/"%char
  | None => false
  end.

(** A Python value of one of the two types that the code compares with
    [==]: a [str] and an [int] are never equal. *)
Inductive pyval : Type :=
| PyStr (s : string)
| PyInt (z : Z).

Definition py_eq (a b : pyval) : bool :=
  match a, b with
  | PyStr s, PyStr t => String.eqb s t
  | PyInt x, PyInt y => Z.eqb x y
  | _, _ => false
  end.

(** ** Regular expressions ([re])

    The syntax tree of a pattern.  A literal character of the source
    pattern, escaped or not, is a [Chr] with one [CChar]; [\d], [\w], [\s]
    and a bracketed set are a [Chr] as well. *)

Inductive cset : Type :=
| CChar (c : ascii)
| CDigit
| CWord
| CSpace.

Inductive regex : Type :=
| Eps
| Chr (cs : list cset)
| Dot
| Seq (r1 r2 : regex)
| Alt (r1 r2 : regex)
| Star (r : regex)
| Group (name : string) (r : regex).

Definition Plus (r : regex) : regex := Seq r (Star r).
Definition Opt (r : regex) : regex := Alt r Eps.
Definition digit : regex := Chr [CDigit].

(** The pattern that matches the characters of [s] literally. *)
Fixpoint lit (s : string) : regex :=
  match s with
  | EmptyString => Eps
  | String c EmptyString => Chr [CChar c]
  | String c s' => Seq (Chr [CChar c]) (lit s')
  end.

Fixpoint seq (rs : list regex) : regex :=
  match rs with
  | [] => Eps
  | [r] => r
  | r :: rs' => Seq r (seq rs')
  end.

Definition cset_mem (c : ascii) (x : cset) : bool :=
  match x with
  | CChar d => Ascii.eqb c d
  | CDigit => is_digit c
  | CWord => is_word c
  | CSpace => is_space c
  end.

(** The groups that took part in a match, the last capture first. *)
Definition captures : Type := list (string * string).

Fixpoint capture_of (name : string) (c : captures) : option string :=
  match c with
  | [] => None
  | (n, v) :: c' => if String.eqb n name then Some v else capture_of name c'
  end.

(** The backtracking matcher, in continuation-passing style: [rx_match r k
    s c] matches [r] at the head of [s] and calls [k] on what is left; a
    [None] from [k] makes the matcher try its next choice.  A repetition is
    greedy, and an iteration that consumes nothing ends it. *)
Fixpoint rx_match {R : Type} (r : regex) (k : string -> captures -> option R)
  (s : string) (c : captures) {struct r} : option R :=
  match r with
  | Eps => k s c
  | Chr cs =>
      match s with
      | String a s' => if existsb (cset_mem a) cs then k s' c else None
      | EmptyString => None
      end
  | Dot =>
      match s with
      | String a s' => if Ascii.eqb a newline then None else k s' c
      | EmptyString => None
      end
  | Seq r1 r2 => rx_match r1 (rx_match r2 k) s c
  | Alt r1 r2 =>
      match rx_match r1 k s c with
      | Some x => Some x
      | None => rx_match r2 k s c
      end
  | Star r' =>
      (fix loop (fuel : nat) (s : string) (c : captures) : option R :=
         match fuel with
         | O => k s c
         | S fuel' =>
             match rx_match r'
                     (fun s' c' =>
                        if (String.length s' <? String.length s)%nat
                        then loop fuel' s' c' else None) s c with
             | Some x => Some x
             | None => k s c
             end
         end) (String.length s) s c
  | Group name r' =>
      rx_match r'
        (fun s' c' =>
           k s' ((name, str_take (String.length s - String.length s') s) :: c'))
        s c
  end.

Fixpoint group_names (r : regex) : list string :=
  match r with
  | Eps | Chr _ | Dot => []
  | Seq r1 r2 | Alt r1 r2 => group_names r1 ++ group_names r2
  | Star r' => group_names r'
  | Group name r' => name :: group_names r'
  end.

(** A match object. *)
Record Match : Type := {
  m_start : nat;
  m_text : string;
  m_names : list string;
  m_captures : captures
}.

Definition m_end (m : Match) : nat := (m_start m + String.length (m_text m))%nat.

(** [m.group()] *)
Definition group0 (m : Match) : string := m_text m.

(** [m.group(name)]: [None] is Python's [None], for a group that took no
    part in the match. *)
Definition group (m : Match) (name : string) : res (option string) :=
  if existsb (String.eqb name) (m_names m)
  then Ok (capture_of name (m_captures m))
  else Raise IndexError.

(** One attempt of the pattern at the head of [s]; [pos] is the offset of [s]
    in the text searched. *)
Definition match_at (r : regex) (pos : nat) (s : string) : option Match :=
  rx_match r
    (fun s' c =>
       Some {| m_start := pos;
               m_text := str_take (String.length s - String.length s') s;
               m_names := group_names r;
               m_captures := c |}) s [].

(** The first match at or after the head of [s], with [pos] the offset of
    [s] in the text: the leftmost start wins. *)
Fixpoint search_from (r : regex) (pos : nat) (s : string) : option Match :=
  match match_at r pos s with
  | Some m => Some m
  | None =>
      match s with
      | EmptyString => None
      | String _ s' => search_from r (S pos) s'
      end
  end.

(** The matches from left to right, without overlap; the scan resumes one
    character further after an empty match (no pattern of the source
    matches the empty string). *)
Fixpoint finditer_from (fuel : nat) (r : regex) (pos : nat) (s : string)
  : list Match :=
  match fuel with
  | O => []
  | S fuel' =>
      match search_from r pos s with
      | None => []
      | Some m =>
          let step := if (String.length (m_text m) =? 0)%nat then 1%nat
                      else 0%nat in
          let next := (m_end m + step)%nat in
          m :: (if (String.length s <? next - pos)%nat then []
                else finditer_from fuel' r next (str_drop (next - pos) s))
      end
  end.

Module re.

(** [re.search(r, s)] and [re.compile(r).search(s)] *)
Definition search (r : regex) (s : string) : option Match :=
  search_from r 0 s.

(** [re.compile(r).finditer(s)] *)
Definition finditer (r : regex) (s : string) : list Match :=
  finditer_from (S (String.length s)) r 0 s.

(** [re.findall(r, s)] for a pattern with one group, named [name]: the
    captures of the group, the empty string where it took no part. *)
Definition findall (r : regex) (name : string) (s : string) : list string :=
  map (fun m => default EmptyString (capture_of name (m_captures m)))
      (finditer r s).

(** [re.findall(r, s)] for a pattern without group: the texts matched. *)
Definition findall0 (r : regex) (s : string) : list string :=
  map group0 (finditer r s).

End re.

(** ** Numeric tables ([numpy])

    [np.loadtxt(f, skiprows=k, ndmin=2)] gives the rows of numbers of the
    file; without [ndmin] the axes of length one are dropped. *)

Definition table : Type := list (list Q).

Inductive ndarray : Type :=
| Arr0 (x : Q)
| Arr1 (xs : list Q)
| Arr2 (rows : table).

Definition squeeze (t : table) : ndarray :=
  match t with
  | [] => Arr1 []
  | [[x]] => Arr0 x
  | [row] => Arr1 row
  | _ => if forallb (fun row => (length row =? 1)%nat) t
         then Arr1 (List.concat t) else Arr2 t
  end.

(** [row[i]] *)
Definition item (row : list Q) (i : nat) : res Q :=
  match nth_error row i with
  | Some q => Ok q
  | None => Raise IndexError
  end.

Arguments item : simpl never.

(** [aa[:, i]] *)
Fixpoint column_of (rows : table) (i : nat) : res (list Q) :=
  match rows with
  | [] => Ok []
  | row :: rows' =>
      q <- item row i ;; qs <- column_of rows' i ;; Ok (q :: qs)
  end.

Definition column (aa : ndarray) (i : nat) : res (list Q) :=
  match aa with
  | Arr2 rows => column_of rows i
  | _ => Raise IndexError
  end.

(** Python's [max(a, b)] and [min(a, b)]: the first argument unless the
    second is strictly beyond it. *)
Definition py_max (a b : Q) : Q := if Qle_bool b a then a else b.
Definition py_min (a b : Q) : Q := if Qle_bool a b then a else b.

(** ** The file system

    What the code asks of the directory tree: the listing of a pattern, the
    presence of a file, the text of a file and the table of numbers in a
    file after its header lines. *)

Record FileSystem : Type := {
  fs_glob : string -> list string;
  fs_isfile : string -> bool;
  fs_read : string -> res string;
  fs_table : string -> res table
}.

Module os.
Module path.

(** [os.path.join(a, b)] on a POSIX system. *)
Definition join (a b : string) : string :=
  if startswith b "/" then b
  else match a with
       | EmptyString => b
       | _ => if endswith_slash a then a +:+ b else a +:+ "/" +:+ b
       end.

(** [os.path.isfile(path)] *)
Definition isfile (fs : FileSystem) (path : string) : bool :=
  fs_isfile fs path.

End path.
End os.

Module glob.
(** [glob.glob(pattern)] *)
Definition glob (fs : FileSystem) (pattern : string) : list string :=
  fs_glob fs pattern.
End glob.

(** [open(path, 'r').read()] *)
Definition open_read (fs : FileSystem) (path : string) : res string :=
  fs_read fs path.

Module np.

(** [np.loadtxt(path, skiprows=k, ndmin=2)] *)
Definition loadtxt2 (fs : FileSystem) (path : string) : res table :=
  fs_table fs path.

(** [np.loadtxt(path)] *)
Definition loadtxt (fs : FileSystem) (path : string) : res ndarray :=
  t <- fs_table fs path ;; Ok (squeeze t).

(** [np.amax(xs, axis=None)] and [np.amin(xs, axis=None)] *)
Definition amax (xs : list Q) : res Q :=
  match xs with
  | [] => Raise ValueError
  | x :: xs' => Ok (fold_left py_max xs' x)
  end.

Definition amin (xs : list Q) : res Q :=
  match xs with
  | [] => Raise ValueError
  | x :: xs' => Ok (fold_left py_min xs' x)
  end.

(** [np.column_stack((a, b))] of two tables: the rows side by side. *)
Definition column_stack (a b : table) : res table :=
  if (length a =? length b)%nat then Ok (zip_with (@app Q) a b)
  else Raise ValueError.

End np.

(** ** The objects of the export library

    The classes of [nidmresults.objects] are records of the arguments of
    their constructors.  An object whose [id] the parser reads carries it:
    the library draws a new identifier at each construction, here the next
    number of a counter kept in the exporter. *)

Definition ident : Type := nat.

Inductive coordinate_system : Type :=
| NIDM_SUBJECT_COORDINATE_SYSTEM
| NIDM_ICBM_MNI152_NON_LINEAR6TH_GENERATION_COORDINATE_SYSTEM
| NIDM_STANDARDIZED_COORDINATE_SYSTEM.

Record CoordinateSpace : Type := {
  cs_system : coordinate_system;
  cs_file : string
}.

Record ParameterEstimateMap : Type := {
  pe_file : string;
  pe_num : string;
  pe_coord_space : option CoordinateSpace;
  pe_id : ident
}.

(** Of a [ModelFitting] the parser of contrasts reads [activity.id] and
    [param_estimates]. *)
Record ModelFitting : Type := {
  activity_id : ident;
  param_estimates : list ParameterEstimateMap
}.

Record ContrastEstimation : Type := {
  ce_num : string;
  ce_name : option string;
  ce_id : ident
}.

Record ContrastWeights : Type := {
  cw_stat_num : string;
  cw_contrast_name : option string;
  cw_contrast_weights : string;
  cw_stat_type : string
}.

Record ContrastMap : Type := {
  cm_file : string;
  cm_stat_num : string;
  cm_contrast_name : option string;
  cm_coord_space : option CoordinateSpace;
  cm_export_dir : string
}.

Record ContrastStdErrMap : Type := {
  se_stat_num : string;
  se_file : string;
  se_is_variance : bool;
  se_coord_space : option CoordinateSpace;
  se_var_coord_space : option CoordinateSpace;
  se_export_dir : string
}.

Record StatisticMap : Type := {
  sm_file : string;
  sm_stat_type : string;
  sm_stat_num : string;
  sm_contrast_name : option string;
  sm_dof : Q;
  sm_coord_space : option CoordinateSpace;
  sm_export_dir : string
}.

Record Contrast : Type := {
  con_num : string;
  con_name : option string;
  con_weights : ContrastWeights;
  estimation : ContrastEstimation;
  contrast_map : ContrastMap;
  std_err_map : ContrastStdErrMap;
  stat_map : StatisticMap;
  z_stat_map : StatisticMap
}.

Record Peak : Type := {
  peak_index : Z;
  peak_x : option Z;
  peak_y : option Z;
  peak_z : option Z;
  peak_x_std : option Q;
  peak_y_std : option Q;
  peak_z_std : option Q;
  equiv_z : Q;
  cluster_index : Z;
  peak_stat_num : string
}.

Record Cluster : Type := {
  cluster_num : Z;
  size : Z;
  pFWER : Q;
  peaks : list Peak;
  cl_x : option Q;
  cl_y : option Q;
  cl_z : option Q;
  cl_x_std : option Q;
  cl_y_std : option Q;
  cl_z_std : option Q
}.

Record HeightThreshold : Type := {
  stat_threshold : option Q;
  p_corr_threshold : option Q;
  p_uncorr_threshold : option Q
}.

Record ExtentThreshold : Type := {
  extent_p_corr : option Q
}.

Record PeakCriteria : Type := {
  pc_stat_num : string;
  pc_num_peak : option Z;
  pc_peak_dist : Q
}.

Record ClusterCriteria : Type := {
  cc_stat_num : string;
  cc_connectivity : option Z
}.

Record DisplayMaskMap : Type := {
  dm_stat_num : string;
  dm_file : string;
  dm_coord_space : option CoordinateSpace;
  dm_export_dir : string
}.

Record ExcursionSet : Type := {
  es_file : string;
  es_stat_num : string;
  es_visualisation : string;
  es_coord_space : option CoordinateSpace;
  es_export_dir : string
}.

Record InferenceActivity : Type := {
  ia_stat_num : string;
  ia_contrast_name : option string
}.

Inductive design_type : Type :=
| NIDM_EVENT_RELATED_DESIGN
| NIDM_BLOCK_BASED_DESIGN
| NIDM_MIXED_DESIGN.

(** ** The exporter ([self]) *)

(** The key of the mapping of contrasts: the identifier of the model
    fitting activity and the tuple of identifiers of parameter estimates. *)
Definition contrast_key : Type := ident * list ident.

Record FSLtoNIDMExporter : Type := {
  feat_dir : string;
  export_dir : string;
  design_txt : string;
  feat_post_log : option string;
  first_level : bool;
  analysis_dirs : list string;
  coord_space : option CoordinateSpace;
  contrast_names_by_num : gmap string (option string);
  model_fittings : list (string * ModelFitting);
  contrasts : list (contrast_key * list Contrast);
  software_id : ident;
  next_id : ident
}.

(** [self.contrast_names_by_num[num] = name] *)
Definition set_contrast_name (self : FSLtoNIDMExporter) (num : string)
  (name : option string) : FSLtoNIDMExporter :=
  {| feat_dir := feat_dir self; export_dir := export_dir self;
     design_txt := design_txt self; feat_post_log := feat_post_log self;
     first_level := first_level self; analysis_dirs := analysis_dirs self;
     coord_space := coord_space self;
     contrast_names_by_num := <[num := name]> (contrast_names_by_num self);
     model_fittings := model_fittings self; contrasts := contrasts self;
     software_id := software_id self; next_id := next_id self |}.

(** Drawing the identifier of a new object. *)
Definition fresh_id (self : FSLtoNIDMExporter) : ident * FSLtoNIDMExporter :=
  (next_id self,
   {| feat_dir := feat_dir self; export_dir := export_dir self;
      design_txt := design_txt self; feat_post_log := feat_post_log self;
      first_level := first_level self; analysis_dirs := analysis_dirs self;
      coord_space := coord_space self;
      contrast_names_by_num := contrast_names_by_num self;
      model_fittings := model_fittings self; contrasts := contrasts self;
      software_id := software_id self; next_id := S (next_id self) |}).

(** [self.contrasts = self._find_contrasts()], as the exporter's base
    class does between the two parsing steps. *)
Definition set_contrasts (self : FSLtoNIDMExporter)
  (cs : list (contrast_key * list Contrast)) : FSLtoNIDMExporter :=
  {| feat_dir := feat_dir self; export_dir := export_dir self;
     design_txt := design_txt self; feat_post_log := feat_post_log self;
     first_level := first_level self; analysis_dirs := analysis_dirs self;
     coord_space := coord_space self;
     contrast_names_by_num := contrast_names_by_num self;
     model_fittings := model_fittings self; contrasts := cs;
     software_id := software_id self; next_id := next_id self |}.

(** [d[key]] on a dict kept as an association list. *)
Fixpoint assoc {K V : Type} `{EqDecision K} (key : K) (d : list (K * V))
  : option V :=
  match d with
  | [] => None
  | (k, v) :: d' => if decide (k = key) then Some v else assoc key d'
  end.

Definition getitem {K V : Type} `{EqDecision K} (d : list (K * V)) (key : K)
  : res V :=
  match assoc key d with
  | Some v => Ok v
  | None => Raise KeyError
  end.

(** [d.setdefault(key, list()).append(v)] *)
Fixpoint setdefault_append {K V : Type} `{EqDecision K} (key : K) (v : V)
  (d : list (K * list V)) : list (K * list V) :=
  match d with
  | [] => [(key, [v])]
  | (k, vs) :: d' =>
      if decide (k = key) then (k, vs ++ [v]) :: d'
      else (k, vs) :: setdefault_append key v d'
  end.

(** [d.values()] *)
Definition values {K V : Type} (d : list (K * V)) : list V := map snd d.

(** An argument that must be a string: [float(None)], [int(None)] and
    [None + s] raise a [TypeError]. *)
Definition the_str (v : option string) : res string :=
  match v with
  | Some s => Ok s
  | None => Raise TypeError
  end.

(** ** [_search_in_fsf] (lines 710-721) *)

Definition _search_in_fsf (self : FSLtoNIDMExporter) (regexp : regex)
  (return_not_found : bool) : res (option string) :=
  let info_found := re.search regexp (design_txt self) in
  match info_found with
  | None => if return_not_found then Ok None else Raise AttributeError
  | Some m => group m "info"
  end.

(** ** [_get_clusters_peaks] (lines 871-1038) *)

(** A table that may be missing: [None] when [os.path.isfile] says no. *)
Definition optional_table (fs : FileSystem) (path : string)
  : res (option table) :=
  if negb (os.path.isfile fs path) then Ok None
  else t <- np.loadtxt2 fs path ;; Ok (Some t).

(** The variables of the loop over the rows of a peak table: the grouping
    [peaks], [prev_cluster], and [peakIndex], which has no value until a
    row assigns it. *)
Record peak_state : Type := {
  st_peaks : gmap Z (list Peak);
  st_prev_cluster : Z;
  st_peakIndex : option Z
}.

(** The three calls of [Peak(...)]: both tables joined (lines 929-935),
    the table in voxels alone (951-955), the table in mm alone (971-977). *)
Definition peak_joined (stat_num : string) (peakIndex : option Z)
  (peak_row : list Q) (cluster_id : Z) : res Peak :=
  i <- local peakIndex ;;
  x <- item peak_row 2 ;; y <- item peak_row 3 ;; z <- item peak_row 4 ;;
  x_std <- item peak_row 7 ;; y_std <- item peak_row 8 ;;
  z_std <- item peak_row 9 ;;
  e <- item peak_row 1 ;;
  Ok {| peak_index := i;
        peak_x := Some (int_of_float x); peak_y := Some (int_of_float y);
        peak_z := Some (int_of_float z);
        peak_x_std := Some x_std; peak_y_std := Some y_std;
        peak_z_std := Some z_std;
        equiv_z := e; cluster_index := cluster_id;
        peak_stat_num := stat_num |}.

Definition peak_voxel (stat_num : string) (peakIndex : option Z)
  (peak_row : list Q) (cluster_id : Z) : res Peak :=
  i <- local peakIndex ;;
  x <- item peak_row 2 ;; y <- item peak_row 3 ;; z <- item peak_row 4 ;;
  e <- item peak_row 1 ;;
  Ok {| peak_index := i;
        peak_x := Some (int_of_float x); peak_y := Some (int_of_float y);
        peak_z := Some (int_of_float z);
        peak_x_std := None; peak_y_std := None; peak_z_std := None;
        equiv_z := e; cluster_index := cluster_id;
        peak_stat_num := stat_num |}.

Definition peak_std (stat_num : string) (peakIndex : option Z)
  (peak_row : list Q) (cluster_id : Z) : res Peak :=
  i <- local peakIndex ;;
  x_std <- item peak_row 2 ;; y_std <- item peak_row 3 ;;
  z_std <- item peak_row 4 ;;
  e <- item peak_row 1 ;;
  Ok {| peak_index := i;
        peak_x := None; peak_y := None; peak_z := None;
        peak_x_std := Some x_std; peak_y_std := Some y_std;
        peak_z_std := Some z_std;
        equiv_z := e; cluster_index := cluster_id;
        peak_stat_num := stat_num |}.

(** [cluster_id = int(peak_row[0])] *)
Definition row_cluster_id (row : list Q) : res Z :=
  c <- item row 0 ;; Ok (int_of_float c).

(** The body of the loop over the rows of a peak table, the same in the
    three branches but for the call of [Peak]. *)
Definition peak_step (mk : option Z -> list Q -> Z -> res Peak)
  (st : peak_state) (peak_row : list Q) : res peak_state :=
  cluster_id <- row_cluster_id peak_row ;;
  let peakIndex :=
    if negb (cluster_id =? st_prev_cluster st) then Some 1
    else st_peakIndex st in
  peak <- mk peakIndex peak_row cluster_id ;;
  let peaks :=
    match st_peaks st !! cluster_id with
    | Some ps => <[cluster_id := ps ++ [peak]]> (st_peaks st)
    | None => <[cluster_id := [peak]]> (st_peaks st)
    end in
  i <- local peakIndex ;;
  Ok {| st_peaks := peaks; st_prev_cluster := cluster_id;
        st_peakIndex := Some (i + 1) |}.

(** The rows that are scanned and the call of [Peak] that applies, by the
    tables that are there (lines 916, 944 and 964). *)
Definition peak_rows (peak_table peak_std_table : option table)
  : res table :=
  match peak_table, peak_std_table with
  | Some t, Some t_std => np.column_stack t t_std
  | Some t, None => Ok t
  | None, Some t_std => Ok t_std
  | None, None => Ok []
  end.

Definition peak_of (stat_num : string) (peak_table peak_std_table : option table)
  : option Z -> list Q -> Z -> res Peak :=
  match peak_table, peak_std_table with
  | Some _, Some _ => peak_joined stat_num
  | Some _, None => peak_voxel stat_num
  | _, _ => peak_std stat_num
  end.

(** Lines 914-984: [peaks = dict()], [prev_cluster = -1] and the loop;
    [peakIndex] comes from the statements before. *)
Definition get_peaks (stat_num : string)
  (peak_table peak_std_table : option table) (peakIndex : option Z)
  : res peak_state :=
  rows <- peak_rows peak_table peak_std_table ;;
  for_each (peak_step (peak_of stat_num peak_table peak_std_table)) rows
    {| st_peaks := ∅; st_prev_cluster := -1; st_peakIndex := peakIndex |}.

(** [peaks[cluster_id]] *)
Definition peaks_getitem (peaks : gmap Z (list Peak)) (cluster_id : Z)
  : res (list Peak) :=
  match peaks !! cluster_id with
  | Some ps => Ok ps
  | None => Raise KeyError
  end.

(** The three loops over the rows of a cluster table (lines 989-1003,
    1006-1020 and 1022-1036). *)
Definition cluster_joined (peaks : gmap Z (list Peak)) (cluster_row : list Q)
  : res Cluster :=
  c <- item cluster_row 0 ;; n <- item cluster_row 1 ;;
  p <- item cluster_row 2 ;;
  x <- item cluster_row 8 ;; y <- item cluster_row 9 ;;
  z <- item cluster_row 10 ;;
  x_std <- item cluster_row 24 ;; y_std <- item cluster_row 25 ;;
  z_std <- item cluster_row 26 ;;
  ps <- peaks_getitem peaks (int_of_float c) ;;
  Ok {| cluster_num := int_of_float c; size := int_of_float n; pFWER := p;
        peaks := ps; cl_x := Some x; cl_y := Some y; cl_z := Some z;
        cl_x_std := Some x_std; cl_y_std := Some y_std;
        cl_z_std := Some z_std |}.

Definition cluster_voxel (peaks : gmap Z (list Peak)) (cluster_row : list Q)
  : res Cluster :=
  c <- item cluster_row 0 ;; n <- item cluster_row 1 ;;
  p <- item cluster_row 2 ;;
  x <- item cluster_row 8 ;; y <- item cluster_row 9 ;;
  z <- item cluster_row 10 ;;
  ps <- peaks_getitem peaks (int_of_float c) ;;
  Ok {| cluster_num := int_of_float c; size := int_of_float n; pFWER := p;
        peaks := ps; cl_x := Some x; cl_y := Some y; cl_z := Some z;
        cl_x_std := None; cl_y_std := None; cl_z_std := None |}.

Definition cluster_std (peaks : gmap Z (list Peak)) (cluster_row : list Q)
  : res Cluster :=
  c <- item cluster_row 0 ;; n <- item cluster_row 1 ;;
  p <- item cluster_row 2 ;;
  x_std <- item cluster_row 8 ;; y_std <- item cluster_row 9 ;;
  z_std <- item cluster_row 10 ;;
  ps <- peaks_getitem peaks (int_of_float c) ;;
  Ok {| cluster_num := int_of_float c; size := int_of_float n; pFWER := p;
        peaks := ps; cl_x := None; cl_y := None; cl_z := None;
        cl_x_std := Some x_std; cl_y_std := Some y_std;
        cl_z_std := Some z_std |}.

Definition cluster_rows (cluster_table cluster_std_table : option table)
  : res table :=
  match cluster_table, cluster_std_table with
  | Some t, Some t_std => np.column_stack t t_std
  | Some t, None => Ok t
  | None, Some t_std => Ok t_std
  | None, None => Ok []
  end.

Definition cluster_of (cluster_table cluster_std_table : option table)
  : gmap Z (list Peak) -> list Q -> res Cluster :=
  match cluster_table, cluster_std_table with
  | Some _, Some _ => cluster_joined
  | Some _, None => cluster_voxel
  | _, _ => cluster_std
  end.

(** [clusters.append(Cluster(...))] for each row. *)
Definition cluster_step (mk : list Q -> res Cluster) (clusters : list Cluster)
  (cluster_row : list Q) : res (list Cluster) :=
  cl <- mk cluster_row ;; Ok (clusters ++ [cl]).

(** Lines 986-1036. *)
Definition get_clusters (peaks : gmap Z (list Peak))
  (cluster_table cluster_std_table : option table) (clusters : list Cluster)
  : res (list Cluster) :=
  rows <- cluster_rows cluster_table cluster_std_table ;;
  for_each (cluster_step (cluster_of cluster_table cluster_std_table peaks))
    rows clusters.

(** The four tables of an analysis directory, read in the order of the
    source (lines 880-912). *)
Record tables : Type := {
  cluster_table : option table;
  cluster_std_table : option table;
  peak_table : option table;
  peak_std_table : option table
}.

Definition read_tables (fs : FileSystem) (analysis_dir stat_num : string)
  : res tables :=
  ct <- optional_table fs
          (os.path.join analysis_dir ("cluster_zstat" +:+ stat_num +:+ ".txt")) ;;
  cst <- optional_table fs
           (os.path.join analysis_dir
              ("cluster_zstat" +:+ stat_num +:+ "_std.txt")) ;;
  pt <- optional_table fs
          (os.path.join analysis_dir ("lmax_zstat" +:+ stat_num +:+ ".txt")) ;;
  pst <- optional_table fs
           (os.path.join analysis_dir ("lmax_zstat" +:+ stat_num +:+ "_std.txt")) ;;
  Ok {| cluster_table := ct; cluster_std_table := cst;
        peak_table := pt; peak_std_table := pst |}.

(** One turn of the loop over [self.analysis_dirs]: [clusters] and
    [peakIndex] are the local variables that live across the turns. *)
Definition merge_tables (stat_num : string) (t : tables)
  (st : list Cluster * option Z) : res (list Cluster * option Z) :=
  ps <- get_peaks stat_num (peak_table t) (peak_std_table t) (snd st) ;;
  cls <- get_clusters (st_peaks ps) (cluster_table t) (cluster_std_table t)
           (fst st) ;;
  Ok (cls, st_peakIndex ps).

Definition clusters_peaks_step (fs : FileSystem) (stat_num : string)
  (st : list Cluster * option Z) (analysis_dir : string)
  : res (list Cluster * option Z) :=
  t <- read_tables fs analysis_dir stat_num ;;
  merge_tables stat_num t st.

Definition _get_clusters_peaks (fs : FileSystem) (self : FSLtoNIDMExporter)
  (stat_num : string) : res (list Cluster) :=
  st <- for_each (clusters_peaks_step fs stat_num) (analysis_dirs self)
          ([], None) ;;
  Ok (fst st).

(** ** The peak index in the words of the specification

    "Peak index is assigned by scanning rows in table order and resetting
    to 1 whenever the cluster id column changes value": [prev] is the
    cluster id of the row before, if there is one, and [last] the index
    that row was given. *)
Fixpoint positional (prev : option Z) (last : Z) (ids : list Z) : list Z :=
  match ids with
  | [] => []
  | c :: ids' =>
      let i := if decide (prev = Some c) then last + 1 else 1 in
      i :: positional (Some c) i ids'
  end.

Definition positional_indexes (ids : list Z) : list Z := positional None 0 ids.

(** The indexes, in the order of the rows, of the rows of cluster [c]. *)
Definition indexes_of (c : Z) (ids idxs : list Z) : list Z :=
  (filter (fun p => p.1 = c) (zip ids idxs)).*2.

(** The peak indexes recorded for cluster [c] in a grouping. *)
Definition indexes_in (peaks : gmap Z (list Peak)) (c : Z) : list Z :=
  peak_index <$> default [] (peaks !! c).

(** The number of columns that the call of [Peak] reads in a row. *)
Definition peak_width (peak_table peak_std_table : option table) : nat :=
  match peak_table, peak_std_table with
  | Some _, Some _ => 10
  | _, _ => 5
  end.

(** ** The patterns of the source

    Each pattern is the syntax tree of the string that the source compiles;
    where the source splices a number into the string, the tree takes it as
    an argument. *)

Definition dq : regex := Chr [CChar dquote].

(** ['zf?stat\d+'] *)
Definition zstat_re : regex := seq [lit "z"; Opt (lit "f"); lit "stat"; Plus digit].

(** ['pe\d+'] *)
Definition pe_re : regex := Seq (lit "pe") (Plus digit).

(** ['cope\d+\.nii\.gz'] *)
Definition cope_re : regex := seq [lit "cope"; Plus digit; lit ".nii.gz"].

(** [r'.*set fmri\(KEY\) (?P<info>VALUE).*'] *)
Definition fmri_re (key : string) (value : regex) : regex :=
  seq [Star Dot; lit "set fmri("; lit key; lit ") "; Group "info" value;
       Star Dot].

(** [r'.*set fmri\(conname_real\.' + con_num + '\) Q(?P<info>[\w\s><]+)Q.*'],
    with Q for the double quote. *)
Definition name_re (con_num : string) : regex :=
  seq [Star Dot; lit "set fmri(conname_real."; lit con_num; lit ") "; dq;
       Group "info" (Plus (Chr [CWord; CSpace; CChar ">"; CChar "<"]));
       dq; Star Dot].

(** [r'.*set fmri\(con_real' + con_num + '\.\d+\) (?P<info>-?\d+)'] *)
Definition weights_re (con_num : string) : regex :=
  seq [Star Dot; lit "set fmri(con_real"; lit con_num; lit "."; Plus digit;
       lit ") "; Group "info" (Seq (Opt (lit "-")) (Plus digit))].

(** [r'.*set fmri\(prob_thresh\) (?P<info>\d+\.?\d+).*'] and the like. *)
Definition decimal : regex := seq [Plus digit; Opt (lit "."); Plus digit].
Definition prob_re : regex := fmri_re "prob_thresh" decimal.
Definition z_re : regex := fmri_re "z_thresh" decimal.
Definition type_re : regex := fmri_re "thresh" (Plus digit).

(** [r'.*set fmri\(alternateReference_yn\) (?P<info>[\d]+).*'], the pattern
    that line 681 looks up with [return_not_found]. *)
Definition custom_re : regex := fmri_re "alternateReference_yn" (Plus digit).

(** [r'set fmri\(conmask1_1\) (?P<con_maskg>\d+)'] *)
Definition conmask_re : regex :=
  Seq (lit "set fmri(conmask1_1) ") (Group "con_maskg" (Plus digit)).

(** [r'.* --num=(?P<numpeak>\d+)+ .*'] and the like, on the log of the
    post-processing. *)
Definition option_re (flag name : string) : regex :=
  seq [Star Dot; lit " "; lit flag; lit "="; Plus (Group name (Plus digit));
       lit " "; Star Dot].

(** [s.upper()] and [s.lower()] *)
Definition upper_char (c : ascii) : ascii :=
  let n := nat_of_ascii c in
  if ((97 <=? n) && (n <=? 122))%nat then ascii_of_nat (n - 32) else c.

Definition lower_char (c : ascii) : ascii :=
  let n := nat_of_ascii c in
  if ((65 <=? n) && (n <=? 90))%nat then ascii_of_nat (n + 32) else c.

Fixpoint str_map (f : ascii -> ascii) (s : string) : string :=
  match s with
  | EmptyString => EmptyString
  | String c s' => String (f c) (str_map f s')
  end.

Definition upper : string -> string := str_map upper_char.
Definition lower : string -> string := str_map lower_char.

(** [m.group()] of the result of a search: an [AttributeError] on [None]. *)
Definition found_group0 (m : option Match) : res string :=
  match m with
  | Some m => Ok (group0 m)
  | None => Raise AttributeError
  end.

Definition found_group (m : option Match) (name : string)
  : res (option string) :=
  match m with
  | Some m => group m name
  | None => Raise AttributeError
  end.

(** The statistic type and number read from the name of an excursion set
    (lines 181-190 and 307-315); they have no value when the name found
    starts with neither prefix. *)
Definition stat_of (zstatnum : string) : option (string * string) :=
  if startswith zstatnum "zstat"
  then Some ("T", replace zstatnum "zstat" EmptyString)
  else if startswith zstatnum "zfstat"
  then Some ("F", replace zstatnum "zfstat" EmptyString)
  else None.

(** The suffix of the exported file names when there are several excursion
    sets (lines 196-197 and 320-321). *)
Definition stat_suffix (stat_type num : string) : string :=
  "_" +:+ upper stat_type +:+ format_0gt3 num.

(** ** [_find_contrasts] (lines 155-289) *)

(** Lines 236-242: one parameter estimate map.  [pe_num] is a string and
    [pe_index] an integer. *)
Definition pe_step (pe_index : Z) (pe_ids : list ident)
  (pe : ParameterEstimateMap) : res (list ident) :=
  pe_num <- found_group0 (re.search pe_re (pe_file pe)) ;;
  let pe_num := replace pe_num "pe" EmptyString in
  if py_eq (PyStr pe_num) (PyInt pe_index)
  then Ok (pe_ids ++ [pe_id pe])
  else Ok pe_ids.

(** Lines 233-243: one weight of the contrast. *)
Definition weight_step (self : FSLtoNIDMExporter) (st : list ident * Z)
  (beta_index : string) : res (list ident * Z) :=
  let '(pe_ids, pe_index) := st in
  b <- int_of_str beta_index ;;
  pe_ids <- (if b =? 1
             then for_each
                    (fun ids model_fitting =>
                       for_each (pe_step pe_index)
                         (param_estimates model_fitting) ids)
                    (values (model_fittings self)) pe_ids
             else Ok pe_ids) ;;
  Ok (pe_ids, pe_index + 1).

(** Lines 221-246: the identifiers of the parameter estimates used by a
    contrast, from the text of its weights. *)
Definition find_pe_ids (self : FSLtoNIDMExporter) (contrast_weights : string)
  : res (list ident) :=
  let contrast_weights := replace contrast_weights " " EmptyString in
  let contrast_weights := replace contrast_weights "[" EmptyString in
  let contrast_weights := replace contrast_weights "]" EmptyString in
  let contrast_weights := split ","%char contrast_weights in
  st <- for_each (weight_step self) contrast_weights ([], 1) ;;
  Ok (fst st).

(** Lines 213-216: the text of the weights of contrast [con_num]. *)
Definition weights_text (self : FSLtoNIDMExporter) (con_num : string)
  : string :=
  replace (str_of_list (re.findall (weights_re con_num) "info"
                          (design_txt self)))
    (str1 squote) EmptyString.

Definition mapping : Type := list (contrast_key * list Contrast).

(** Lines 180-287: the body of the loop over the excursion sets. *)
Definition contrast_step (n_exc_sets : nat) (mf_id : ident)
  (stat_dir : string) (dof : Q) (st : FSLtoNIDMExporter * mapping)
  (filename : string) : res (FSLtoNIDMExporter * mapping) :=
  let '(self, contrasts) := st in
  zstatnum <- found_group0 (re.search zstat_re filename) ;;
  let stat := stat_of zstatnum in
  stat_num <- (if (1 <? n_exc_sets)%nat
               then ts <- local stat ;; Ok (stat_suffix ts.1 ts.2)
               else Ok EmptyString) ;;
  ts <- local stat ;;
  let '(stat_type, con_num) := ts in
  contrast_name <- _search_in_fsf self (name_re con_num) false ;;
  let self := set_contrast_name self con_num contrast_name in
  let '(id, self) := fresh_id self in
  let estimation :=
    {| ce_num := con_num; ce_name := contrast_name; ce_id := id |} in
  let contrast_weights := weights_text self con_num in
  let weights :=
    {| cw_stat_num := stat_num; cw_contrast_name := contrast_name;
       cw_contrast_weights := contrast_weights;
       cw_stat_type := stat_type |} in
  pe_ids <- find_pe_ids self contrast_weights ;;
  let con_file := os.path.join stat_dir ("cope" +:+ con_num +:+ ".nii.gz") in
  let contrast_map :=
    {| cm_file := con_file; cm_stat_num := stat_num;
       cm_contrast_name := contrast_name;
       cm_coord_space := coord_space self;
       cm_export_dir := export_dir self |} in
  let varcontrast_file :=
    os.path.join stat_dir ("varcope" +:+ con_num +:+ ".nii.gz") in
  let std_err_map :=
    {| se_stat_num := stat_num; se_file := varcontrast_file;
       se_is_variance := true; se_coord_space := coord_space self;
       se_var_coord_space := coord_space self;
       se_export_dir := export_dir self |} in
  let stat_file :=
    os.path.join stat_dir (lower stat_type +:+ "stat" +:+ con_num +:+ ".nii.gz") in
  let stat_map :=
    {| sm_file := stat_file; sm_stat_type := stat_type;
       sm_stat_num := stat_num; sm_contrast_name := contrast_name;
       sm_dof := dof; sm_coord_space := coord_space self;
       sm_export_dir := export_dir self |} in
  let z_stat_file :=
    os.path.join stat_dir ("zstat" +:+ con_num +:+ ".nii.gz") in
  let z_stat_map :=
    {| sm_file := z_stat_file; sm_stat_type := "Z";
       sm_stat_num := stat_num; sm_contrast_name := contrast_name;
       sm_dof := dof; sm_coord_space := coord_space self;
       sm_export_dir := export_dir self |} in
  let con :=
    {| con_num := con_num; con_name := contrast_name;
       con_weights := weights; estimation := estimation;
       contrast_map := contrast_map; std_err_map := std_err_map;
       stat_map := stat_map; z_stat_map := z_stat_map |} in
  Ok (self, setdefault_append (mf_id, pe_ids) con contrasts).

(** Lines 175-287: the inner loop over [self.analysis_dirs]; every turn
    starts from [contrasts = dict()]. *)
Definition contrasts_of_dir (fs : FileSystem) (mf_id : ident)
  (stat_dir : string) (dof : Q) (st : FSLtoNIDMExporter * option mapping)
  (analysis_dir : string) : res (FSLtoNIDMExporter * option mapping) :=
  let exc_sets := glob.glob fs (os.path.join analysis_dir "thresh_z*.nii.gz") in
  st' <- for_each (contrast_step (length exc_sets) mf_id stat_dir dof)
           exc_sets (fst st, []) ;;
  Ok (fst st', Some (snd st')).

(** Lines 163-287: the outer loop over [self.analysis_dirs]. *)
Definition contrasts_step (fs : FileSystem)
  (st : FSLtoNIDMExporter * option mapping) (analysis_dir : string)
  : res (FSLtoNIDMExporter * option mapping) :=
  let self := fst st in
  model_fitting <- getitem (model_fittings self) analysis_dir ;;
  let mf_id := activity_id model_fitting in
  let stat_dir := os.path.join analysis_dir "stats" in
  dof_txt <- open_read fs (os.path.join stat_dir "dof") ;;
  dof <- float_of_str dof_txt ;;
  for_each (contrasts_of_dir fs mf_id stat_dir dof) (analysis_dirs self) st.

(** The mapping that is returned and the exporter after the call:
    [contrasts] is a local variable of the function, assigned in the inner
    loop only. *)
Definition _find_contrasts (fs : FileSystem) (self : FSLtoNIDMExporter)
  : res (mapping * FSLtoNIDMExporter) :=
  st <- for_each (contrasts_step fs) (analysis_dirs self) (self, None) ;;
  contrasts <- local (snd st) ;;
  Ok (contrasts, fst st).

(** ** [_find_inferences] (lines 291-448) and the methods it calls *)

Record SearchSpace : Type := {
  search_space_file : string;
  vol_in_voxels : Z;
  vol_in_units : Q;
  vol_in_resels : Q;
  resel_size_in_voxels : Q;
  dlh : Q;
  random_field_stationarity : bool;
  noise_fwhm_in_voxels : option (list Q);
  noise_fwhm_in_units : option (list Q);
  ss_coord_space : option CoordinateSpace;
  ss_export_dir : string
}.

Record Inference : Type := {
  inference_act : InferenceActivity;
  height_thresh : HeightThreshold;
  extent_thresh : ExtentThreshold;
  peak_criteria : option PeakCriteria;
  clus_criteria : option ClusterCriteria;
  display_mask : option DisplayMaskMap;
  exc_set : ExcursionSet;
  clusters : option (list Cluster);
  search_space : SearchSpace;
  inf_software_id : ident
}.

(** [int(m.group(name))] and [float(m.group(name))] *)
Definition int_of_group (m : Match) (name : string) : res Z :=
  g <- group m name ;; s <- the_str g ;; int_of_str s.

Definition float_of_group (m : Match) (name : string) : res Q :=
  g <- group m name ;; s <- the_str g ;; float_of_str s.

(** Lines 731-751 *)
Definition _get_num_peaks (self : FSLtoNIDMExporter) : res (option Z) :=
  match feat_post_log self with
  | Some log =>
      match re.search (option_re "--num" "numpeak") log with
      | Some num_peak_found =>
          n <- int_of_group num_peak_found "numpeak" ;; Ok (Some n)
      | None =>
          match re.search (option_re "-n" "numpeak") log with
          | Some num_peak_found =>
              n <- int_of_group num_peak_found "numpeak" ;; Ok (Some n)
          | None => Ok None
          end
      end
  | None => Ok None
  end.

(** Lines 753-767 *)
Definition _get_peak_dist (self : FSLtoNIDMExporter) : res Q :=
  match feat_post_log self with
  | Some log =>
      match re.search (option_re "--peakdist" "peakdist") log with
      | Some peak_dist_found => float_of_group peak_dist_found "peakdist"
      | None => Ok 0%Q
      end
  | None => Ok 0%Q
  end.

(** Lines 769-783 *)
Definition _get_connectivity (self : FSLtoNIDMExporter) : res (option Z) :=
  match feat_post_log self with
  | Some log =>
      match re.search (option_re "--connectivity" "connectivity") log with
      | Some m => n <- int_of_group m "connectivity" ;; Ok (Some n)
      | None => Raise AttributeError
      end
  | None => Ok None
  end.

(** Lines 723-729 *)
Definition _get_display_mask (self : FSLtoNIDMExporter) : string :=
  os.path.join (feat_dir self) "mask.nii.gz".

(** Lines 329-333: the contrast number of a known contrast, from the name
    of the file of its contrast map. *)
Definition contrast_number (contrast : Contrast) : res string :=
  con_num <- found_group0 (re.search cope_re (cm_file (contrast_map contrast))) ;;
  Ok (replace (replace con_num "cope" EmptyString) ".nii.gz" EmptyString).

(** Lines 328-335: one contrast of [self.contrasts]. *)
Definition match_contrast (stat_num : string) (con_id : option ident)
  (contrast : Contrast) : res (option ident) :=
  con_num <- contrast_number contrast ;;
  if String.eqb con_num stat_num then Ok (Some (ce_id (estimation contrast)))
  else Ok con_id.

(** Lines 326-336: the contrast estimation activity of an excursion set. *)
Definition find_con_id (self : FSLtoNIDMExporter) (stat_num : string)
  : res ident :=
  con_id <- for_each
              (fun con_id contrasts =>
                 for_each (match_contrast stat_num) contrasts con_id)
              (values (contrasts self)) None ;;
  match con_id with
  | Some id => Ok id
  | None => Raise AssertionError
  end.

(** [float(self._search_in_fsf(re))] and [int(self._search_in_fsf(re))] *)
Definition float_in_fsf (self : FSLtoNIDMExporter) (r : regex) : res Q :=
  v <- _search_in_fsf self r false ;; s <- the_str v ;; float_of_str s.

Definition int_in_fsf (self : FSLtoNIDMExporter) (r : regex) : res Z :=
  v <- _search_in_fsf self r false ;; s <- the_str v ;; int_of_str s.

(** Lines 362-380: the thresholds, by the type of thresholding. *)
Definition thresholds (thresh_type : Z) (prob_thresh z_thresh : Q)
  : HeightThreshold * ExtentThreshold :=
  let voxel_uncorr := thresh_type =? 1 in
  let voxel_corr := thresh_type =? 2 in
  if voxel_uncorr
  then ({| stat_threshold := None; p_corr_threshold := None;
           p_uncorr_threshold := Some prob_thresh |},
        {| extent_p_corr := None |})
  else if voxel_corr
  then ({| stat_threshold := None; p_corr_threshold := Some prob_thresh;
           p_uncorr_threshold := None |},
        {| extent_p_corr := None |})
  else ({| stat_threshold := Some z_thresh; p_corr_threshold := None;
           p_uncorr_threshold := None |},
        {| extent_p_corr := Some prob_thresh |}).

Definition inferences_mapping : Type := list (ident * list Inference).

Section Inferences.
Variable fs : FileSystem.

(** [_get_search_space] (lines 785-869) reads [stats/smoothness] and,
    when the file lacks the smoothness in each direction, runs the
    program [smoothest] again; its outcome for an analysis directory is
    a parameter here. *)
Variable _get_search_space : string -> res SearchSpace.

(** Lines 387-401: the table of clusters and the criteria. *)
Definition clusters_and_criteria (self : FSLtoNIDMExporter)
  (thresh_type : Z) (stat_num : string)
  : res (option (list Cluster) * option PeakCriteria
         * option ClusterCriteria) :=
  let cluster_thresh := thresh_type =? 3 in
  if cluster_thresh then
    clusters <- _get_clusters_peaks fs self stat_num ;;
    num_peak <- _get_num_peaks self ;;
    peak_dist <- _get_peak_dist self ;;
    connectivity <- _get_connectivity self ;;
    Ok (Some clusters,
        Some {| pc_stat_num := stat_num; pc_num_peak := num_peak;
                pc_peak_dist := peak_dist |},
        Some {| cc_stat_num := stat_num; cc_connectivity := connectivity |})
  else Ok (None, None, None).

(** Lines 403-435: the display mask. *)
Definition find_display_mask (self : FSLtoNIDMExporter) (stat_num : string)
  : res (option DisplayMaskMap) :=
  match re.search conmask_re (design_txt self) with
  | None => Raise AssertionError
  | Some m =>
      g <- int_of_group m "con_maskg" ;;
      let contrast_masking := negb (g =? 0) in
      if contrast_masking
      then Ok (Some {| dm_stat_num := stat_num;
                       dm_file := _get_display_mask self;
                       dm_coord_space := coord_space self;
                       dm_export_dir := export_dir self |})
      else Ok None
  end.

(** Lines 306-444: the [Inference] of one excursion set and the
    identifier it is filed under. *)
Definition inference_of (self : FSLtoNIDMExporter) (analysis_dir : string)
  (n_exc_sets : nat) (filename : string) : res (ident * Inference) :=
  zstatnum <- found_group0 (re.search zstat_re filename) ;;
  let stat := stat_of zstatnum in
  stat_num_t <- (if (1 <? n_exc_sets)%nat
                 then ts <- local stat ;;
                      Ok (stat_suffix ts.1 ts.2)
                 else Ok EmptyString) ;;
  ts <- local stat ;;
  let '(stat_type, stat_num) := ts in
  con_id <- find_con_id self stat_num ;;
  contrast_name <-
    match contrast_names_by_num self !! stat_num with
    | Some name => Ok name
    | None => Raise KeyError
    end ;;
  let inference_act :=
    {| ia_stat_num := stat_num; ia_contrast_name := contrast_name |} in
  let visualisation :=
    os.path.join analysis_dir ("rendered_thresh_zstat" +:+ stat_num +:+ ".png") in
  let zFileImg :=
    os.path.join analysis_dir ("thresh_zstat" +:+ stat_num +:+ ".nii.gz") in
  let exc_set :=
    {| es_file := zFileImg; es_stat_num := stat_num_t;
       es_visualisation := visualisation;
       es_coord_space := coord_space self;
       es_export_dir := export_dir self |} in
  prob_thresh <- float_in_fsf self prob_re ;;
  z_thresh <- float_in_fsf self z_re ;;
  thresh_type <- int_in_fsf self type_re ;;
  let '(height_thresh, extent_thresh) :=
    thresholds thresh_type prob_thresh z_thresh in
  cc <- clusters_and_criteria self thresh_type stat_num ;;
  let '(clusters, peak_criteria, clus_criteria) := cc in
  display_mask <- find_display_mask self stat_num ;;
  search_space <- _get_search_space analysis_dir ;;
  Ok (con_id,
      {| inference_act := inference_act; height_thresh := height_thresh;
         extent_thresh := extent_thresh; peak_criteria := peak_criteria;
         clus_criteria := clus_criteria; display_mask := display_mask;
         exc_set := exc_set; clusters := clusters;
         search_space := search_space;
         inf_software_id := software_id self |}).

(** Line 446 *)
Definition inference_step (self : FSLtoNIDMExporter) (analysis_dir : string)
  (n_exc_sets : nat) (inferences : inferences_mapping) (filename : string)
  : res inferences_mapping :=
  r <- inference_of self analysis_dir n_exc_sets filename ;;
  Ok (setdefault_append r.1 r.2 inferences).

Definition inferences_of_dir (self : FSLtoNIDMExporter)
  (inferences : inferences_mapping) (analysis_dir : string)
  : res inferences_mapping :=
  let exc_sets := glob.glob fs (os.path.join analysis_dir "thresh_z*.nii.gz") in
  for_each (inference_step self analysis_dir (length exc_sets)) exc_sets
    inferences.

Definition _find_inferences (self : FSLtoNIDMExporter)
  : res inferences_mapping :=
  for_each (inferences_of_dir self) (analysis_dirs self) [].
End Inferences.

(** ** [_get_design_matrix] (lines 450-544) *)

Inductive hrf_model : Type :=
| NIDM_GAUSSIAN_HRF
| NIDM_GAMMA_HRF
| FSL_FSLS_GAMMA_DIFFERENCE_HRF
| NIDM_GAMMA_HRB
| NIDM_SINE_BASIS_SET
| NIDM_FINITE_IMPULSE_RESPONSE_HRB.

Inductive drift_kind : Type :=
| FSL_GAUSSIAN_RUNNING_LINE_DRIFT_MODEL.

Record DriftModel : Type := {
  drift_type : drift_kind;
  drift_cut_off : Q
}.

Record DesignMatrix : Type := {
  dm_values : table;
  dm_image : string;
  dm_matrix_export_dir : string;
  dm_regressors : list string;
  dm_design_type : option design_type;
  dm_hrf_model : option hrf_model;
  dm_drift_model : option DriftModel
}.

(** [r'.*set fmri\(evtitle\d+\).*'] *)
Definition regnames_re : regex :=
  seq [Star Dot; lit "set fmri(evtitle"; Plus digit; lit ")"; Star Dot].

(** The pattern of line 466: any characters, [set fmri\(evtitle], the group
    [num] of digits, [\)\s*] and, between double quotes, the group [name] of
    any characters. *)
Definition regname_re : regex :=
  seq [Star Dot; lit "set fmri(evtitle"; Group "num" (Plus digit); lit ")";
       Star (Chr [CSpace]); dq; Group "name" (Star Dot); dq].

(** The pattern of line 477: any characters, [set fmri\(custom], the group
    [num] of digits, [\)\s*], between double quotes the group [file] of any
    characters, and any characters. *)
Definition onsets_re : regex :=
  seq [Star Dot; lit "set fmri(custom"; Group "num" (Plus digit); lit ")";
       Star (Chr [CSpace]); dq; Group "file" (Star Dot); dq; Star Dot].

(** [r'set fmri\(convolve1\) (?P<hrf>\d)'] *)
Definition convolve_re : regex :=
  Seq (lit "set fmri(convolve1) ") (Group "hrf" digit).

(** [r'set fmri\(paradigm_hp\) (?P<cut_off>\d+)'] *)
Definition paradigm_hp_re : regex :=
  Seq (lit "set fmri(paradigm_hp) ") (Group "cut_off" (Plus digit)).

(** [r'.*set fmri\(deriv_yn' + str(ev_num) + '\) (?P<info>[\d]+).*'] *)
Definition tempo_deriv_re (ev_num : Z) : regex :=
  fmri_re ("deriv_yn" +:+ pretty ev_num) (Plus digit).

(** [d[key] = v] on a dict kept in order of insertion. *)
Fixpoint setitem {K V : Type} `{EqDecision K} (key : K) (v : V)
  (d : list (K * V)) : list (K * V) :=
  match d with
  | [] => [(key, v)]
  | (k, w) :: d' =>
      if decide (k = key) then (k, v) :: d' else (k, w) :: setitem key v d'
  end.

(** Lines 465-471: one declaration of a regressor title. *)
Definition ev_step (orig_ev : list (Z * string)) (ev_name : string)
  : res (list (Z * string)) :=
  let info_found := re.search regname_re ev_name in
  num <- found_group info_found "num" ;;
  name <- found_group info_found "name" ;;
  num <- the_str num ;; n <- int_of_str num ;;
  name <- the_str name ;;
  Ok (setitem n name orig_ev).

(** Lines 482-485: one onset file; the state is [max_duration] and
    [min_duration]. *)
Definition onset_step (fs : FileSystem) (st : Q * Q) (onset : Match)
  : res (Q * Q) :=
  let '(max_duration, min_duration) := st in
  file <- group onset "file" ;; file <- the_str file ;;
  aa <- np.loadtxt fs file ;;
  d <- column aa 2 ;; hi <- np.amax d ;;
  let max_duration := py_max max_duration hi in
  d <- column aa 2 ;; lo <- np.amin d ;;
  let min_duration := py_min min_duration lo in
  Ok (max_duration, min_duration).

(** Lines 487-492 *)
Definition classify_design (max_duration min_duration : Q) : design_type :=
  if Qle_bool max_duration 1 then NIDM_EVENT_RELATED_DESIGN
  else if negb (Qle_bool min_duration 1) then NIDM_BLOCK_BASED_DESIGN
  else NIDM_MIXED_DESIGN.

(** Lines 477-492: the design type of a first-level analysis. *)
Definition find_design_type (fs : FileSystem) (self : FSLtoNIDMExporter)
  : res design_type :=
  let onsets := re.finditer onsets_re (design_txt self) in
  st <- for_each (onset_step fs) onsets (0%Q, 36000%Q) ;;
  Ok (classify_design st.1 st.2).

(** Lines 494-510: the model of the haemodynamic response; the variable
    has no value for a code outside 1..6. *)
Definition find_hrf_model (self : FSLtoNIDMExporter)
  : res (option hrf_model) :=
  match re.search convolve_re (design_txt self) with
  | None => Raise AssertionError
  | Some m =>
      hrf <- int_of_group m "hrf" ;;
      Ok (if hrf =? 1 then Some NIDM_GAUSSIAN_HRF
          else if hrf =? 2 then Some NIDM_GAMMA_HRF
          else if hrf =? 3 then Some FSL_FSLS_GAMMA_DIFFERENCE_HRF
          else if hrf =? 4 then Some NIDM_GAMMA_HRB
          else if hrf =? 5 then Some NIDM_SINE_BASIS_SET
          else if hrf =? 6 then Some NIDM_FINITE_IMPULSE_RESPONSE_HRB
          else None)
  end.

(** Lines 512-519 *)
Definition find_drift_model (self : FSLtoNIDMExporter) : res DriftModel :=
  match re.search paradigm_hp_re (design_txt self) with
  | None => Raise AssertionError
  | Some m =>
      cut_off <- float_of_group m "cut_off" ;;
      Ok {| drift_type := FSL_GAUSSIAN_RUNNING_LINE_DRIFT_MODEL;
            drift_cut_off := cut_off |}
  end.

(** Lines 527-537: the names of the columns; [bool] of a string is true
    unless the string is empty, [bool(None)] is false. *)
Definition real_ev_step (self : FSLtoNIDMExporter) (real_ev : list string)
  (ev : Z * string) : res (list string) :=
  let '(ev_num, ev_name) := ev in
  let real_ev := real_ev ++ [ev_name] in
  v <- _search_in_fsf self (tempo_deriv_re ev_num) false ;;
  let tempo_deriv :=
    match v with
    | Some s => negb (String.eqb s EmptyString)
    | None => false
    end in
  if tempo_deriv then Ok (real_ev ++ [ev_name +:+ "*temporal_derivative"])
  else Ok real_ev.

Definition _get_design_matrix (fs : FileSystem) (self : FSLtoNIDMExporter)
  (analysis_dir : string) : res DesignMatrix :=
  let design_mat_file := os.path.join analysis_dir "design.mat" in
  design_mat_values <- np.loadtxt2 fs design_mat_file ;;
  let design_mat_image := os.path.join analysis_dir "design.png" in
  let ev_names := re.findall0 regnames_re (design_txt self) in
  orig_ev <- for_each ev_step ev_names [] ;;
  model <- (if first_level self then
              design_type <- find_design_type fs self ;;
              hrf_model <- find_hrf_model self ;;
              drift_model <- find_drift_model self ;;
              Ok (Some design_type, option_map Some hrf_model,
                  Some drift_model)
            else Ok (None, Some None, None)) ;;
  let '(design_type, hrf_model, drift_model) := model in
  real_ev <- for_each (real_ev_step self) orig_ev [] ;;
  hrf_model <- local hrf_model ;;
  Ok {| dm_values := design_mat_values; dm_image := design_mat_image;
        dm_matrix_export_dir := export_dir self; dm_regressors := real_ev;
        dm_design_type := design_type; dm_hrf_model := hrf_model;
        dm_drift_model := drift_model |}.

(** ** The statements of the specification, for the comparison with the
    code *)

(** "All onset durations <= 1 time unit => event-related; all durations > 1
    => block-based; mixture => mixed." *)
Definition design_type_spec (durations : list Q) : design_type :=
  if forallb (fun d => Qle_bool d 1) durations then NIDM_EVENT_RELATED_DESIGN
  else if forallb (fun d => negb (Qle_bool d 1)) durations
  then NIDM_BLOCK_BASED_DESIGN
  else NIDM_MIXED_DESIGN.

(** What the code takes for the durations of an onset file: its third
    column, [aa[:, 2]] (lines 483-485). *)
Definition onset_third_column (fs : FileSystem) (onset : Match)
  : res (list Q) :=
  file <- group onset "file" ;; file <- the_str file ;;
  aa <- np.loadtxt fs file ;;
  column aa 2.

Definition all_third_columns (fs : FileSystem) (self : FSLtoNIDMExporter)
  : res (list (list Q)) :=
  map_res (onset_third_column fs) (re.finditer onsets_re (design_txt self)).

(** The durations of the events of an onset file: FSL's custom files of three
    columns give for each event its onset, its duration and its weight, so
    that the durations are the second column. *)
Definition onset_durations (fs : FileSystem) (onset : Match) : res (list Q) :=
  file <- group onset "file" ;; file <- the_str file ;;
  aa <- np.loadtxt fs file ;;
  column aa 1.

(** The durations of all the onset files that the design text names. *)
Definition all_onset_durations (fs : FileSystem) (self : FSLtoNIDMExporter)
  : res (list (list Q)) :=
  map_res (onset_durations fs) (re.finditer onsets_re (design_txt self)).

(** "Only positions whose weight equals exactly 1 are treated as used": the
    identifiers of the parameter estimate maps whose number is the position,
    counted from [pe_index], of a weight 1. *)
Fixpoint pe_ids_spec (pe_index : Z) (weights : list Z)
  (pes : list ParameterEstimateMap) : list ident :=
  match weights with
  | [] => []
  | w :: weights' =>
      (if w =? 1
       then map pe_id
              (List.filter
                 (fun pe => match int_of_str (pe_num pe) with
                            | Ok n => n =? pe_index
                            | Raise _ => false
                            end) pes)
       else [])
      ++ pe_ids_spec (pe_index + 1) weights' pes
  end.

(** The attributes of [self] that the parsing of a contrast leaves as they
    are. *)
Definition same_inputs (a b : FSLtoNIDMExporter) : Prop :=
  analysis_dirs a = analysis_dirs b /\ model_fittings a = model_fittings b.

(** Every known contrast has a contrast number, and none has the number
    [stat_num]. *)
Definition no_contrast_numbered (self : FSLtoNIDMExporter)
  (stat_num : string) : bool :=
  forallb
    (forallb (fun contrast =>
                match contrast_number contrast with
                | Ok n => negb (String.eqb n stat_num)
                | Raise _ => false
                end))
    (values (contrasts self)).

(** No row of the table, if there is one, is of cluster [c]. *)
Definition no_row_of_cluster (rows : res table) (c : Z) : bool :=
  match rows with
  | Ok rows =>
      forallb (fun row =>
                 match row_cluster_id row with
                 | Ok c' => negb (c' =? c)
                 | Raise _ => true
                 end) rows
  | Raise _ => true
  end.

(** The thresholds and the tables of an [Inference] follow the threshold
    type [code]: one of the three thresholds has a value, the probability
    [prob] for the codes 1 and 2 and the statistic [z] for the code 3; the
    extent threshold, the clusters and the criteria are there for the code 3
    only. *)
Definition one_hot (code : Z) (prob z : Q) (inf : Inference) : Prop :=
  (code = 1 ->
   height_thresh inf = {| stat_threshold := None; p_corr_threshold := None;
                          p_uncorr_threshold := Some prob |}
   /\ extent_thresh inf = {| extent_p_corr := None |}
   /\ clusters inf = None /\ peak_criteria inf = None
   /\ clus_criteria inf = None)
  /\ (code = 2 ->
      height_thresh inf = {| stat_threshold := None;
                             p_corr_threshold := Some prob;
                             p_uncorr_threshold := None |}
      /\ extent_thresh inf = {| extent_p_corr := None |}
      /\ clusters inf = None /\ peak_criteria inf = None
      /\ clus_criteria inf = None)
  /\ (code = 3 ->
      height_thresh inf = {| stat_threshold := Some z;
                             p_corr_threshold := None;
                             p_uncorr_threshold := None |}
      /\ extent_thresh inf = {| extent_p_corr := Some prob |}
      /\ is_Some (clusters inf) /\ is_Some (peak_criteria inf)
      /\ is_Some (clus_criteria inf)).

(** ** Sample result directories *)

(** A file system given by its listings, its text files and its tables. *)
Definition fs_of (globs : list (string * list string))
  (texts : list (string * string)) (tabs : list (string * table))
  : FileSystem :=
  {| fs_glob := fun pattern => default [] (assoc pattern globs);
     fs_isfile := fun path =>
       match assoc path texts, assoc path tabs with
       | None, None => false
       | _, _ => true
       end;
     fs_read := fun path =>
       match assoc path texts with
       | Some s => Ok s
       | None => Raise IOError
       end;
     fs_table := fun path =>
       match assoc path tabs with
       | Some t => Ok t
       | None => Raise IOError
       end |}.

Definition exporter_of (dir : string) (txt : string) (log : option string)
  (level1 : bool) (dirs : list string) : FSLtoNIDMExporter :=
  {| feat_dir := dir; export_dir := os.path.join dir "nidm";
     design_txt := txt; feat_post_log := log; first_level := level1;
     analysis_dirs := dirs; coord_space := None;
     contrast_names_by_num := ∅; model_fittings := []; contrasts := [];
     software_id := 0%nat; next_id := 1%nat |}.

Definition row_of (zs : list Z) : list Q := map inject_Z zs.

(** A table of local maxima in voxels (cluster index, Z, x, y, z) with the
    cluster ids 1, 1, 2, 2, 2. *)
Definition lmax_11222 : table :=
  [row_of [1; 5; 30; 40; 20]; row_of [1; 4; 32; 41; 22];
   row_of [2; 6; 10; 12; 14]; row_of [2; 5; 11; 13; 15];
   row_of [2; 3; 12; 14; 16]].

(** A row of a cluster table: index, voxels, P, -log10(P), Z-MAX and its
    position, then the centre of gravity in columns 8 to 10. *)
Definition cluster_row_of (id voxels : Z) : list Q :=
  row_of [id; voxels; 0; 3; 5; 30; 40; 20; 31; 41; 21].

(** A second-level analysis with two contrast directories; the peak table
    of the second one starts with a row of cluster -1. *)
Definition fs_two_dirs : FileSystem :=
  fs_of [] []
    [("g.gfeat/cope1.feat/lmax_zstat1.txt", [row_of [1; 5; 30; 40; 20]]);
     ("g.gfeat/cope1.feat/cluster_zstat1.txt", [cluster_row_of 1 50]);
     ("g.gfeat/cope2.feat/lmax_zstat1.txt", [row_of [-1; 4; 10; 12; 14]]);
     ("g.gfeat/cope2.feat/cluster_zstat1.txt", [cluster_row_of (-1) 20])].

Definition self_two_dirs : FSLtoNIDMExporter :=
  exporter_of "g.gfeat" EmptyString None false
    ["g.gfeat/cope1.feat"; "g.gfeat/cope2.feat"].


(** A first-level analysis whose cluster table lists a cluster 3 that the
    peak table does not have. *)
Definition fs_no_peaks : FileSystem :=
  fs_of [] []
    [("run.feat/lmax_zstat1.txt", lmax_11222);
     ("run.feat/cluster_zstat1.txt",
      [cluster_row_of 3 80; cluster_row_of 2 50; cluster_row_of 1 20])].

Definition self_run : FSLtoNIDMExporter :=
  exporter_of "run.feat" EmptyString None true ["run.feat"].

(** A design file: the lines of [design.fsf] that the parser reads, for a
    first-level analysis with one regressor and the contrast 1 of weights
    1, -1, 2, 0; [thresh] is the code of the thresholding. *)
Definition nl : string := str1 newline.
Definition quoted (s : string) : string := String dquote s +:+ str1 dquote.
Definition text_of (lines : list string) : string := str_join nl lines +:+ nl.

Definition design_fsf (thresh : string) : string :=
  text_of
    ["set fmri(level) 1";
     "set fmri(thresh) " +:+ thresh;
     "set fmri(prob_thresh) 0.05";
     "set fmri(z_thresh) 2.3";
     "set fmri(conmask1_1) 0";
     "set fmri(evtitle1) " +:+ quoted "faces";
     "set fmri(custom1) " +:+ quoted "run.feat/custom_timing_files/ev1.txt";
     "set fmri(deriv_yn1) 1";
     "set fmri(convolve1) 3";
     "set fmri(paradigm_hp) 100";
     "set fmri(conname_real.1) " +:+ quoted "faces > rest";
     "set fmri(con_real1.1) 1";
     "set fmri(con_real1.2) -1";
     "set fmri(con_real1.3) 2";
     "set fmri(con_real1.4) 0"].

Definition pe_map (dir : string) (n : nat) (id : ident)
  : ParameterEstimateMap :=
  {| pe_file := os.path.join dir ("pe" +:+ pretty n +:+ ".nii.gz");
     pe_num := pretty n; pe_coord_space := None; pe_id := id |}.

(** The model fitting of a directory with four parameter estimates, its
    identifiers counted from [id]. *)
Definition fitting_of (dir : string) (id : ident) : string * ModelFitting :=
  (dir,
   {| activity_id := id;
      param_estimates :=
        [pe_map (os.path.join dir "stats") 1 (id + 1)%nat;
         pe_map (os.path.join dir "stats") 2 (id + 2)%nat;
         pe_map (os.path.join dir "stats") 3 (id + 3)%nat;
         pe_map (os.path.join dir "stats") 4 (id + 4)%nat] |}).

(** The first-level analysis [run.feat], after the model fitting step. *)
Definition self_level1 (thresh : string) : FSLtoNIDMExporter :=
  {| feat_dir := "run.feat"; export_dir := "run.feat/nidm";
     design_txt := design_fsf thresh; feat_post_log := None;
     first_level := true; analysis_dirs := ["run.feat"];
     coord_space := None; contrast_names_by_num := ∅;
     model_fittings := [fitting_of "run.feat" 100%nat];
     contrasts := []; software_id := 0%nat; next_id := 1%nat |}.

(** The onset file of the regressor, in FSL's format of three columns: the
    onset of the event, here every ten seconds, its duration and its
    weight, here 1. *)
Definition onsets_of (durations : list Q) : table :=
  imap (fun i d => [inject_Z (10 * Z.of_nat i); d; 1%Q]) durations.

Definition fs_level1 (durations : list Q) : FileSystem :=
  fs_of [("run.feat/thresh_z*.nii.gz", ["run.feat/thresh_zstat1.nii.gz"])]
    [("run.feat/stats/dof", "95" +:+ nl)]
    [("run.feat/lmax_zstat1.txt", lmax_11222);
     ("run.feat/cluster_zstat1.txt",
      [cluster_row_of 2 50; cluster_row_of 1 20]);
     ("run.feat/design.mat", [row_of [1; 0]; row_of [0; 1]]);
     ("run.feat/custom_timing_files/ev1.txt", onsets_of durations)].

(** The directory [run.feat] with three events of durations 0.5, 0.8 and
    1.0. *)
Definition fs_run : FileSystem := fs_level1 [1 # 2; 4 # 5; 1 # 1].

(** A second-level analysis with two contrast directories, each with the
    excursion set of its statistic 1. *)
Definition self_level2 : FSLtoNIDMExporter :=
  {| feat_dir := "g.gfeat"; export_dir := "g.gfeat/nidm";
     design_txt := design_fsf "3"; feat_post_log := None;
     first_level := false;
     analysis_dirs := ["g.gfeat/cope1.feat"; "g.gfeat/cope2.feat"];
     coord_space := None; contrast_names_by_num := ∅;
     model_fittings :=
       [fitting_of "g.gfeat/cope1.feat" 100%nat;
        fitting_of "g.gfeat/cope2.feat" 200%nat];
     contrasts := []; software_id := 0%nat; next_id := 1%nat |}.

Definition fs_level2 : FileSystem :=
  fs_of
    [("g.gfeat/cope1.feat/thresh_z*.nii.gz",
      ["g.gfeat/cope1.feat/thresh_zstat1.nii.gz"]);
     ("g.gfeat/cope2.feat/thresh_z*.nii.gz",
      ["g.gfeat/cope2.feat/thresh_zstat1.nii.gz"])]
    [("g.gfeat/cope1.feat/stats/dof", "11" +:+ nl);
     ("g.gfeat/cope2.feat/stats/dof", "11" +:+ nl)]
    [].

(** An outcome of [_get_search_space]. *)
Definition some_search_space (analysis_dir : string) : res SearchSpace :=
  Ok {| search_space_file := os.path.join analysis_dir "mask.nii.gz";
        vol_in_voxels := 1000; vol_in_units := 8000; vol_in_resels := 10;
        resel_size_in_voxels := 100; dlh := 1 # 10;
        random_field_stationarity := true;
        noise_fwhm_in_voxels := None; noise_fwhm_in_units := None;
        ss_coord_space := None; ss_export_dir := "run.feat/nidm" |}.

(** The two parsing steps one after the other, as the base class of the
    exporter runs them. *)
Definition find_contrasts_then_inferences (fs : FileSystem)
  (self : FSLtoNIDMExporter) : res inferences_mapping :=
  r <- _find_contrasts fs self ;;
  _find_inferences fs some_search_space (set_contrasts r.2 r.1).

(** What the specification says of an [Inference]: its thresholds, whether its
    table of clusters is there and whether its criteria are. *)
Definition summary (inf : Inference)
  : HeightThreshold * ExtentThreshold * bool * bool * bool :=
  (height_thresh inf, extent_thresh inf,
   bool_decide (is_Some (clusters inf)),
   bool_decide (is_Some (peak_criteria inf)),
   bool_decide (is_Some (clus_criteria inf))).

Definition summaries (fs : FileSystem) (self : FSLtoNIDMExporter)
  : res (list (HeightThreshold * ExtentThreshold * bool * bool * bool)) :=
  r <- find_contrasts_then_inferences fs self ;;
  Ok (map summary (List.concat (values r))).

(** The exporter after [self.contrasts = self._find_contrasts()]. *)
Definition after_contrasts (fs : FileSystem) (self : FSLtoNIDMExporter)
  : FSLtoNIDMExporter :=
  match _find_contrasts fs self with
  | Ok r => set_contrasts r.2 r.1
  | Raise _ => self
  end.

(** The analysis [run.feat] ready for the inferences, with the threshold
    type [thresh]. *)
Definition self_ready (thresh : string) : FSLtoNIDMExporter :=
  after_contrasts fs_run (self_level1 thresh).

(** The directory [run.feat] with the excursion set of a statistic 2, of
    which the design file and the known contrasts say nothing. *)
Definition fs_zstat2 : FileSystem :=
  fs_of [("run.feat/thresh_z*.nii.gz", ["run.feat/thresh_zstat2.nii.gz"])]
    [] [].

(** ** [_get_coordinate_system] (lines 669-708)

    The variable [custom_space] holds in turn the result of a lookup, a
    string or [None], and a boolean; the comparisons [is not None] and
    [== "1"] are made on whatever it holds. *)

Inductive pyobj : Type :=
| ObjNone
| ObjStr (s : string)
| ObjBool (b : bool).

Definition obj_of (v : option string) : pyobj :=
  match v with Some s => ObjStr s | None => ObjNone end.

(** [a == b]: values of different types are not equal (a [bool] is equal
    to no [str]). *)
Definition obj_eq (a b : pyobj) : bool :=
  match a, b with
  | ObjNone, ObjNone => true
  | ObjStr s, ObjStr t => String.eqb s t
  | ObjBool x, ObjBool y => Bool.eqb x y
  | _, _ => false
  end.

(** [a is not None] *)
Definition is_not_None (a : pyobj) : bool :=
  match a with ObjNone => false | _ => true end.

(** [bool(v)] for the result of a lookup: false on [None] and on the empty
    string. *)
Definition truth (v : option string) : bool :=
  match v with
  | Some s => negb (String.eqb s EmptyString)
  | None => false
  end.

(** [r'.*set fmri\(regstandard_yn\) (?P<info>[\d]+).*'] *)
Definition space_re : regex := fmri_re "regstandard_yn" (Plus digit).

(** [r'.*set fmri\(regstandard\) (?P<info>.+).*'] *)
Definition regstandard_re : regex := fmri_re "regstandard" (Plus Dot).

(** Lines 678-696: [custom_standard], which has no value when the last
    lookup gives [None]. *)
Definition find_custom_standard (self : FSLtoNIDMExporter)
  (standard_space : bool) : res (option bool) :=
  if standard_space then
    custom_space <- _search_in_fsf self custom_re true ;;
    let custom_space := obj_of custom_space in
    let custom_space :=
      if is_not_None custom_space
      then ObjBool (obj_eq custom_space (ObjStr "1"))
      else ObjBool false in
    if is_not_None custom_space
    then Ok (Some (obj_eq custom_space (ObjStr "1")))
    else
      custom_space <- _search_in_fsf self regstandard_re false ;;
      let custom_space := obj_of custom_space in
      Ok (if is_not_None custom_space then Some true else None)
  else Ok (Some false).

Definition _get_coordinate_system (self : FSLtoNIDMExporter)
  : res coordinate_system :=
  v <- _search_in_fsf self space_re false ;;
  let standard_space := truth v in
  custom_standard <- find_custom_standard self standard_space ;;
  if negb standard_space || first_level self
  then Ok NIDM_SUBJECT_COORDINATE_SYSTEM
  else
    custom_standard <- local custom_standard ;;
    if negb custom_standard
    then Ok NIDM_ICBM_MNI152_NON_LINEAR6TH_GENERATION_COORDINATE_SYSTEM
    else Ok NIDM_STANDARDIZED_COORDINATE_SYSTEM.

(** ** [_get_param_estimate_maps] (lines 620-639) *)

(** [s.endswith(p)] *)
Definition endswith (s p : string) : bool :=
  String.eqb (str_drop (String.length s - String.length p) s) p.

(** The test of lines 628-629 on a name of the listing. *)
Definition is_pe_file (filename : string) : bool :=
  startswith filename "pe" && endswith filename ".nii.gz".

(** Lines 628-638: one name of the listing. *)
Definition param_estimate_step (stat_dir : string)
  (st : FSLtoNIDMExporter * list ParameterEstimateMap) (filename : string)
  : res (FSLtoNIDMExporter * list ParameterEstimateMap) :=
  let '(self, param_estimates) := st in
  if startswith filename "pe" then
    if endswith filename ".nii.gz" then
      penum <- found_group0 (re.search pe_re filename) ;;
      let penum := replace penum "pe" EmptyString in
      let full_path_file := os.path.join stat_dir filename in
      let '(id, self) := fresh_id self in
      let param_estimate :=
        {| pe_file := full_path_file; pe_num := penum;
           pe_coord_space := coord_space self; pe_id := id |} in
      Ok (self, param_estimates ++ [param_estimate])
    else Ok st
  else Ok st.

(** [listdir] is [os.listdir]: the names in a directory, or an error when
    the directory cannot be read. *)
Definition _get_param_estimate_maps (listdir : string -> res (list string))
  (self : FSLtoNIDMExporter) (stat_dir : string)
  : res (list ParameterEstimateMap * FSLtoNIDMExporter) :=
  filenames <- listdir stat_dir ;;
  st <- for_each (param_estimate_step stat_dir) filenames (self, []) ;;
  Ok (snd st, fst st).

(** ** Notions for the properties of the parser *)

(** A pattern that can match the empty string. *)
Fixpoint nullable (r : regex) : bool :=
  match r with
  | Eps | Star _ => true
  | Chr _ | Dot => false
  | Seq r1 r2 => nullable r1 && nullable r2
  | Alt r1 r2 => nullable r1 || nullable r2
  | Group _ r' => nullable r'
  end.

(** Every group of the pattern takes at least one character. *)
Fixpoint groups_consume (r : regex) : bool :=
  match r with
  | Eps | Chr _ | Dot => true
  | Seq r1 r2 | Alt r1 r2 => groups_consume r1 && groups_consume r2
  | Star r' => groups_consume r'
  | Group _ r' => negb (nullable r') && groups_consume r'
  end.

(** The group [name] takes part in every match of the pattern. *)
Fixpoint must_capture (name : string) (r : regex) : bool :=
  match r with
  | Eps | Chr _ | Dot | Star _ => false
  | Seq r1 r2 => must_capture name r1 || must_capture name r2
  | Alt r1 r2 => must_capture name r1 && must_capture name r2
  | Group n r' => String.eqb n name || must_capture name r'
  end.

(** No capture is the empty string. *)
Definition caps_nonempty (c : captures) : Prop :=
  Forall (fun nv => nv.2 <> EmptyString) c.

(** What a match of a part of a pattern does to the text left and to the
    captures, whatever the part. *)
Definition rx_base (s : string) (c : captures) (s' : string) (c' : captures)
  : Prop :=
  (String.length s' <= String.length s)%nat
  /\ (caps_nonempty c -> caps_nonempty c')
  /\ (forall name, is_Some (capture_of name c) ->
                   is_Some (capture_of name c')).

(** The same for a match of the pattern [r]. *)
Definition rx_inv (r : regex) (s : string) (c : captures) (s' : string)
  (c' : captures) : Prop :=
  rx_base s c s' c'
  /\ (nullable r = false -> (String.length s' < String.length s)%nat)
  /\ (forall name, must_capture name r = true ->
                   is_Some (capture_of name c')).

(** The rows of the cluster table that [_get_clusters_peaks] goes through
    in an analysis directory. *)
Definition cluster_rows_of (fs : FileSystem) (stat_num : string)
  (analysis_dir : string) : res table :=
  t <- read_tables fs analysis_dir stat_num ;;
  cluster_rows (cluster_table t) (cluster_std_table t).

(** The names of the four tables of an analysis directory. *)
Definition table_files (analysis_dir stat_num : string) : list string :=
  [os.path.join analysis_dir ("cluster_zstat" +:+ stat_num +:+ ".txt");
   os.path.join analysis_dir ("cluster_zstat" +:+ stat_num +:+ "_std.txt");
   os.path.join analysis_dir ("lmax_zstat" +:+ stat_num +:+ ".txt");
   os.path.join analysis_dir ("lmax_zstat" +:+ stat_num +:+ "_std.txt")].

(** The excursion sets of an analysis directory (lines 176 and 301). *)
Definition exc_sets_of (fs : FileSystem) (analysis_dir : string)
  : list string :=
  glob.glob fs (os.path.join analysis_dir "thresh_z*.nii.gz").

(** The contrasts of a mapping, in the order of the two loops of lines
    327-328. *)
Definition all_contrasts (m : list (contrast_key * list Contrast))
  : list Contrast :=
  List.concat (values m).

(** The inferences of a mapping. *)
Definition all_inferences (m : inferences_mapping) : list Inference :=
  List.concat (values m).

(** A regressor and the one of its temporal derivative. *)
Definition with_derivative (ev_name : string) : list string :=
  [ev_name; ev_name +:+ "*temporal_derivative"].

(** ** More sample directories *)

(** A design file like [design_fsf "3"] with the switch of the temporal
    derivative, the code of the convolution and the lines of the
    registration to a standard space given. *)
Definition design_of (deriv convolve : string) (registration : list string)
  : string :=
  text_of
    (["set fmri(level) 1";
      "set fmri(thresh) 3";
      "set fmri(prob_thresh) 0.05";
      "set fmri(z_thresh) 2.3";
      "set fmri(conmask1_1) 0";
      "set fmri(evtitle1) " +:+ quoted "faces";
      "set fmri(custom1) " +:+ quoted "run.feat/custom_timing_files/ev1.txt";
      "set fmri(deriv_yn1) " +:+ deriv;
      "set fmri(convolve1) " +:+ convolve;
      "set fmri(paradigm_hp) 100";
      "set fmri(conname_real.1) " +:+ quoted "faces > rest";
      "set fmri(con_real1.1) 1"] ++ registration).

(** An exporter with another design text and another log of the
    post-processing. *)
Definition with_texts (self : FSLtoNIDMExporter) (txt : string)
  (log : option string) : FSLtoNIDMExporter :=
  {| feat_dir := feat_dir self; export_dir := export_dir self;
     design_txt := txt; feat_post_log := log;
     first_level := first_level self; analysis_dirs := analysis_dirs self;
     coord_space := coord_space self;
     contrast_names_by_num := contrast_names_by_num self;
     model_fittings := model_fittings self; contrasts := contrasts self;
     software_id := software_id self; next_id := next_id self |}.

(** The listing of a [stats] directory. *)
Definition listing_of (names : list string) (dir : string)
  : res (list string) :=
  if String.eqb dir "run.feat/stats" then Ok names else Raise IOError.

(** The directory [run.feat] with the excursion set of an F statistic. *)
Definition fs_zfstat1 : FileSystem :=
  fs_of [("run.feat/thresh_z*.nii.gz", ["run.feat/thresh_zfstat1.nii.gz"])]
    [] [].

(** A log of the post-processing that gives the number of peaks and their
    distance but not the connectivity. *)
Definition log_without_connectivity : string :=
  "/usr/local/fsl/bin/cluster -i thresh_zstat1 -t 2.3 --num=6 --peakdist=8 -o cluster_mask_zstat1 "
  +:+ nl.

(** The directory [run.feat] with the peak table in voxels of two rows and
    the one in mm of one row. *)
Definition fs_uneven : FileSystem :=
  fs_of [] []
    [("run.feat/lmax_zstat1.txt",
      [row_of [1; 5; 30; 40; 20]; row_of [1; 4; 32; 41; 22]]);
     ("run.feat/lmax_zstat1_std.txt", [row_of [1; 5; 30; 40; 20]]);
     ("run.feat/cluster_zstat1.txt", [cluster_row_of 1 50])].

(** Two contrast maps of the same number, under different keys. *)
Definition contrast_of (file : string) (id : ident) : Contrast :=
  let no_map :=
    {| sm_file := EmptyString; sm_stat_type := "T";
       sm_stat_num := EmptyString; sm_contrast_name := None; sm_dof := 0;
       sm_coord_space := None; sm_export_dir := EmptyString |} in
  {| con_num := "1"; con_name := None;
     con_weights := {| cw_stat_num := EmptyString; cw_contrast_name := None;
                       cw_contrast_weights := "[1]"; cw_stat_type := "T" |};
     estimation := {| ce_num := "1"; ce_name := None; ce_id := id |};
     contrast_map := {| cm_file := file; cm_stat_num := EmptyString;
                        cm_contrast_name := None; cm_coord_space := None;
                        cm_export_dir := EmptyString |};
     std_err_map := {| se_stat_num := EmptyString; se_file := EmptyString;
                       se_is_variance := true; se_coord_space := None;
                       se_var_coord_space := None;
                       se_export_dir := EmptyString |};
     stat_map := no_map; z_stat_map := no_map |}.

Definition self_two_copes : FSLtoNIDMExporter :=
  set_contrasts self_run
    [((100%nat, []), [contrast_of "a/stats/cope1.nii.gz" 7%nat;
                      contrast_of "a/stats/cope2.nii.gz" 8%nat]);
     ((200%nat, []), [contrast_of "b/stats/cope1.nii.gz" 9%nat])].



(** The directory [run.feat] with the excursion sets of two statistics, and
    its design file with the two contrasts. *)
Definition fs_two_sets : FileSystem :=
  fs_of [("run.feat/thresh_z*.nii.gz",
          ["run.feat/thresh_zstat1.nii.gz"; "run.feat/thresh_zstat2.nii.gz"])]
    [("run.feat/stats/dof", "95" +:+ nl)]
    [("run.feat/lmax_zstat1.txt", lmax_11222);
     ("run.feat/cluster_zstat1.txt",
      [cluster_row_of 2 50; cluster_row_of 1 20])].

Definition self_two_sets : FSLtoNIDMExporter :=
  with_texts (self_level1 "3")
    (design_of "1" "3"
       ["set fmri(conname_real.2) " +:+ quoted "houses > rest";
        "set fmri(con_real2.1) 0"])
    None.

(** ** What the two parsing steps make of an excursion set *)

(** The [Contrast] of the excursion set [filename]: its number and the type
    of its statistic are those read in the name of the file, and its maps
    are the files of this number in [stat_dir]. *)
Definition contrast_of_file (stat_dir filename : string) (con : Contrast)
  : Prop :=
  exists zstatnum stat_type,
    found_group0 (re.search zstat_re filename) = Ok zstatnum
    /\ stat_of zstatnum = Some (stat_type, con_num con)
    /\ ce_num (estimation con) = con_num con
    /\ cm_file (contrast_map con)
       = os.path.join stat_dir ("cope" +:+ con_num con +:+ ".nii.gz")
    /\ se_file (std_err_map con)
       = os.path.join stat_dir ("varcope" +:+ con_num con +:+ ".nii.gz")
    /\ sm_stat_type (stat_map con) = stat_type
    /\ sm_file (stat_map con)
       = os.path.join stat_dir
           (lower stat_type +:+ "stat" +:+ con_num con +:+ ".nii.gz")
    /\ sm_file (z_stat_map con)
       = os.path.join stat_dir ("zstat" +:+ con_num con +:+ ".nii.gz").

(** The excursion sets that [_find_inferences] goes through, each with its
    analysis directory, in the order of the two loops. *)
Definition listed_excursion_sets (fs : FileSystem) (self : FSLtoNIDMExporter)
  : list (string * string) :=
  List.concat
    (map (fun analysis_dir => map (pair analysis_dir)
                                (exc_sets_of fs analysis_dir))
       (analysis_dirs self)).

(** The [Inference] of the excursion set [df.2] of the directory [df.1],
    with the identifier it is filed under: the one that the body of the
    loop returns for this file; the number of its statistic is the one read
    in the name of the file. *)
Definition inference_of_file (fs : FileSystem)
  (search_space_of : string -> res SearchSpace) (self : FSLtoNIDMExporter)
  (df : string * string) (r : ident * Inference) : Prop :=
  inference_of fs search_space_of self df.1 (length (exc_sets_of fs df.1))
    df.2 = Ok r
  /\ exists zstatnum stat_type,
      found_group0 (re.search zstat_re df.2) = Ok zstatnum
      /\ stat_of zstatnum
         = Some (stat_type, ia_stat_num (inference_act r.2))
      /\ es_file (exc_set r.2)
         = os.path.join df.1
             ("thresh_zstat" +:+ ia_stat_num (inference_act r.2)
              +:+ ".nii.gz").

(** The dict that [d.setdefault(key, list()).append(v)] builds from the
    pairs of a key and a value, taken in order. *)
Definition group_by_key {K V : Type} `{EqDecision K} (rs : list (K * V))
  : list (K * list V) :=
  fold_left (fun d r => setdefault_append r.1 r.2 d) rs [].

(** * Properties *)

(** ** Results and loops *)

Lemma bind_Ok {A B : Type} (m : res A) (k : A -> res B) (b : B) :
  bind m k = Ok b -> exists a, m = Ok a /\ k a = Ok b.
Proof. destruct m as [a|e]; simpl; [eauto | discriminate]. Qed.

Lemma for_each_Ok_cons {A S : Type} (body : S -> A -> res S) x xs st st' :
  body st x = Ok st' -> for_each body (x :: xs) st = for_each body xs st'.
Proof. intros H. simpl. rewrite H. reflexivity. Qed.

Lemma is_ok_Ok {A : Type} (m : res A) : is_ok m = true -> exists a, m = Ok a.
Proof. destruct m as [a|e]; [eauto | discriminate]. Qed.

Lemma map_res_Forall2 {A B : Type} (f : A -> res B) (xs : list A) :
  forall ys, map_res f xs = Ok ys -> Forall2 (fun x y => f x = Ok y) xs ys.
Proof.
  induction xs as [|x xs IH]; intros ys; simpl.
  - intros [= <-]. constructor.
  - intros H. apply bind_Ok in H as (y & Hy & H).
    apply bind_Ok in H as (ys' & Hys & [= <-]). constructor; auto.
Qed.

(** A loop whose body raises at one of the elements, whatever the state it
    is run in, raises. *)
Lemma for_each_raises {A S : Type} (body : S -> A -> res S) (xs : list A) x :
  x ∈ xs -> (forall st, exists e, body st x = Raise e) ->
  forall st, exists e, for_each body xs st = Raise e.
Proof.
  intros Hin Hx. induction xs as [|y ys IH]; intros st.
  - inversion Hin.
  - simpl. apply elem_of_cons in Hin as [->|Hin].
    + destruct (Hx st) as [e He]. rewrite He. simpl. eauto.
    + destruct (body st y) as [st'|e]; simpl; eauto.
Qed.

(** An invariant of the loop state holds of the final state. *)
Lemma for_each_invariant {A S : Type} (body : S -> A -> res S) (P : S -> Prop)
  (xs : list A) :
  (forall st x st', x ∈ xs -> P st -> body st x = Ok st' -> P st') ->
  forall st st', P st -> for_each body xs st = Ok st' -> P st'.
Proof.
  induction xs as [|y ys IH]; intros Hstep st st' HP Hrun; simpl in Hrun.
  - congruence.
  - apply bind_Ok in Hrun as (st1 & H1 & H2).
    apply (IH (fun s x s' Hx => Hstep s x s' (list_elem_of_further _ _ _ Hx)) st1);
      [|assumption].
    eapply Hstep; [apply list_elem_of_here | exact HP | exact H1].
Qed.

(** ** The peak loop of [_get_clusters_peaks] *)

Lemma item_Ok (row : list Q) (i : nat) :
  (i < length row)%nat -> exists q, item row i = Ok q.
Proof.
  intros H. unfold item. destruct (nth_error row i) eqn:E; [eauto|].
  apply nth_error_None in E. lia.
Qed.

Ltac item_ok i Hw :=
  let q := fresh "q" in let E := fresh "E" in
  match goal with
  | |- context [item ?row i] =>
      destruct (item_Ok row i) as [q E]; [simpl in Hw |- *; lia|];
      rewrite E; cbn [bind]
  end.

(** On a row with the columns it reads, a call of [Peak] goes through and
    records the index and the cluster it is given. *)
Lemma peak_of_Ok stat_num pt pst (i : Z) (row : list Q) (c : Z) :
  (peak_width pt pst <= length row)%nat ->
  exists p, peak_of stat_num pt pst (Some i) row c = Ok p
            /\ peak_index p = i /\ cluster_index p = c.
Proof.
  intros Hw.
  destruct pt, pst; simpl in Hw;
    unfold peak_of, peak_joined, peak_voxel, peak_std; cbn [local bind];
    repeat (first [item_ok 1%nat Hw | item_ok 2%nat Hw | item_ok 3%nat Hw
                  | item_ok 4%nat Hw | item_ok 7%nat Hw | item_ok 8%nat Hw
                  | item_ok 9%nat Hw]);
    eexists; split; try reflexivity; split; reflexivity.
Qed.


Lemma item_cases (row : list Q) (i : nat) :
  (exists q, item row i = Ok q) \/ item row i = Raise IndexError.
Proof. unfold item. destruct (nth_error row i); eauto. Qed.


Lemma indexes_of_cons c c0 i ids idxs :
  indexes_of c (c0 :: ids) (i :: idxs)
  = (if decide (c0 = c) then [i] else []) ++ indexes_of c ids idxs.
Proof.
  unfold indexes_of. simpl. rewrite filter_cons. simpl.
  destruct (decide (c0 = c)); reflexivity.
Qed.

(** What one row adds to the grouping. *)
Lemma indexes_in_step (peaks : gmap Z (list Peak)) (c0 : Z) (p : Peak) (c : Z) :
  indexes_in
    match peaks !! c0 with
    | Some ps => <[c0 := ps ++ [p]]> peaks
    | None => <[c0 := [p]]> peaks
    end c
  = indexes_in peaks c ++ (if decide (c0 = c) then [peak_index p] else []).
Proof.
  unfold indexes_in. destruct (decide (c0 = c)) as [->|Hne].
  - destruct (peaks !! c) eqn:E; rewrite lookup_insert_eq; simpl;
      [rewrite fmap_app|]; reflexivity.
  - destruct (peaks !! c0); rewrite lookup_insert_ne by assumption;
      rewrite app_nil_r; reflexivity.
Qed.

Section PeakLoop.
Variable stat_num : string.
Variables pt pst : option table.

(** One row, with [peakIndex] assigned or the cluster id changing. *)
Lemma peak_step_Ok (st : peak_state) (row : list Q) (c : Z) (i : Z) :
  row_cluster_id row = Ok c -> (peak_width pt pst <= length row)%nat ->
  (if negb (c =? st_prev_cluster st) then Some 1 else st_peakIndex st)
  = Some i ->
  exists p, peak_index p = i /\
    peak_step (peak_of stat_num pt pst) st row
    = Ok {| st_peaks := match st_peaks st !! c with
                        | Some ps => <[c := ps ++ [p]]> (st_peaks st)
                        | None => <[c := [p]]> (st_peaks st)
                        end;
            st_prev_cluster := c; st_peakIndex := Some (i + 1) |}.
Proof.
  intros Hc Hw Hi. unfold peak_step. rewrite Hc. simpl. rewrite Hi.
  destruct (peak_of_Ok stat_num pt pst i row c Hw) as (p & Hp & Hpi & _).
  exists p. split; [exact Hpi|]. rewrite Hp. reflexivity.
Qed.

(** The rows after the first one: the loop follows the rule. *)
Lemma peak_loop_positional (rows : table) :
  forall (ids : list Z) (st : peak_state) (last : Z),
    st_peakIndex st = Some (last + 1) ->
    Forall2 (fun row c => row_cluster_id row = Ok c) rows ids ->
    Forall (fun row => (peak_width pt pst <= length row)%nat) rows ->
    exists st', for_each (peak_step (peak_of stat_num pt pst)) rows st = Ok st' /\
      forall c, indexes_in (st_peaks st') c
                = indexes_in (st_peaks st) c
                  ++ indexes_of c ids
                       (positional (Some (st_prev_cluster st)) last ids).
Proof.
  induction rows as [|row rows IH]; intros ids st last Hidx Hids Hwide.
  - inversion Hids; subst. exists st. split; [reflexivity|].
    intros c. unfold indexes_of. simpl. rewrite app_nil_r. reflexivity.
  - inversion Hids as [|? c0 ? ids' Hc0 Hids']; subst.
    inversion Hwide as [|? ? Hw Hwide']; subst.
    set (i := if decide (Some (st_prev_cluster st) = Some c0)
              then last + 1 else 1).
    destruct (peak_step_Ok st row c0 i Hc0 Hw) as (p & Hpi & Hstep).
    { subst i. destruct (Z.eqb_spec c0 (st_prev_cluster st)) as [->|Hne];
        simpl.
      - rewrite decide_True by reflexivity. exact Hidx.
      - rewrite decide_False by congruence. reflexivity. }
    rewrite (for_each_Ok_cons _ _ _ _ _ Hstep).
    match type of Hstep with
    | _ = Ok ?s =>
        destruct (IH ids' s i eq_refl Hids' Hwide') as (st' & Hrun & Hall)
    end.
    exists st'. split; [exact Hrun|]. intros c.
    rewrite Hall. simpl. rewrite indexes_in_step, Hpi.
    fold i. rewrite indexes_of_cons, app_assoc. reflexivity.
Qed.

(** The whole table, from [prev_cluster = -1], when the first row is not
    of cluster -1. *)
Lemma get_peaks_positional (peakIndex : option Z) (rows : table)
  (ids : list Z) :
  peak_rows pt pst = Ok rows ->
  Forall2 (fun row c => row_cluster_id row = Ok c) rows ids ->
  Forall (fun row => (peak_width pt pst <= length row)%nat) rows ->
  head ids <> Some (-1) ->
  exists st, get_peaks stat_num pt pst peakIndex = Ok st /\
    forall c, indexes_in (st_peaks st) c
              = indexes_of c ids (positional_indexes ids).
Proof.
  intros Hrows Hids Hwide Hfirst. unfold get_peaks. rewrite Hrows. simpl.
  destruct Hids as [|row c0 rows ids Hc0 Hids].
  - eexists. split; [reflexivity|]. intros c. reflexivity.
  - inversion Hwide as [|? ? Hw Hwide']; subst.
    simpl in Hfirst.
    destruct (peak_step_Ok
                {| st_peaks := ∅; st_prev_cluster := -1;
                   st_peakIndex := peakIndex |} row c0 1 Hc0 Hw)
      as (p & Hpi & Hstep).
    { simpl. destruct (Z.eqb_spec c0 (-1)) as [->|Hne];
        [congruence | reflexivity]. }
    rewrite (for_each_Ok_cons _ _ _ _ _ Hstep).
    match type of Hstep with
    | _ = Ok ?s =>
        destruct (peak_loop_positional rows ids s 1 eq_refl Hids Hwide')
          as (st' & Hrun & Hall)
    end.
    exists st'. split; [exact Hrun|]. intros c. rewrite Hall. simpl.
    rewrite lookup_empty. unfold positional_indexes. simpl.
    rewrite indexes_of_cons. unfold indexes_in at 1.
    destruct (decide (c0 = c)) as [->|Hne].
    + rewrite lookup_insert_eq. simpl. rewrite Hpi. reflexivity.
    + rewrite lookup_insert_ne by assumption. reflexivity.
Qed.

End PeakLoop.

Lemma for_each_Ok_Forall {A S : Type} (body : S -> A -> res S)
  (P : A -> Prop) (xs : list A) :
  (forall s x s', body s x = Ok s' -> P x) ->
  forall st st', for_each body xs st = Ok st' -> Forall P xs.
Proof.
  intros Hbody. induction xs as [|x xs IH]; intros st st' H; simpl in H.
  - constructor.
  - apply bind_Ok in H as (st1 & H1 & H). constructor; eauto.
Qed.

Lemma item_Ok_lt (row : list Q) (i : nat) (q : Q) :
  item row i = Ok q -> (i < length row)%nat.
Proof.
  unfold item. destruct (nth_error row i) eqn:E; [|discriminate].
  intros _. apply nth_error_Some. congruence.
Qed.

(** A call of [Peak] that goes through has found its columns. *)
Lemma peak_of_Ok_width stat_num pt pst (peakIndex : option Z) (row : list Q)
  (c : Z) (p : Peak) :
  peak_of stat_num pt pst peakIndex row c = Ok p ->
  (peak_width pt pst <= length row)%nat.
Proof.
  unfold peak_of, peak_joined, peak_voxel, peak_std, peak_width.
  destruct pt, pst; intros H;
    repeat match type of H with
           | bind (local _) _ = Ok _ => apply bind_Ok in H as (? & _ & H)
           | bind (item row 9) _ = Ok _ =>
               apply bind_Ok in H as (? & ?%item_Ok_lt & H)
           | bind (item row 4) _ = Ok _ =>
               apply bind_Ok in H as (? & ?%item_Ok_lt & H)
           | bind (item row _) _ = Ok _ => apply bind_Ok in H as (? & _ & H)
           end; lia.
Qed.

Lemma get_peaks_width stat_num pt pst peakIndex (rows : table)
  (st : peak_state) :
  peak_rows pt pst = Ok rows ->
  get_peaks stat_num pt pst peakIndex = Ok st ->
  Forall (fun row => (peak_width pt pst <= length row)%nat) rows.
Proof.
  intros Hrows H. unfold get_peaks in H. rewrite Hrows in H. cbn [bind] in H.
  revert H. apply for_each_Ok_Forall. intros s row s' Hstep.
  unfold peak_step in Hstep. apply bind_Ok in Hstep as (c & _ & Hstep).
  apply bind_Ok in Hstep as (p & Hp & _).
  exact (peak_of_Ok_width _ _ _ _ _ _ _ Hp).
Qed.

(** ** The cluster loop of [_get_clusters_peaks] *)

Lemma row_cluster_id_Ok (row : list Q) (c : Z) :
  row_cluster_id row = Ok c ->
  exists q, item row 0 = Ok q /\ c = int_of_float q.
Proof.
  unfold row_cluster_id. intros H. apply bind_Ok in H as (q & Hq & H).
  injection H as <-. eauto.
Qed.

(** What a step of the peak loop does to the grouping: one list grows or
    appears, at the cluster id of the row. *)
Lemma peak_step_grouping mk (st st' : peak_state) (row : list Q) :
  peak_step mk st row = Ok st' ->
  exists c p, row_cluster_id row = Ok c /\
    st_peaks st' = <[c := default [] (st_peaks st !! c) ++ [p]]> (st_peaks st).
Proof.
  unfold peak_step. intros H.
  apply bind_Ok in H as (c & Hc & H).
  apply bind_Ok in H as (p & _ & H).
  apply bind_Ok in H as (j & _ & H).
  injection H as <-. exists c, p. split; [exact Hc|]. simpl.
  destruct (st_peaks st !! c); reflexivity.
Qed.

(** No list of the grouping is empty. *)
Lemma get_peaks_nonempty stat_num pt pst peakIndex (st : peak_state) :
  get_peaks stat_num pt pst peakIndex = Ok st ->
  forall c ps, st_peaks st !! c = Some ps -> ps <> [].
Proof.
  unfold get_peaks. intros H. apply bind_Ok in H as (rows & _ & H).
  revert H.
  apply (for_each_invariant _
           (fun s => forall c ps, st_peaks s !! c = Some ps -> ps <> [])).
  - intros s row s' _ Hs Hstep c ps.
    apply peak_step_grouping in Hstep as (c0 & p & _ & ->).
    destruct (decide (c0 = c)) as [->|Hne].
    + rewrite lookup_insert_eq. intros [= <-].
      destruct (default [] (st_peaks s !! c)); discriminate.
    + rewrite lookup_insert_ne by assumption. apply Hs.
  - intros c ps. simpl. rewrite lookup_empty. discriminate.
Qed.

(** A cluster id that no scanned row carries is not a key of the
    grouping. *)
Lemma get_peaks_absent stat_num pt pst peakIndex (st : peak_state) (c : Z) :
  get_peaks stat_num pt pst peakIndex = Ok st ->
  (forall prows prow, peak_rows pt pst = Ok prows -> prow ∈ prows ->
                      row_cluster_id prow <> Ok c) ->
  st_peaks st !! c = None.
Proof.
  unfold get_peaks. intros H Hno. apply bind_Ok in H as (rows & Hrows & H).
  revert H.
  apply (for_each_invariant _ (fun s => st_peaks s !! c = None)).
  - intros s row s' Hin Hs Hstep.
    apply peak_step_grouping in Hstep as (c0 & p & Hc0 & ->).
    rewrite lookup_insert_ne; [exact Hs|].
    intros ->. exact (Hno rows row Hrows Hin Hc0).
  - apply lookup_empty.
Qed.

(** A row whose cluster id is not a key of the grouping makes no
    [Cluster]. *)
Lemma cluster_of_absent ct cst (peaks : gmap Z (list Peak)) (row : list Q)
  (c : Z) :
  row_cluster_id row = Ok c -> peaks !! c = None ->
  exists e, cluster_of ct cst peaks row = Raise e.
Proof.
  intros Hc Hnone. apply row_cluster_id_Ok in Hc as (q & Hq & ->).
  unfold cluster_of, cluster_joined, cluster_voxel, cluster_std.
  destruct ct, cst; rewrite Hq; cbn [bind];
    repeat match goal with
           | |- context [item ?r ?k] =>
               destruct (item_cases r k) as [[? ->]| ->]; cbn [bind]
           end; eauto;
    unfold peaks_getitem; rewrite Hnone; cbn [bind]; eauto.
Qed.

(** The [Cluster] made from a row takes its peaks from the grouping. *)
Lemma cluster_of_peaks ct cst (grouping : gmap Z (list Peak)) (row : list Q)
  (cl : Cluster) :
  cluster_of ct cst grouping row = Ok cl ->
  grouping !! cluster_num cl = Some (peaks cl).
Proof.
  unfold cluster_of, cluster_joined, cluster_voxel, cluster_std.
  destruct ct, cst;
    repeat match goal with
           | |- context [item ?r ?k] =>
               destruct (item_cases r k) as [[? ->]| ->]; cbn [bind]
           end; try discriminate;
    unfold peaks_getitem;
    match goal with
    | |- context [grouping !! ?c] => destruct (grouping !! c) eqn:E
    end; cbn [bind]; try discriminate; intros [= <-]; exact E.
Qed.

Lemma get_clusters_nonempty (grouping : gmap Z (list Peak)) ct cst
  (acc clusters : list Cluster) :
  (forall c ps, grouping !! c = Some ps -> ps <> []) ->
  Forall (fun cl => peaks cl <> []) acc ->
  get_clusters grouping ct cst acc = Ok clusters ->
  Forall (fun cl => peaks cl <> []) clusters.
Proof.
  intros Hg Hacc. unfold get_clusters. intros H.
  apply bind_Ok in H as (rows & _ & H). revert Hacc H.
  apply for_each_invariant.
  intros s row s' _ Hs Hstep. unfold cluster_step in Hstep.
  apply bind_Ok in Hstep as (cl & Hcl & [= <-]).
  apply Forall_app. split; [exact Hs|]. constructor; [|constructor].
  apply cluster_of_peaks in Hcl. eapply Hg. exact Hcl.
Qed.

Lemma get_clusters_absent (grouping : gmap Z (list Peak)) ct cst
  (rows : table) (row : list Q) (c : Z) :
  cluster_rows ct cst = Ok rows -> row ∈ rows ->
  row_cluster_id row = Ok c -> grouping !! c = None ->
  forall acc, exists e, get_clusters grouping ct cst acc = Raise e.
Proof.
  intros Hrows Hin Hc Hnone acc. unfold get_clusters. rewrite Hrows.
  cbn [bind]. apply (for_each_raises _ rows row Hin).
  intros st. unfold cluster_step.
  destruct (cluster_of_absent ct cst grouping row c Hc Hnone) as [e ->].
  eauto.
Qed.

Lemma no_row_of_cluster_spec (rows : res table) (c : Z) :
  no_row_of_cluster rows c = true ->
  forall prows prow, rows = Ok prows -> prow ∈ prows ->
                     row_cluster_id prow <> Ok c.
Proof.
  intros H prows prow -> Hin Hc. simpl in H.
  rewrite forallb_forall in H. apply list_elem_of_In in Hin.
  specialize (H prow Hin). rewrite Hc, Z.eqb_refl in H. discriminate.
Qed.

(** ** The Cluster/Peak Merger *)

(** C4, as amended.  For every peak table whose first row is not of cluster
    -1 (the value [prev_cluster] starts from): when its rows have the
    columns that [Peak] reads the loop goes through; and whenever the loop
    goes through, the peaks grouped under a cluster id carry, in the order
    of the rows, the indexes of the positional rule: 1 when the cluster id
    differs from the one of the row before, one more than the index of the
    row before otherwise.  In a first-level analysis the [Cluster]s returned
    hold their peaks with these indexes.  On the cluster ids 1, 1, 2, 2, 2
    the rule gives 1, 2, 1, 2, 3. *)
Theorem peak_index_positional (stat_num : string) (pt pst : option table)
  (peakIndex : option Z) (rows : table) (ids : list Z) :
  peak_rows pt pst = Ok rows ->
  map_res row_cluster_id rows = Ok ids ->
  head ids <> Some (-1) ->
  (Forall (fun row => (peak_width pt pst <= length row)%nat) rows ->
   exists st, get_peaks stat_num pt pst peakIndex = Ok st)
  /\ (forall st,
         get_peaks stat_num pt pst peakIndex = Ok st ->
         forall c, indexes_in (st_peaks st) c
                   = indexes_of c ids (positional_indexes ids))
  /\ (forall fs self d t found,
         analysis_dirs self = [d] ->
         read_tables fs d stat_num = Ok t ->
         peak_table t = pt -> peak_std_table t = pst ->
         _get_clusters_peaks fs self stat_num = Ok found ->
         Forall (fun cl => map peak_index (peaks cl)
                           = indexes_of (cluster_num cl) ids
                               (positional_indexes ids)) found)
  /\ positional_indexes [1; 1; 2; 2; 2] = [1; 2; 1; 2; 3].
Proof.
  intros Hrows Hids Hfirst. apply map_res_Forall2 in Hids.
  assert (Hrule : forall pidx st,
             get_peaks stat_num pt pst pidx = Ok st ->
             forall c, indexes_in (st_peaks st) c
                       = indexes_of c ids (positional_indexes ids)).
  { intros pidx st Hst.
    destruct (get_peaks_positional stat_num pt pst pidx rows ids Hrows Hids
                (get_peaks_width _ _ _ _ _ _ Hrows Hst) Hfirst)
      as (st' & Hst' & Hall).
    rewrite Hst in Hst'. injection Hst' as <-. exact Hall. }
  split; [|split; [|split]].
  - intros Hwide.
    destruct (get_peaks_positional stat_num pt pst peakIndex rows ids
                Hrows Hids Hwide Hfirst) as (st & Hst & _).
    eauto.
  - apply Hrule.
  - intros fs self d t found Hdirs Ht <- <- Hrun.
    unfold _get_clusters_peaks in Hrun. rewrite Hdirs in Hrun.
    apply bind_Ok in Hrun as (st1 & Hrun & [= <-]).
    cbn [for_each] in Hrun.
    apply bind_Ok in Hrun as (st2 & Hrun & [= <-]).
    unfold clusters_peaks_step in Hrun. rewrite Ht in Hrun.
    cbn [bind] in Hrun. unfold merge_tables in Hrun.
    apply bind_Ok in Hrun as (ps & Hps & Hrun).
    apply bind_Ok in Hrun as (cls & Hcls & [= <-]). simpl.
    pose proof (Hrule _ _ Hps) as Hidx.
    unfold get_clusters in Hcls. apply bind_Ok in Hcls as (crows & _ & Hcls).
    revert Hcls. simpl.
    apply (for_each_invariant _
             (Forall (fun cl => map peak_index (peaks cl)
                                = indexes_of (cluster_num cl) ids
                                    (positional_indexes ids))));
      [|constructor].
    intros s row s' _ Hs Hstep. unfold cluster_step in Hstep.
    apply bind_Ok in Hstep as (cl & Hcl & [= <-]).
    apply Forall_app. split; [exact Hs|]. constructor; [|constructor].
    apply cluster_of_peaks in Hcl. rewrite <- Hidx. unfold indexes_in.
    rewrite Hcl. reflexivity.
  - reflexivity.
Qed.

(** On the table with cluster ids 1, 1, 2, 2, 2 the peaks of cluster 1 get
    the indexes 1, 2 and those of cluster 2 the indexes 1, 2, 3. *)
Lemma peak_index_positional_11222 :
  exists st, get_peaks "1" (Some lmax_11222) None None = Ok st
             /\ indexes_in (st_peaks st) 1 = [1; 2]
             /\ indexes_in (st_peaks st) 2 = [1; 2; 3].
Proof.
  destruct (peak_index_positional "1" (Some lmax_11222) None None
              lmax_11222 [1; 1; 2; 2; 2]) as (Hruns & Hrule & _).
  - reflexivity.
  - reflexivity.
  - discriminate.
  - destruct Hruns as [st Hst]; [repeat constructor|].
    exists st. split; [exact Hst|].
    split; rewrite (Hrule st Hst); reflexivity.
Defined.

(** C4 as stated fails on a peak table that starts with cluster -1 when an
    earlier directory has left [peakIndex] assigned: the first peak of the
    second directory is the first row of its table and of its cluster, the
    rule gives it the index 1, the code the index 2. *)
Lemma peak_index_carried_over :
  (cls <- _get_clusters_peaks fs_two_dirs self_two_dirs "1" ;;
   Ok (map (fun cl => (cluster_num cl, map peak_index (peaks cl))) cls))
  = Ok [(1, [1]); (-1, [2])]
  /\ positional_indexes [-1] = [1].
Proof. split; vm_compute; reflexivity. Qed.




(** C7.  When a row of a cluster table has a cluster id that no row of the
    peak tables of the same directory carries, the merger raises; and the
    list of peaks of every [Cluster] that the merger returns has an
    element. *)
Theorem cluster_without_peaks_is_fatal (fs : FileSystem)
  (self : FSLtoNIDMExporter) (stat_num : string) :
  (forall d t rows row c,
      d ∈ analysis_dirs self ->
      read_tables fs d stat_num = Ok t ->
      cluster_rows (cluster_table t) (cluster_std_table t) = Ok rows ->
      row ∈ rows ->
      row_cluster_id row = Ok c ->
      (forall prows prow,
          peak_rows (peak_table t) (peak_std_table t) = Ok prows ->
          prow ∈ prows -> row_cluster_id prow <> Ok c) ->
      exists e, _get_clusters_peaks fs self stat_num = Raise e)
  /\ (forall clusters,
         _get_clusters_peaks fs self stat_num = Ok clusters ->
         Forall (fun cl => peaks cl <> []) clusters).
Proof.
  split.
  - intros d t rows row c Hd Ht Hrows Hrow Hc Hno.
    unfold _get_clusters_peaks.
    destruct (for_each_raises (clusters_peaks_step fs stat_num)
                (analysis_dirs self) d Hd) with (st := ([] : list Cluster, @None Z))
      as [e He].
    + intros st. unfold clusters_peaks_step. rewrite Ht. cbn [bind].
      unfold merge_tables.
      destruct (get_peaks _ _ _ _) as [ps|e] eqn:Hps; cbn [bind]; [|eauto].
      destruct (get_clusters_absent (st_peaks ps) _ _ rows row c Hrows Hrow Hc
                  (get_peaks_absent _ _ _ _ _ _ Hps Hno) (fst st)) as [e ->].
      cbn [bind]. eauto.
    + rewrite He. cbn [bind]. eauto.
  - intros clusters H. unfold _get_clusters_peaks in H.
    apply bind_Ok in H as (st & Hrun & [= <-]). revert Hrun.
    apply (for_each_invariant _
             (fun s => Forall (fun cl => peaks cl <> []) (fst s)));
      [|constructor].
    intros s d s' _ Hs Hstep. unfold clusters_peaks_step in Hstep.
    apply bind_Ok in Hstep as (t & _ & Hstep). unfold merge_tables in Hstep.
    apply bind_Ok in Hstep as (ps & Hps & Hstep).
    apply bind_Ok in Hstep as (cls & Hcls & [= <-]). simpl.
    eapply get_clusters_nonempty; [|exact Hs|exact Hcls].
    eapply get_peaks_nonempty. exact Hps.
Qed.

Lemma cluster_without_peaks_is_fatal_run :
  (exists e, _get_clusters_peaks fs_no_peaks self_run "1" = Raise e)
  /\ _get_clusters_peaks fs_no_peaks self_run "1" = Raise KeyError.
Proof.
  split; [|vm_compute; reflexivity].
  refine (proj1 (cluster_without_peaks_is_fatal fs_no_peaks self_run "1")
            "run.feat" _ _ (cluster_row_of 3 80) 3 _ eq_refl eq_refl _ eq_refl
            _).
  - apply list_elem_of_here.
  - apply list_elem_of_here.
  - apply no_row_of_cluster_spec. vm_compute. reflexivity.
Defined.

(** ** [_search_in_fsf] *)

(** What the matcher returns, its continuation has returned. *)
Lemma rx_match_from_k {R : Type} (P : R -> Prop) (r : regex) :
  forall (k : string -> captures -> option R) (s : string) (c : captures)
         (x : R),
    (forall s' c' x', k s' c' = Some x' -> P x') ->
    rx_match r k s c = Some x -> P x.
Proof.
  induction r as [|cs| |r1 IH1 r2 IH2|r1 IH1 r2 IH2|r IH|name r IH];
    intros k s c x Hk; simpl.
  - apply Hk.
  - destruct s as [|a s']; [discriminate|].
    destruct (existsb _ cs); [apply Hk | discriminate].
  - destruct s as [|a s']; [discriminate|].
    destruct (Ascii.eqb a newline); [discriminate | apply Hk].
  - apply IH1. intros s' c' x'. apply IH2. exact Hk.
  - destruct (rx_match r1 k s c) eqn:E1.
    + intros [= <-]. eapply IH1; eassumption.
    + apply IH2. exact Hk.
  - generalize (String.length s) as fuel. intros fuel. revert s c x.
    induction fuel as [|fuel IHf]; intros s c x; [apply Hk|].
    match goal with
    | |- match ?y with _ => _ end = _ -> _ => destruct y eqn:E
    end.
    + intros [= <-]. revert E. apply IH. intros s' c' x'.
      destruct (_ <? _)%nat; [apply IHf | discriminate].
    + apply Hk.
  - apply IH. intros s' c' x'. apply Hk.
Qed.

Lemma re_search_names (r : regex) (s : string) (m : Match) :
  re.search r s = Some m -> m_names m = group_names r.
Proof.
  unfold re.search. generalize 0%nat as pos.
  assert (Hat : forall pos s, match_at r pos s = Some m ->
                              m_names m = group_names r).
  { intros pos s'. unfold match_at.
    apply (rx_match_from_k (fun m => m_names m = group_names r)).
    intros s1 c1 m1 [= <-]. reflexivity. }
  induction s as [|a s IH]; intros pos; simpl.
  - destruct (match_at r pos EmptyString) eqn:E; [|discriminate].
    intros [= <-]. eapply Hat. exact E.
  - destruct (match_at r pos (String a s)) eqn:E.
    + intros [= <-]. eapply Hat. exact E.
    + apply IH.
Qed.

Lemma existsb_eqb_In (name : string) (names : list string) :
  In name names -> existsb (String.eqb name) names = true.
Proof.
  intros H. apply existsb_exists. exists name. split; [exact H|].
  apply String.eqb_refl.
Qed.

Lemma search_from_match_at (r : regex) (s : string) (m : Match) :
  forall pos, search_from r pos s = Some m ->
              exists pos' s', match_at r pos' s' = Some m.
Proof.
  induction s as [|a s IH]; intros pos; simpl.
  - destruct (match_at r pos EmptyString) eqn:E; [|discriminate].
    intros [= <-]. eauto.
  - destruct (match_at r pos (String a s)) eqn:E.
    + intros [= <-]. eauto.
    + apply IH.
Qed.




(** ** The Pattern Extractor and the Contrast Assembler *)




(** The comparison of line 241 is between a string and an integer: no
    identifier is ever appended. *)
Lemma pe_step_keeps (pe_index : Z) (pe_ids ids' : list ident)
  (pe : ParameterEstimateMap) :
  pe_step pe_index pe_ids pe = Ok ids' -> ids' = pe_ids.
Proof.
  unfold pe_step. intros H. apply bind_Ok in H as (n & _ & H).
  simpl in H. congruence.
Qed.

Lemma find_pe_ids_empty (self : FSLtoNIDMExporter) (contrast_weights : string)
  (pe_ids : list ident) :
  find_pe_ids self contrast_weights = Ok pe_ids -> pe_ids = [].
Proof.
  unfold find_pe_ids. intros H. apply bind_Ok in H as (st & Hrun & [= <-]).
  revert Hrun. apply (for_each_invariant _ (fun s => fst s = []));
    [|reflexivity].
  intros [ids i] w [ids' i'] _ Hs Hstep. simpl in Hs. subst ids.
  unfold weight_step in Hstep. apply bind_Ok in Hstep as (b & _ & Hstep).
  apply bind_Ok in Hstep as (ids1 & H1 & [= <- <-]). simpl.
  destruct (b =? 1); [|congruence].
  revert H1. apply (for_each_invariant _ (fun s => s = [])); [|reflexivity].
  intros s mf s' _ -> Hmf. revert Hmf.
  apply (for_each_invariant _ (fun s => s = [])); [|reflexivity].
  intros s1 pe s1' _ -> Hpe. exact (pe_step_keeps _ _ _ _ Hpe).
Qed.

(** C1 at the weights 1, -1, 2, 0, with the parameter estimates [pe1] to
    [pe4] of identifiers 101 to 104: the text of the weights is read as the
    specification says and its rule selects the identifier 101
    of [pe1], but the tuple that the code computes is empty, and so is the
    second part of the key of the contrast. *)
Theorem pe_ids_of_weights_1_m1_2_0 :
  weights_text (self_level1 "3") "1" = "[1, -1, 2, 0]"
  /\ pe_ids_spec 1 [1; -1; 2; 0]
       (flat_map param_estimates (values (model_fittings (self_level1 "3"))))
     = [101%nat]
  /\ find_pe_ids (self_level1 "3") "[1, -1, 2, 0]" = Ok []
  /\ (r <- _find_contrasts fs_run (self_level1 "3") ;; Ok (map fst r.1))
     = Ok [(100%nat, [])].
Proof. split; [|split; [|split]]; vm_compute; reflexivity. Qed.

(** *** What [_find_contrasts] returns

    The two loops leave in [contrasts] the dict of their last turns: every
    key of the mapping returned carries the identifier of the model fitting
    of the last analysis directory. *)

Lemma for_each_snoc {A S : Type} (body : S -> A -> res S) (xs : list A)
  (x : A) (st st' : S) :
  for_each body (xs ++ [x]) st = Ok st' ->
  exists st1, for_each body xs st = Ok st1 /\ body st1 x = Ok st'.
Proof.
  revert st. induction xs as [|y ys IH]; intros st; simpl.
  - intros H. apply bind_Ok in H as (st1 & H1 & [= <-]). eauto.
  - intros H. apply bind_Ok in H as (st1 & H1 & H).
    destruct (IH st1 H) as (st2 & H2 & H3). exists st2. rewrite H1. auto.
Qed.

Lemma setdefault_append_key {K V : Type} `{EqDecision K} (key : K) (v : V)
  (d : list (K * list V)) (k : K) (vs : list V) :
  (k, vs) ∈ setdefault_append key v d ->
  k = key \/ exists vs', (k, vs') ∈ d.
Proof.
  induction d as [|[k0 vs0] d IH]; simpl; intros Hin.
  - apply list_elem_of_singleton in Hin as [= -> ->]. auto.
  - destruct (decide (k0 = key)) as [->|Hne];
      apply elem_of_cons in Hin as [[= -> ->]|Hin]; auto.
    + right. exists vs. apply list_elem_of_further. exact Hin.
    + right. exists vs0. apply list_elem_of_here.
    + destruct (IH Hin) as [->|[vs' Hvs']]; [auto|].
      right. exists vs'. apply list_elem_of_further. exact Hvs'.
Qed.

Lemma contrast_step_spec (n : nat) (mf_id : ident) (stat_dir : string)
  (dof : Q) (st st' : FSLtoNIDMExporter * mapping) (filename : string) :
  contrast_step n mf_id stat_dir dof st filename = Ok st' ->
  same_inputs st.1 st'.1
  /\ forall k cs, (k, cs) ∈ st'.2 -> k.1 = mf_id \/ exists cs', (k, cs') ∈ st.2.
Proof.
  destruct st as [self m]. unfold contrast_step. intros H.
  apply bind_Ok in H as (zstatnum & _ & H).
  apply bind_Ok in H as (stat_num & _ & H).
  apply bind_Ok in H as ([stat_type con_num] & _ & H).
  apply bind_Ok in H as (name & _ & H).
  cbn [fresh_id] in H.
  apply bind_Ok in H as (pe_ids & _ & [= <-]). split.
  - split; reflexivity.
  - intros k cs Hin. apply setdefault_append_key in Hin as [->|Hin]; auto.
Qed.

Lemma contrasts_of_dir_spec (fs : FileSystem) (mf_id : ident)
  (stat_dir : string) (dof : Q) (st st' : FSLtoNIDMExporter * option mapping)
  (analysis_dir : string) :
  contrasts_of_dir fs mf_id stat_dir dof st analysis_dir = Ok st' ->
  same_inputs st.1 st'.1
  /\ exists m, st'.2 = Some m /\ forall k cs, (k, cs) ∈ m -> k.1 = mf_id.
Proof.
  unfold contrasts_of_dir. intros H.
  apply bind_Ok in H as (st1 & Hrun & [= <-]). simpl.
  assert (Hinv : same_inputs st.1 st1.1
                 /\ forall k cs, (k, cs) ∈ st1.2 -> k.1 = mf_id).
  { revert Hrun.
    apply (for_each_invariant _
             (fun s => same_inputs st.1 s.1
                       /\ forall k cs, (k, cs) ∈ s.2 -> k.1 = mf_id)).
    - intros s f s' _ [[Hd Hm] Hkeys] Hstep.
      apply contrast_step_spec in Hstep as [[Hd' Hm'] Hnew]. split.
      + split; congruence.
      + intros k cs Hin. destruct (Hnew k cs Hin) as [E|[cs' Hin']];
          [exact E | eapply Hkeys; exact Hin'].
    - split; [split; reflexivity|]. intros k cs Hin. inversion Hin. }
  destruct Hinv as [Hsame Hkeys]. split; [exact Hsame|]. eauto.
Qed.

Lemma contrasts_step_inputs (fs : FileSystem)
  (st st' : FSLtoNIDMExporter * option mapping) (analysis_dir : string) :
  contrasts_step fs st analysis_dir = Ok st' -> same_inputs st.1 st'.1.
Proof.
  unfold contrasts_step. intros H.
  apply bind_Ok in H as (mf & _ & H). apply bind_Ok in H as (txt & _ & H).
  apply bind_Ok in H as (dof & _ & H). revert H.
  apply (for_each_invariant _ (fun s => same_inputs st.1 s.1)).
  - intros s d s' _ [Hd Hm] Hstep.
    apply contrasts_of_dir_spec in Hstep as [[Hd' Hm'] _].
    split; congruence.
  - split; reflexivity.
Qed.

Lemma find_contrasts_last_dir (fs : FileSystem) (self self' : FSLtoNIDMExporter)
  (dirs : list string) (last : string) (m : mapping) :
  analysis_dirs self = dirs ++ [last] ->
  _find_contrasts fs self = Ok (m, self') ->
  exists model_fitting,
    assoc last (model_fittings self) = Some model_fitting
    /\ forall k cs, (k, cs) ∈ m -> k.1 = activity_id model_fitting.
Proof.
  intros Hdirs H. unfold _find_contrasts in H.
  apply bind_Ok in H as (st & Hrun & H).
  apply bind_Ok in H as (m' & Hlocal & [= <- <-]).
  rewrite Hdirs in Hrun.
  apply for_each_snoc in Hrun as (st1 & Hfirst & Hlast).
  assert (Hsame : same_inputs self st1.1).
  { revert Hfirst. apply (for_each_invariant _ (fun s => same_inputs self s.1)).
    - intros s d s' _ [Hd Hm] Hstep.
      apply contrasts_step_inputs in Hstep as [Hd' Hm']. split; congruence.
    - split; reflexivity. }
  destruct Hsame as [Hd Hm]. unfold contrasts_step in Hlast.
  apply bind_Ok in Hlast as (mf & Hmf & Hlast).
  apply bind_Ok in Hlast as (txt & _ & Hlast).
  apply bind_Ok in Hlast as (dof & _ & Hlast).
  rewrite <- Hd, Hdirs in Hlast.
  apply for_each_snoc in Hlast as (st2 & _ & Hlast).
  apply contrasts_of_dir_spec in Hlast as (_ & m2 & Hm2 & Hkeys).
  exists mf. split.
  - unfold getitem in Hmf. rewrite <- Hm in Hmf.
    destruct (assoc last (model_fittings self)); [congruence | discriminate].
  - intros k cs Hin. apply (Hkeys k cs).
    rewrite Hm2 in Hlocal. injection Hlocal as <-. exact Hin.
Qed.

(** C5 at two analysis directories with one excursion set each: the
    mapping that [_find_contrasts] returns has the contrast of the last
    directory only, under the identifier 200 of its model fitting; the
    contrast of the first directory, of model fitting 100, is not in it. *)
Theorem contrasts_of_earlier_units_dropped :
  (r <- _find_contrasts fs_level2 self_level2 ;;
   Ok (map (fun kv => (kv.1, map (fun c => cm_file (contrast_map c)) kv.2))
         r.1))
  = Ok [((200%nat, []), ["g.gfeat/cope2.feat/stats/cope1.nii.gz"])].
Proof. vm_compute. reflexivity. Qed.

(** ** The design type *)

Lemma Qle_bool_false (a b : Q) : Qle_bool a b = false <-> (b < a)%Q.
Proof.
  split.
  - intros H. apply Qnot_le_lt. intros Hle. apply Qle_bool_iff in Hle.
    congruence.
  - intros H. destruct (Qle_bool a b) eqn:E; [|reflexivity].
    apply Qle_bool_iff in E. exfalso. exact (Qlt_not_le _ _ H E).
Qed.

Lemma py_max_le (a b c : Q) :
  Qle_bool (py_max a b) c = Qle_bool a c && Qle_bool b c.
Proof.
  unfold py_max.
  destruct (Qle_bool b a) eqn:Hba, (Qle_bool a c) eqn:Hac,
    (Qle_bool b c) eqn:Hbc; simpl; try reflexivity;
    repeat match goal with
           | H : Qle_bool _ _ = true |- _ => apply Qle_bool_iff in H
           | H : Qle_bool _ _ = false |- _ => apply Qle_bool_false in H
           end; lra.
Qed.

Lemma py_min_gt (a b c : Q) :
  negb (Qle_bool (py_min a b) c)
  = negb (Qle_bool a c) && negb (Qle_bool b c).
Proof.
  unfold py_min.
  destruct (Qle_bool a b) eqn:Hab, (Qle_bool a c) eqn:Hac,
    (Qle_bool b c) eqn:Hbc; simpl; try reflexivity;
    repeat match goal with
           | H : Qle_bool _ _ = true |- _ => apply Qle_bool_iff in H
           | H : Qle_bool _ _ = false |- _ => apply Qle_bool_false in H
           end; lra.
Qed.

Lemma fold_py_max_le (ds : list Q) (a c : Q) :
  Qle_bool (fold_left py_max ds a) c
  = Qle_bool a c && forallb (fun d => Qle_bool d c) ds.
Proof.
  revert a. induction ds as [|d ds IH]; intros a; simpl.
  - rewrite andb_true_r. reflexivity.
  - rewrite IH, py_max_le, andb_assoc. reflexivity.
Qed.

Lemma fold_py_min_gt (ds : list Q) (a c : Q) :
  negb (Qle_bool (fold_left py_min ds a) c)
  = negb (Qle_bool a c) && forallb (fun d => negb (Qle_bool d c)) ds.
Proof.
  revert a. induction ds as [|d ds IH]; intros a; simpl.
  - rewrite andb_true_r. reflexivity.
  - rewrite IH, py_min_gt, andb_assoc. reflexivity.
Qed.

(** The third column of an array that [np.loadtxt] has read is there for an
    array of two dimensions only, and such an array has rows. *)
Lemma column_of_length (rows : table) (i : nat) (ds : list Q) :
  column_of rows i = Ok ds -> length ds = length rows.
Proof.
  revert ds. induction rows as [|row rows IH]; intros ds; simpl.
  - intros [= <-]. reflexivity.
  - intros H. apply bind_Ok in H as (q & _ & H).
    apply bind_Ok in H as (qs & Hqs & [= <-]). simpl.
    rewrite (IH qs Hqs). reflexivity.
Qed.

Lemma squeeze_Arr2 (t rows : table) : squeeze t = Arr2 rows -> rows <> [].
Proof.
  unfold squeeze.
  repeat match goal with
         | |- context [match ?x with _ => _ end] => destruct x
         | |- context [if ?b then _ else _] => destruct b
         end;
    intros H; try discriminate H; injection H as <-; discriminate.
Qed.

Lemma onset_third_column_nonempty (fs : FileSystem) (onset : Match)
  (ds : list Q) :
  onset_third_column fs onset = Ok ds -> ds <> [].
Proof.
  unfold onset_third_column, np.loadtxt. intros H.
  apply bind_Ok in H as (g & _ & H). apply bind_Ok in H as (file & _ & H).
  apply bind_Ok in H as (aa & Haa & H).
  apply bind_Ok in Haa as (t & _ & [= <-]).
  destruct (squeeze t) as [x|xs|rows] eqn:E; try discriminate.
  apply squeeze_Arr2 in E. simpl in H. apply column_of_length in H.
  destruct ds; [|discriminate]. destruct rows; [contradiction|discriminate].
Qed.

(** One onset file: the two variables take in the largest and the smallest
    value of its third column. *)
Lemma onset_step_Ok (fs : FileSystem) (onset : Match) (ds : list Q)
  (max_duration min_duration : Q) :
  onset_third_column fs onset = Ok ds ->
  exists hi lo,
    onset_step fs (max_duration, min_duration) onset
    = Ok (py_max max_duration hi, py_min min_duration lo)
    /\ Qle_bool hi 1 = forallb (fun d => Qle_bool d 1) ds
    /\ negb (Qle_bool lo 1) = forallb (fun d => negb (Qle_bool d 1)) ds.
Proof.
  intros Hds. pose proof (onset_third_column_nonempty _ _ _ Hds) as Hne.
  unfold onset_third_column in Hds. unfold onset_step.
  apply bind_Ok in Hds as (g & -> & Hds). cbn [bind].
  apply bind_Ok in Hds as (file & -> & Hds). cbn [bind].
  apply bind_Ok in Hds as (aa & -> & Hds). cbn [bind].
  rewrite Hds. cbn [bind].
  destruct ds as [|d ds]; [contradiction|]. cbn [np.amax np.amin bind].
  eexists _, _. split; [reflexivity|]. split.
  - rewrite fold_py_max_le. reflexivity.
  - rewrite fold_py_min_gt. reflexivity.
Qed.

Lemma onset_loop (fs : FileSystem) (onsets : list Match) :
  forall (dss : list (list Q)) (max_duration min_duration : Q),
    Forall2 (fun onset ds => onset_third_column fs onset = Ok ds) onsets dss ->
    exists hi lo,
      for_each (onset_step fs) onsets (max_duration, min_duration)
      = Ok (hi, lo)
      /\ Qle_bool hi 1
         = Qle_bool max_duration 1
           && forallb (fun d => Qle_bool d 1) (List.concat dss)
      /\ negb (Qle_bool lo 1)
         = negb (Qle_bool min_duration 1)
           && forallb (fun d => negb (Qle_bool d 1)) (List.concat dss).
Proof.
  induction onsets as [|onset onsets IH]; intros dss mx mn Hall.
  - inversion Hall; subst. exists mx, mn. simpl.
    rewrite !andb_true_r. auto.
  - inversion Hall as [|? ds ? dss' Hds Hall']; subst.
    destruct (onset_step_Ok fs onset ds mx mn Hds) as (h & l & Hstep & Hh & Hl).
    destruct (IH dss' (py_max mx h) (py_min mn l) Hall')
      as (hi & lo & Hrun & Hhi & Hlo).
    exists hi, lo. split; [|split].
    + rewrite (for_each_Ok_cons _ _ _ _ _ Hstep). exact Hrun.
    + rewrite Hhi, py_max_le, Hh. simpl. rewrite forallb_app, andb_assoc.
      reflexivity.
    + rewrite Hlo, py_min_gt, Hl. simpl. rewrite forallb_app, andb_assoc.
      reflexivity.
Qed.

(** The design type that the code finds is the one of the rule of the
    specification applied to the third columns of the onset files, when
    these can be read. *)
Lemma design_type_from_third_column (fs : FileSystem)
  (self : FSLtoNIDMExporter) (dss : list (list Q)) :
  all_third_columns fs self = Ok dss ->
  find_design_type fs self = Ok (design_type_spec (List.concat dss))
  /\ (forall analysis_dir design_matrix,
         first_level self = true ->
         _get_design_matrix fs self analysis_dir = Ok design_matrix ->
         dm_design_type design_matrix
         = Some (design_type_spec (List.concat dss))).
Proof.
  intros Hall. apply map_res_Forall2 in Hall.
  assert (Hdt : find_design_type fs self
                = Ok (design_type_spec (List.concat dss))).
  { unfold find_design_type.
    destruct (onset_loop fs _ dss 0%Q 36000%Q Hall) as (hi & lo & -> & Hhi & Hlo).
    cbn [bind fst snd]. f_equal. unfold classify_design, design_type_spec.
    simpl in Hhi, Hlo. rewrite Hhi, Hlo. reflexivity. }
  split; [exact Hdt|].
  intros d dm Hlevel Hdm. unfold _get_design_matrix in Hdm.
  apply bind_Ok in Hdm as (values & _ & Hdm).
  apply bind_Ok in Hdm as (orig_ev & _ & Hdm).
  rewrite Hlevel, Hdt in Hdm. cbn [bind] in Hdm.
  apply bind_Ok in Hdm as (model & Hmodel & Hdm).
  apply bind_Ok in Hmodel as (hrf & _ & Hmodel).
  apply bind_Ok in Hmodel as (drift & _ & [= <-]).
  apply bind_Ok in Hdm as (real_ev & _ & Hdm).
  apply bind_Ok in Hdm as (h & _ & [= <-]). reflexivity.
Qed.

(** C9 at an onset file with three events of durations 4, 4 and 6 and of
    weight 1, in FSL's format of three columns (onset, duration, weight):
    the durations are all above 1 and the specification has a block-based
    design, as in its own example; the code takes the third column, the
    weights 1, 1, 1, for the durations and records an event-related
    design. *)
Theorem design_type_of_durations_4_4_6 :
  fs_table (fs_level1 [4 # 1; 4 # 1; 6 # 1])
    "run.feat/custom_timing_files/ev1.txt"
  = Ok [[0 # 1; 4 # 1; 1 # 1]; [10 # 1; 4 # 1; 1 # 1];
        [20 # 1; 6 # 1; 1 # 1]]
  /\ all_onset_durations (fs_level1 [4 # 1; 4 # 1; 6 # 1]) (self_level1 "3")
     = Ok [[4 # 1; 4 # 1; 6 # 1]]
  /\ design_type_spec [4 # 1; 4 # 1; 6 # 1] = NIDM_BLOCK_BASED_DESIGN
  /\ all_third_columns (fs_level1 [4 # 1; 4 # 1; 6 # 1]) (self_level1 "3")
     = Ok [[1 # 1; 1 # 1; 1 # 1]]
  /\ find_design_type (fs_level1 [4 # 1; 4 # 1; 6 # 1]) (self_level1 "3")
     = Ok NIDM_EVENT_RELATED_DESIGN
  /\ (dm <- _get_design_matrix (fs_level1 [4 # 1; 4 # 1; 6 # 1])
              (self_level1 "3") "run.feat" ;;
      Ok (dm_design_type dm))
     = Ok (Some NIDM_EVENT_RELATED_DESIGN).
Proof.
  split; [|split; [|split; [|split; [|split]]]]; vm_compute; reflexivity.
Qed.

(** ** The Inference Assembler *)

Lemma for_each_fix {A S : Type} (body : S -> A -> res S) (xs : list A)
  (st : S) :
  (forall x, x ∈ xs -> body st x = Ok st) -> for_each body xs st = Ok st.
Proof.
  induction xs as [|x xs IH]; intros H; simpl; [reflexivity|].
  rewrite (H x (list_elem_of_here _ _)). simpl. apply IH.
  intros y Hy. apply H. apply list_elem_of_further. exact Hy.
Qed.

(** No contrast has the number of the excursion set: [con_id] is still
    [None] after the two loops and the assertion fails. *)
Lemma find_con_id_unmatched (self : FSLtoNIDMExporter) (stat_num : string) :
  (forall cs contrast,
      cs ∈ values (contrasts self) -> contrast ∈ cs ->
      exists con_num, contrast_number contrast = Ok con_num
                      /\ con_num <> stat_num) ->
  find_con_id self stat_num = Raise AssertionError.
Proof.
  intros Hno. unfold find_con_id. rewrite for_each_fix; [reflexivity|].
  intros cs Hcs. apply for_each_fix. intros contrast Hc.
  destruct (Hno cs contrast Hcs Hc) as (con_num & Hnum & Hne).
  unfold match_contrast. rewrite Hnum. cbn [bind].
  apply String.eqb_neq in Hne. rewrite Hne. reflexivity.
Qed.

Lemma no_contrast_numbered_spec (self : FSLtoNIDMExporter)
  (stat_num : string) :
  no_contrast_numbered self stat_num = true ->
  forall cs contrast,
    cs ∈ values (contrasts self) -> contrast ∈ cs ->
    exists con_num, contrast_number contrast = Ok con_num
                    /\ con_num <> stat_num.
Proof.
  unfold no_contrast_numbered. intros H cs contrast Hcs Hc.
  rewrite forallb_forall in H. apply list_elem_of_In in Hcs.
  specialize (H cs Hcs). rewrite forallb_forall in H.
  apply list_elem_of_In in Hc. specialize (H contrast Hc).
  destruct (contrast_number contrast) as [n|e]; [|discriminate].
  exists n. split; [reflexivity|]. apply String.eqb_neq.
  destruct (String.eqb n stat_num); [discriminate | reflexivity].
Qed.

(** C6.  When the name of an excursion set holds the statistic number
    [stat_num] and every known contrast has a contrast number, read from
    the name of its contrast map, other than [stat_num], the assertion of
    line 336 fails: no [Inference] is made for the excursion set, and the
    whole of [_find_inferences] raises when the excursion set is one of
    those of an analysis directory. *)
Theorem unmatched_excursion_set_asserts (fs : FileSystem)
  (search_space_of : string -> res SearchSpace) (self : FSLtoNIDMExporter)
  (analysis_dir filename zstatnum stat_type stat_num : string) :
  found_group0 (re.search zstat_re filename) = Ok zstatnum ->
  stat_of zstatnum = Some (stat_type, stat_num) ->
  (forall cs contrast,
      cs ∈ values (contrasts self) -> contrast ∈ cs ->
      exists con_num, contrast_number contrast = Ok con_num
                      /\ con_num <> stat_num) ->
  (forall n, inference_of fs search_space_of self analysis_dir n filename
             = Raise AssertionError)
  /\ (analysis_dir ∈ analysis_dirs self ->
      filename ∈ glob.glob fs (os.path.join analysis_dir "thresh_z*.nii.gz") ->
      exists e, _find_inferences fs search_space_of self = Raise e).
Proof.
  intros Hz Hstat Hno.
  assert (Hinf : forall n, inference_of fs search_space_of self analysis_dir
                             n filename = Raise AssertionError).
  { intros n. unfold inference_of. rewrite Hz. cbn [bind].
    rewrite Hstat. cbn [local bind].
    destruct (1 <? n)%nat; cbn [bind];
      rewrite (find_con_id_unmatched self stat_num Hno); reflexivity. }
  split; [exact Hinf|]. intros Hdir Hfile. unfold _find_inferences.
  apply (for_each_raises _ _ analysis_dir Hdir). intros st.
  unfold inferences_of_dir.
  apply (for_each_raises _ _ filename Hfile). intros st'.
  unfold inference_step. rewrite Hinf. cbn [bind]. eauto.
Qed.

Lemma setdefault_append_elem {K V : Type} `{EqDecision K} (key : K) (v : V)
  (d : list (K * list V)) (k : K) (vs : list V) (x : V) :
  (k, vs) ∈ setdefault_append key v d -> x ∈ vs ->
  x = v \/ exists vs', (k, vs') ∈ d /\ x ∈ vs'.
Proof.
  induction d as [|[k0 vs0] d IH]; simpl; intros Hin Hx.
  - apply list_elem_of_singleton in Hin as [= -> ->].
    apply list_elem_of_singleton in Hx. auto.
  - destruct (decide (k0 = key)) as [->|Hne].
    + apply elem_of_cons in Hin as [[= -> ->]|Hin].
      * apply elem_of_app in Hx as [Hx|Hx].
        -- right. exists vs0. split; [apply list_elem_of_here | exact Hx].
        -- apply list_elem_of_singleton in Hx. auto.
      * right. exists vs. split; [apply list_elem_of_further | ]; assumption.
    + apply elem_of_cons in Hin as [[= -> ->]|Hin].
      * right. exists vs0. split; [apply list_elem_of_here | exact Hx].
      * destruct (IH Hin Hx) as [->|(vs' & Hvs' & Hx')]; [auto|].
        right. exists vs'. split; [apply list_elem_of_further | ]; assumption.
Qed.

(** The thresholds and the tables of one [Inference]. *)
Lemma inference_of_one_hot (fs : FileSystem)
  (search_space_of : string -> res SearchSpace) (self : FSLtoNIDMExporter)
  (code : Z) (prob z : Q) (analysis_dir : string) (n : nat)
  (filename : string) (r : ident * Inference) :
  int_in_fsf self type_re = Ok code ->
  float_in_fsf self prob_re = Ok prob ->
  float_in_fsf self z_re = Ok z ->
  inference_of fs search_space_of self analysis_dir n filename = Ok r ->
  one_hot code prob z r.2.
Proof.
  intros Hcode Hprob Hz H. unfold inference_of in H.
  apply bind_Ok in H as (zstatnum & _ & H).
  apply bind_Ok in H as (stat_num_t & _ & H).
  apply bind_Ok in H as ([stat_type stat_num] & _ & H).
  apply bind_Ok in H as (con_id & _ & H).
  apply bind_Ok in H as (name & _ & H).
  rewrite Hprob, Hz, Hcode in H. cbn [bind] in H.
  unfold thresholds, clusters_and_criteria in H.
  unfold one_hot. split; [|split]; intros ->; simpl in H.
  - apply bind_Ok in H as (mask & _ & H).
    apply bind_Ok in H as (ss & _ & [= <-]). simpl. auto.
  - apply bind_Ok in H as (mask & _ & H).
    apply bind_Ok in H as (ss & _ & [= <-]). simpl. auto.
  - apply bind_Ok in H as (cc & Hcc & H).
    apply bind_Ok in Hcc as (cls & _ & Hcc).
    apply bind_Ok in Hcc as (num & _ & Hcc).
    apply bind_Ok in Hcc as (dist & _ & Hcc).
    apply bind_Ok in Hcc as (conn & _ & [= <-]).
    apply bind_Ok in H as (mask & _ & H).
    apply bind_Ok in H as (ss & _ & [= <-]). simpl. eauto 6.
Qed.

(** C3.  For a design text with the threshold type [code], the
    probability threshold [prob] and the statistic threshold [z], every
    [Inference] that is assembled, and so every one of the mapping that
    [_find_inferences] returns, has its thresholds in the pattern of
    [code]: for 1 the uncorrected probability alone, for 2 the corrected
    probability alone, both without extent threshold, table of clusters and
    criteria; for 3 the statistic threshold with the extent probability,
    the table of clusters and the two criteria. *)
Theorem threshold_one_hot (fs : FileSystem)
  (search_space_of : string -> res SearchSpace) (self : FSLtoNIDMExporter)
  (code : Z) (prob z : Q) :
  int_in_fsf self type_re = Ok code ->
  float_in_fsf self prob_re = Ok prob ->
  float_in_fsf self z_re = Ok z ->
  (forall analysis_dir n filename r,
      inference_of fs search_space_of self analysis_dir n filename = Ok r ->
      one_hot code prob z r.2)
  /\ (forall result,
         _find_inferences fs search_space_of self = Ok result ->
         forall id infs inf,
           (id, infs) ∈ result -> inf ∈ infs -> one_hot code prob z inf).
Proof.
  intros Hcode Hprob Hz. split.
  - intros d n f r. apply inference_of_one_hot; assumption.
  - intros result Hrun. unfold _find_inferences in Hrun. revert Hrun.
    set (P := fun m : inferences_mapping =>
                forall id infs inf,
                  (id, infs) ∈ m -> inf ∈ infs -> one_hot code prob z inf).
    apply (for_each_invariant _ P).
    + intros m d m' _ Hm. unfold inferences_of_dir.
      apply (for_each_invariant _ P); [|exact Hm].
      intros m1 f m1' _ Hm1 Hstep id infs inf Hin Hinf.
      unfold inference_step in Hstep.
      apply bind_Ok in Hstep as (r & Hr & [= <-]).
      destruct (setdefault_append_elem _ _ _ _ _ _ Hin Hinf)
        as [->|(infs' & Hin' & Hinf')].
      * eapply inference_of_one_hot; eassumption.
      * eapply Hm1; eassumption.
    + intros id infs inf Hin. inversion Hin.
Qed.

(** The three threshold types on the analysis [run.feat]. *)
Lemma threshold_one_hot_run :
  (exists r, inference_of fs_run some_search_space (self_ready "1")
               "run.feat" 1 "run.feat/thresh_zstat1.nii.gz" = Ok r
             /\ one_hot 1 (5 # 100) (23 # 10) r.2)
  /\ (exists r, inference_of fs_run some_search_space (self_ready "2")
                  "run.feat" 1 "run.feat/thresh_zstat1.nii.gz" = Ok r
                /\ one_hot 2 (5 # 100) (23 # 10) r.2)
  /\ (exists r, inference_of fs_run some_search_space (self_ready "3")
                  "run.feat" 1 "run.feat/thresh_zstat1.nii.gz" = Ok r
                /\ one_hot 3 (5 # 100) (23 # 10) r.2).
Proof.
  split; [|split];
    match goal with
    | |- exists r, inference_of ?fs ?ss ?self ?d ?n ?f = Ok r
                   /\ one_hot ?code ?p ?z _ =>
        destruct (is_ok_Ok (inference_of fs ss self d n f)
                    ltac:(vm_compute; reflexivity)) as [r E];
        exists r; split; [exact E|];
        exact (proj1 (threshold_one_hot fs ss self code p z
                        ltac:(vm_compute; reflexivity)
                        ltac:(vm_compute; reflexivity)
                        ltac:(vm_compute; reflexivity)) d n f r E)
    end.
Defined.

Lemma unmatched_excursion_set_asserts_run :
  inference_of fs_zstat2 some_search_space (self_ready "3") "run.feat" 1
    "run.feat/thresh_zstat2.nii.gz" = Raise AssertionError
  /\ exists e, _find_inferences fs_zstat2 some_search_space (self_ready "3")
               = Raise e.
Proof.
  destruct (unmatched_excursion_set_asserts fs_zstat2 some_search_space
              (self_ready "3") "run.feat" "run.feat/thresh_zstat2.nii.gz"
              "zstat2" "T" "2") as [Hone Hall].
  - vm_compute. reflexivity.
  - vm_compute. reflexivity.
  - apply no_contrast_numbered_spec. vm_compute. reflexivity.
  - split; [apply Hone|]. apply Hall.
    + vm_compute. apply list_elem_of_here.
    + vm_compute. apply list_elem_of_here.
Defined.

(** A threshold type other than 1, 2 and 3 takes the last branch of lines
    370-376 and the second one of lines 387-401: nothing is raised. *)
Lemma unsupported_code_falls_through (fs : FileSystem)
  (self : FSLtoNIDMExporter) (code : Z) (prob z : Q) (stat_num : string) :
  code <> 1 -> code <> 2 -> code <> 3 ->
  thresholds code prob z
  = ({| stat_threshold := Some z; p_corr_threshold := None;
        p_uncorr_threshold := None |},
     {| extent_p_corr := Some prob |})
  /\ clusters_and_criteria fs self code stat_num = Ok (None, None, None).
Proof.
  intros H1 H2 H3. unfold thresholds, clusters_and_criteria.
  apply Z.eqb_neq in H1, H2, H3. rewrite H1, H2, H3. split; reflexivity.
Qed.

(** C2 at the threshold type 0: the two parsing steps go through on the
    design file of [run.feat] with [set fmri(thresh) 0] and return one
    [Inference], which has the statistic threshold 2.3 and the extent
    probability 0.05 of the cluster branch but neither table of clusters
    nor criteria; the specification has an error raised here. *)
Theorem threshold_code_0_is_not_rejected :
  summaries fs_run (self_level1 "0")
  = Ok [({| stat_threshold := Some (23 # 10); p_corr_threshold := None;
            p_uncorr_threshold := None |},
         {| extent_p_corr := Some (5 # 100) |}, false, false, false)].
Proof. vm_compute. reflexivity. Qed.

(** * Further properties of the parser *)

(** ** What a match leaves in the captures *)

Lemma rx_base_refl (s : string) (c : captures) : rx_base s c s c.
Proof. split; [lia|]. split; auto. Qed.

Lemma rx_base_trans (s1 s2 s3 : string) (c1 c2 c3 : captures) :
  rx_base s1 c1 s2 c2 -> rx_base s2 c2 s3 c3 -> rx_base s1 c1 s3 c3.
Proof.
  intros (Hl & Hn & Hc) (Hl' & Hn' & Hc'). split; [lia|]. split; auto.
Qed.

Lemma str_take_nonempty (n : nat) (s : string) :
  (0 < n)%nat -> s <> EmptyString -> str_take n s <> EmptyString.
Proof.
  intros Hn Hs. destruct s as [|a s]; [contradiction|].
  destruct n as [|n]; [lia|]. unfold str_take. simpl. discriminate.
Qed.

(** A group records what its body has taken. *)
Lemma rx_base_group (name : string) (s : string) (c : captures) (s' : string)
  (c' : captures) :
  rx_base s c s' c' -> (String.length s' < String.length s)%nat ->
  rx_base s c s'
    ((name, str_take (String.length s - String.length s') s) :: c')
  /\ is_Some (capture_of name
                ((name, str_take (String.length s - String.length s') s) :: c')).
Proof.
  intros (Hl & Hn & Hc) Hlt. split; [split; [lia|split]|].
  - intros H. constructor; [|exact (Hn H)]. simpl.
    apply str_take_nonempty; [lia|].
    destruct s; [simpl in Hlt; lia | discriminate].
  - intros n Hsome. simpl. destruct (String.eqb name n); [eauto | auto].
  - simpl. rewrite String.eqb_refl. eauto.
Qed.

(** What the matcher returns, its continuation has returned on a text and
    captures that the pattern leads to. *)
Lemma rx_match_inv {R : Type} (P : R -> Prop) (r : regex) :
  groups_consume r = true ->
  forall (k : string -> captures -> option R) (s : string) (c : captures)
         (x : R),
    (forall s' c' x', rx_inv r s c s' c' -> k s' c' = Some x' -> P x') ->
    rx_match r k s c = Some x -> P x.
Proof.
  induction r as [|cs| |r1 IH1 r2 IH2|r1 IH1 r2 IH2|r IH|name r IH];
    intros Hg k s c x Hk; simpl in Hg |- *.
  - apply Hk. split; [apply rx_base_refl|]. split; [discriminate|].
    intros name; discriminate.
  - destruct s as [|a s']; [discriminate|].
    destruct (existsb _ cs); [|discriminate]. apply Hk.
    split; [|split; [simpl; lia | intros name; discriminate]].
    split; [simpl; lia | split; auto].
  - destruct s as [|a s']; [discriminate|].
    destruct (Ascii.eqb a newline); [discriminate|]. apply Hk.
    split; [|split; [simpl; lia | intros name; discriminate]].
    split; [simpl; lia | split; auto].
  - apply andb_true_iff in Hg as [Hg1 Hg2]. apply (IH1 Hg1).
    intros s1 c1 x1 (Hb1 & Hlt1 & Hm1). apply (IH2 Hg2).
    intros s2 c2 x2 (Hb2 & Hlt2 & Hm2). apply Hk.
    split; [exact (rx_base_trans _ _ _ _ _ _ Hb1 Hb2)|]. split.
    + intros Hnull. apply andb_false_iff in Hnull as [H|H].
      * specialize (Hlt1 H). destruct Hb2 as [Hl2 _]. lia.
      * specialize (Hlt2 H). destruct Hb1 as [Hl1 _]. lia.
    + intros name Hmust. apply orb_true_iff in Hmust as [H|H].
      * destruct Hb2 as (_ & _ & Hc2). apply Hc2. apply Hm1. exact H.
      * apply Hm2. exact H.
  - apply andb_true_iff in Hg as [Hg1 Hg2].
    destruct (rx_match r1 k s c) eqn:E1.
    + intros [= <-]. revert E1. apply (IH1 Hg1).
      intros s1 c1 x1 (Hb1 & Hlt1 & Hm1). apply Hk.
      split; [exact Hb1|]. split.
      * intros Hnull. apply orb_false_iff in Hnull as [H _]. auto.
      * intros name Hmust. apply andb_true_iff in Hmust as [H _]. auto.
    + apply (IH2 Hg2). intros s2 c2 x2 (Hb2 & Hlt2 & Hm2). apply Hk.
      split; [exact Hb2|]. split.
      * intros Hnull. apply orb_false_iff in Hnull as [_ H]. auto.
      * intros name Hmust. apply andb_true_iff in Hmust as [_ H]. auto.
  - assert (Hloop : forall fuel s0 c0 x0,
               rx_base s c s0 c0 ->
               (fix loop (fuel : nat) (s : string) (c : captures)
                  : option R :=
                  match fuel with
                  | O => k s c
                  | S fuel' =>
                      match rx_match r
                              (fun s' c' =>
                                 if (String.length s' <? String.length s)%nat
                                 then loop fuel' s' c' else None) s c with
                      | Some x => Some x
                      | None => k s c
                      end
                  end) fuel s0 c0 = Some x0 -> P x0).
    { assert (Hend : forall s0 c0 x0,
                 rx_base s c s0 c0 -> k s0 c0 = Some x0 -> P x0).
      { intros s0 c0 x0 Hb. apply Hk. split; [exact Hb|].
        split; [discriminate | intros name; discriminate]. }
      induction fuel as [|fuel IHf]; intros s0 c0 x0 Hb; [apply Hend, Hb|].
      match goal with
      | |- match ?y with _ => _ end = _ -> _ => destruct y eqn:E
      end.
      - intros [= <-]. revert E. apply (IH Hg).
        intros s1 c1 x1 (Hb1 & _ & _).
        destruct (_ <? _)%nat; [|discriminate]. apply IHf.
        exact (rx_base_trans _ _ _ _ _ _ Hb Hb1).
      - apply Hend, Hb. }
    apply Hloop. apply rx_base_refl.
  - apply andb_true_iff in Hg as [Hnull Hg]. apply negb_true_iff in Hnull.
    apply (IH Hg). intros s1 c1 x1 (Hb1 & Hlt1 & Hm1).
    specialize (Hlt1 Hnull).
    destruct (rx_base_group name s c s1 c1 Hb1 Hlt1) as [Hb Hcap].
    apply Hk. split; [exact Hb|]. split; [intros _; exact Hlt1|].
    intros n Hmust. apply orb_true_iff in Hmust as [H|H].
    + apply String.eqb_eq in H. subst n. exact Hcap.
    + simpl. destruct (String.eqb name n); [eauto | apply Hm1, H].
Qed.

(** A group that takes part in every match of a pattern, and takes at least
    one character as every group of the pattern does, has a capture that
    is not empty in every match found. *)
Lemma re_search_capture (r : regex) (name : string) (s : string) (m : Match) :
  groups_consume r = true -> must_capture name r = true ->
  re.search r s = Some m ->
  exists v, capture_of name (m_captures m) = Some v /\ v <> EmptyString.
Proof.
  intros Hg Hmust Hm. unfold re.search in Hm.
  apply search_from_match_at in Hm as (pos & s0 & Hm). revert Hm.
  unfold match_at.
  apply (rx_match_inv
           (fun m => exists v, capture_of name (m_captures m) = Some v
                               /\ v <> EmptyString) r Hg).
  intros s1 c1 m1 ((_ & Hne & _) & _ & Hcap) [= <-]. simpl.
  destruct (Hcap name Hmust) as [v Hv]. exists v. split; [exact Hv|].
  specialize (Hne (Forall_nil_2 _)). clear Hcap. revert Hv.
  induction Hne as [|[n w] c Hw Hc IHc]; simpl; [discriminate|].
  destruct (String.eqb n name); [intros [= <-]; exact Hw | exact IHc].
Qed.

Lemma groups_consume_lit (s : string) : groups_consume (lit s) = true.
Proof.
  induction s as [|a s IH]; [reflexivity|].
  destruct s; [reflexivity|]. simpl in IH |- *. exact IH.
Qed.

(** The patterns of the design file with a value of digits. *)
Lemma fmri_re_consumes (key : string) (value : regex) :
  groups_consume value = true -> nullable value = false ->
  groups_consume (fmri_re key value) = true
  /\ must_capture "info" (fmri_re key value) = true.
Proof.
  intros Hg Hnull. unfold fmri_re. cbn [seq groups_consume must_capture].
  rewrite (groups_consume_lit key), Hg, Hnull. cbn.
  rewrite orb_true_r. auto.
Qed.

Lemma search_in_fsf_found (self : FSLtoNIDMExporter) (regexp : regex)
  (m : Match) (return_not_found : bool) :
  In "info" (group_names regexp) ->
  re.search regexp (design_txt self) = Some m ->
  _search_in_fsf self regexp return_not_found
  = Ok (capture_of "info" (m_captures m)).
Proof.
  intros Hinfo Hm. unfold _search_in_fsf. rewrite Hm. unfold group.
  rewrite (re_search_names _ _ _ Hm), (existsb_eqb_In _ _ Hinfo).
  reflexivity.
Qed.

Lemma group_names_lit (s : string) : group_names (lit s) = [].
Proof.
  induction s as [|a s IH]; [reflexivity|].
  destruct s; [reflexivity|]. simpl in IH |- *. exact IH.
Qed.

Lemma fmri_re_info (key : string) (value : regex) :
  In "info" (group_names (fmri_re key value)).
Proof.
  unfold fmri_re. cbn [seq group_names]. rewrite (group_names_lit key).
  cbn. auto.
Qed.

(** A lookup of a value of digits gives a string that is not empty, or
    raises an [AttributeError] when the key is not in the design file. *)
Lemma search_in_fsf_digits (self : FSLtoNIDMExporter) (key : string) :
  (exists v, _search_in_fsf self (fmri_re key (Plus digit)) false
             = Ok (Some v) /\ v <> EmptyString)
  \/ (re.search (fmri_re key (Plus digit)) (design_txt self) = None
      /\ _search_in_fsf self (fmri_re key (Plus digit)) false
         = Raise AttributeError).
Proof.
  destruct (re.search (fmri_re key (Plus digit)) (design_txt self))
    as [m|] eqn:Hm.
  - left.
    destruct (fmri_re_consumes key (Plus digit) eq_refl eq_refl) as [Hg Hmust].
    destruct (re_search_capture _ "info" _ m Hg Hmust Hm) as (v & Hv & Hne).
    exists v. split; [|exact Hne].
    rewrite (search_in_fsf_found self _ m false (fmri_re_info _ _) Hm), Hv.
    reflexivity.
  - right. split; [reflexivity|]. unfold _search_in_fsf. rewrite Hm.
    reflexivity.
Qed.

(** ** The design matrix *)

(** The switch of the temporal derivative is a string of digits, and such a
    string is true whatever the digits. *)
Lemma real_ev_step_spec (self : FSLtoNIDMExporter) (real_ev : list string)
  (ev : Z * string) (r : list string) :
  real_ev_step self real_ev ev = Ok r ->
  r = real_ev ++ with_derivative ev.2.
Proof.
  destruct ev as [ev_num ev_name]. unfold real_ev_step, tempo_deriv_re.
  destruct (search_in_fsf_digits self ("deriv_yn" +:+ pretty ev_num))
    as [(v & -> & Hne)|[_ ->]]; cbn [bind]; [|discriminate].
  apply String.eqb_neq in Hne. rewrite Hne. cbn [negb].
  intros [= <-]. rewrite <- app_assoc. reflexivity.
Qed.

(** X1.  The names of the columns of a design matrix that
    [_get_design_matrix] returns are, for every regressor title of the design
    file in the order of the dict [orig_ev], the title and then the title
    with [*temporal_derivative]: the name of the derivative is added
    whatever the value of [deriv_yn<N>], since [bool] of the string found
    is true also for the string 0. *)
Theorem regressors_always_with_derivative (fs : FileSystem)
  (self : FSLtoNIDMExporter) (analysis_dir : string) (dm : DesignMatrix) :
  _get_design_matrix fs self analysis_dir = Ok dm ->
  exists orig_ev,
    for_each ev_step (re.findall0 regnames_re (design_txt self)) []
    = Ok orig_ev
    /\ dm_regressors dm = flat_map with_derivative (map snd orig_ev).
Proof.
  intros H. unfold _get_design_matrix in H.
  apply bind_Ok in H as (vals & _ & H).
  apply bind_Ok in H as (orig_ev & Hev & H).
  apply bind_Ok in H as ([[dt hrf] drift] & _ & H).
  apply bind_Ok in H as (real_ev & Hreal & H).
  apply bind_Ok in H as (h & _ & [= <-]). simpl.
  exists orig_ev. split; [exact Hev|].
  change real_ev with ([] ++ real_ev) at 1.
  assert (Hgen : forall evs acc r,
             for_each (real_ev_step self) evs acc = Ok r ->
             r = acc ++ flat_map with_derivative (map snd evs)).
  { induction evs as [|ev evs IH]; intros acc r; simpl.
    - intros [= <-]. rewrite app_nil_r. reflexivity.
    - intros Hrun. apply bind_Ok in Hrun as (acc1 & Hstep & Hrun).
      apply real_ev_step_spec in Hstep. subst acc1.
      rewrite (IH _ _ Hrun), <- app_assoc. reflexivity. }
  exact (Hgen _ _ _ Hreal).
Qed.

(** On the analysis [run.feat] with [set fmri(deriv_yn1) 0]. *)
Lemma regressors_always_with_derivative_run :
  _search_in_fsf (with_texts (self_level1 "3") (design_of "0" "3" []) None)
    (tempo_deriv_re 1) false = Ok (Some "0")
  /\ exists dm,
      _get_design_matrix fs_run
        (with_texts (self_level1 "3") (design_of "0" "3" []) None)
        "run.feat" = Ok dm
      /\ exists orig_ev,
          for_each ev_step
            (re.findall0 regnames_re (design_of "0" "3" [])) []
          = Ok orig_ev
          /\ dm_regressors dm = flat_map with_derivative (map snd orig_ev).
Proof.
  split; [vm_compute; reflexivity|].
  destruct (is_ok_Ok
              (_get_design_matrix fs_run
                 (with_texts (self_level1 "3") (design_of "0" "3" []) None)
                 "run.feat") ltac:(vm_compute; reflexivity)) as [dm E].
  exists dm. split; [exact E|].
  exact (regressors_always_with_derivative _ _ _ _ E).
Defined.

(** X2.  In a first-level analysis whose [convolve1] is a digit outside 1
    to 6 (0, no convolution, or 7 to 9) none of the branches of lines
    499-510 assigns [hrf_model], and [_get_design_matrix] returns no
    design matrix: it raises, at the latest when it reads the variable. *)
Theorem convolution_without_model (fs : FileSystem)
  (self : FSLtoNIDMExporter) (m : Match) (hrf : Z) :
  first_level self = true ->
  re.search convolve_re (design_txt self) = Some m ->
  int_of_group m "hrf" = Ok hrf ->
  hrf < 1 \/ 6 < hrf ->
  find_hrf_model self = Ok None
  /\ forall analysis_dir,
      exists e, _get_design_matrix fs self analysis_dir = Raise e.
Proof.
  intros Hlevel Hm Hhrf Hout.
  assert (Hmodel : find_hrf_model self = Ok None).
  { unfold find_hrf_model. rewrite Hm, Hhrf. cbn [bind].
    repeat match goal with
           | |- context [hrf =? ?n] =>
               destruct (Z.eqb_spec hrf n); [lia|]
           end.
    reflexivity. }
  split; [exact Hmodel|]. intros d. unfold _get_design_matrix.
  rewrite Hlevel, Hmodel.
  destruct (np.loadtxt2 fs (os.path.join d "design.mat")); cbn [bind];
    [|eauto].
  destruct (for_each ev_step _ []); cbn [bind]; [|eauto].
  destruct (find_design_type fs self); cbn [bind]; [|eauto].
  destruct (find_drift_model self); cbn [bind option_map]; [|eauto].
  destruct (for_each (real_ev_step self) _ []); cbn [bind local]; eauto.
Qed.

(** On the analysis [run.feat] with [set fmri(convolve1) 0]. *)
Lemma convolution_without_model_run :
  find_hrf_model (with_texts (self_level1 "3") (design_of "1" "0" []) None)
  = Ok None
  /\ _get_design_matrix fs_run
       (with_texts (self_level1 "3") (design_of "1" "0" []) None) "run.feat"
     = Raise UnboundLocalError.
Proof.
  destruct (re.search convolve_re (design_of "1" "0" [])) as [m|] eqn:Hm;
    [|vm_compute in Hm; discriminate].
  destruct (convolution_without_model fs_run
              (with_texts (self_level1 "3") (design_of "1" "0" []) None)
              m 0 eq_refl Hm) as [Hmodel _].
  - vm_compute in Hm. injection Hm as <-. vm_compute. reflexivity.
  - lia.
  - split; [exact Hmodel | vm_compute; reflexivity].
Defined.

(** An array read from a file of at most one row has one dimension at
    most. *)
Lemma column_of_short_table (t : table) (i : nat) :
  (length t <= 1)%nat -> column (squeeze t) i = Raise IndexError.
Proof.
  destruct t as [|row [|row' t]]; simpl; [reflexivity| |lia].
  intros _. destruct row as [|x [|y row]]; reflexivity.
Qed.

(** X3.  An onset file named by a [set fmri(custom<N>)] line that holds a
    single event (or none) is read by [np.loadtxt] as an array of one
    dimension, so that [aa[:, 2]] raises an [IndexError]: neither the
    design type nor, in a first-level analysis, the design matrix is
    returned. *)
Theorem single_event_onset_file (fs : FileSystem) (self : FSLtoNIDMExporter)
  (file : string) (t : table) :
  Ok (Some file)
    ∈ map (fun onset => group onset "file")
        (re.finditer onsets_re (design_txt self)) ->
  fs_table fs file = Ok t -> (length t <= 1)%nat ->
  (exists e, find_design_type fs self = Raise e)
  /\ (first_level self = true ->
      forall analysis_dir,
        exists e, _get_design_matrix fs self analysis_dir = Raise e).
Proof.
  intros Hin Ht Hshort. apply list_elem_of_fmap in Hin as (onset & Hfile & Hin).
  assert (Hstep : forall st, onset_step fs st onset = Raise IndexError).
  { intros [mx mn]. unfold onset_step, np.loadtxt.
    rewrite <- Hfile. cbn [bind the_str]. rewrite Ht. cbn [bind].
    rewrite (column_of_short_table t 2 Hshort). reflexivity. }
  assert (Hdt : exists e, find_design_type fs self = Raise e).
  { unfold find_design_type.
    destruct (for_each_raises (onset_step fs) _ onset Hin
                (fun st => ex_intro _ IndexError (Hstep st)) (0%Q, 36000%Q))
      as [e ->].
    cbn [bind]. eauto. }
  split; [exact Hdt|]. intros Hlevel d. destruct Hdt as [e Hdt].
  unfold _get_design_matrix. rewrite Hlevel, Hdt.
  destruct (np.loadtxt2 fs (os.path.join d "design.mat")); cbn [bind];
    [|eauto].
  destruct (for_each ev_step _ []); cbn [bind]; eauto.
Qed.

(** X20.  A design file without [set fmri(custom<N>)] line names no onset
    file: the loop of lines 482-485 is not entered, the largest duration
    stays 0 and the design of a first-level analysis is recorded as
    event-related. *)
Theorem event_related_without_onset_files (fs : FileSystem)
  (self : FSLtoNIDMExporter) :
  re.finditer onsets_re (design_txt self) = [] ->
  find_design_type fs self = Ok NIDM_EVENT_RELATED_DESIGN
  /\ (first_level self = true ->
      forall analysis_dir dm,
        _get_design_matrix fs self analysis_dir = Ok dm ->
        dm_design_type dm = Some NIDM_EVENT_RELATED_DESIGN).
Proof.
  intros Hnone.
  assert (Hdt : find_design_type fs self = Ok NIDM_EVENT_RELATED_DESIGN).
  { unfold find_design_type. rewrite Hnone. reflexivity. }
  split; [exact Hdt|]. intros Hlevel d dm Hdm.
  unfold _get_design_matrix in Hdm.
  apply bind_Ok in Hdm as (vals & _ & Hdm).
  apply bind_Ok in Hdm as (orig_ev & _ & Hdm).
  rewrite Hlevel, Hdt in Hdm. cbn [bind] in Hdm.
  apply bind_Ok in Hdm as (model & Hmodel & Hdm).
  apply bind_Ok in Hmodel as (hrf & _ & Hmodel).
  apply bind_Ok in Hmodel as (drift & _ & [= <-]).
  apply bind_Ok in Hdm as (real_ev & _ & Hdm).
  apply bind_Ok in Hdm as (h & _ & [= <-]). reflexivity.
Qed.

(** On an empty design text. *)
Lemma event_related_without_onset_files_run :
  find_design_type fs_run self_run = Ok NIDM_EVENT_RELATED_DESIGN.
Proof.
  apply (event_related_without_onset_files fs_run self_run).
  vm_compute. reflexivity.
Defined.

(** On the analysis [run.feat] with one event in the onset file. *)
Lemma single_event_onset_file_run :
  (exists e, find_design_type (fs_level1 [1 # 2]) (self_level1 "3") = Raise e)
  /\ exists e, _get_design_matrix (fs_level1 [1 # 2]) (self_level1 "3")
                 "run.feat" = Raise e.
Proof.
  destruct (single_event_onset_file (fs_level1 [1 # 2]) (self_level1 "3")
              "run.feat/custom_timing_files/ev1.txt" [[0%Q; 1 # 2; 1%Q]])
    as [Hdt Hdm].
  - vm_compute. apply list_elem_of_here.
  - vm_compute. reflexivity.
  - simpl. lia.
  - split; [exact Hdt|]. apply Hdm. reflexivity.
Defined.

(** ** The coordinate system *)

(** X4.  [_get_coordinate_system] never returns the standardized
    coordinate system: when line 688 is reached [custom_space] is a boolean,
    which is not [None] and is not equal to the string 1, so that
    [custom_standard] is false. *)
Theorem coordinate_system_never_standardized (self : FSLtoNIDMExporter) :
  _get_coordinate_system self <> Ok NIDM_STANDARDIZED_COORDINATE_SYSTEM.
Proof.
  unfold _get_coordinate_system, find_custom_standard.
  destruct (_search_in_fsf self space_re false) as [v|e]; cbn [bind];
    [|discriminate].
  destruct (truth v); cbn [negb orb].
  - destruct (_search_in_fsf self custom_re true) as [[s|]|e]; cbn;
      try discriminate; destruct (first_level self); cbn; discriminate.
  - cbn. discriminate.
Qed.

Lemma search_in_fsf_tolerant (self : FSLtoNIDMExporter) (regexp : regex) :
  In "info" (group_names regexp) ->
  exists v, _search_in_fsf self regexp true = Ok v.
Proof.
  intros Hinfo.
  destruct (re.search regexp (design_txt self)) as [m|] eqn:Hm.
  - rewrite (search_in_fsf_found self regexp m true Hinfo Hm). eauto.
  - unfold _search_in_fsf. rewrite Hm. eauto.
Qed.

(** X5.  When the design file has no [set fmri(regstandard_yn)] line the
    lookup of [_get_coordinate_system] raises an [AttributeError]; when it
    has one, the result is the subject coordinate system for a first-level
    analysis and the ICBM MNI152 one otherwise, whatever the digits of the
    line (0 included) and whatever [alternateReference_yn]. *)
Theorem coordinate_system_by_level (self : FSLtoNIDMExporter) :
  match re.search space_re (design_txt self) with
  | None => _get_coordinate_system self = Raise AttributeError
  | Some _ =>
      _get_coordinate_system self
      = Ok (if first_level self then NIDM_SUBJECT_COORDINATE_SYSTEM
            else NIDM_ICBM_MNI152_NON_LINEAR6TH_GENERATION_COORDINATE_SYSTEM)
  end.
Proof.
  unfold _get_coordinate_system, space_re.
  destruct (search_in_fsf_digits self "regstandard_yn")
    as [(v & Hv & Hne)|[Hnone Hr]].
  - destruct (re.search _ (design_txt self)) as [m|] eqn:Hm.
    + rewrite Hv. cbn [bind truth]. apply String.eqb_neq in Hne.
      rewrite Hne. cbn [negb orb]. unfold find_custom_standard.
      destruct (search_in_fsf_tolerant self custom_re (fmri_re_info _ _))
        as [[s|] ->]; cbn; destruct (first_level self); reflexivity.
    + unfold _search_in_fsf in Hv. rewrite Hm in Hv. discriminate.
  - rewrite Hnone, Hr. reflexivity.
Qed.

(** ** The parameter estimate maps *)

Lemma param_estimate_loop (stat_dir : string) (filenames : list string) :
  forall (self self' : FSLtoNIDMExporter)
         (acc pes : list ParameterEstimateMap),
    for_each (param_estimate_step stat_dir) filenames (self, acc)
    = Ok (self', pes) ->
    coord_space self' = coord_space self
    /\ exists new,
        pes = acc ++ new
        /\ map pe_file new
           = map (os.path.join stat_dir) (List.filter is_pe_file filenames)
        /\ Forall (fun pe => pe_coord_space pe = coord_space self) new.
Proof.
  induction filenames as [|f fs IH]; intros self self' acc pes; simpl.
  - intros [= <- <-]. split; [reflexivity|]. exists []. rewrite app_nil_r.
    split; [reflexivity|]. split; [reflexivity | constructor].
  - intros H. apply bind_Ok in H as ([self1 acc1] & Hstep & H).
    apply IH in H as (Hcs & new & -> & Hfiles & Hall).
    unfold param_estimate_step, is_pe_file in *.
    destruct (startswith f "pe"); cbn [andb].
    + destruct (endswith f ".nii.gz").
      * apply bind_Ok in Hstep as (penum & _ & Hstep).
        cbn [fresh_id] in Hstep. injection Hstep as <- <-.
        simpl in Hcs, Hall. split; [exact Hcs|].
        eexists (_ :: new). rewrite <- app_assoc. split; [reflexivity|].
        split; [simpl; rewrite Hfiles; reflexivity|].
        constructor; [reflexivity | exact Hall].
      * injection Hstep as <- <-. split; [exact Hcs|]. exists new. auto.
    + injection Hstep as <- <-. split; [exact Hcs|]. exists new. auto.
Qed.

(** X6.  The maps that [_get_param_estimate_maps] returns are those of the
    names of the listing of the directory that start with [pe] and end with
    [.nii.gz], in the order of the listing, each with the path of the file
    in the directory and the coordinate space of the exporter. *)
Theorem param_estimate_maps_of_listing
  (listdir : string -> res (list string)) (self self' : FSLtoNIDMExporter)
  (stat_dir : string) (filenames : list string)
  (pes : list ParameterEstimateMap) :
  listdir stat_dir = Ok filenames ->
  _get_param_estimate_maps listdir self stat_dir = Ok (pes, self') ->
  map pe_file pes
  = map (os.path.join stat_dir) (List.filter is_pe_file filenames)
  /\ Forall (fun pe => pe_coord_space pe = coord_space self) pes.
Proof.
  intros Hls H. unfold _get_param_estimate_maps in H. rewrite Hls in H.
  cbn [bind] in H. apply bind_Ok in H as ([self1 pes1] & Hrun & [= <- <-]).
  apply param_estimate_loop in Hrun as (_ & new & -> & Hfiles & Hall).
  auto.
Qed.

(** On a directory with the files of two parameter estimates among other
    ones. *)
Lemma param_estimate_maps_of_listing_run :
  exists pes self',
    _get_param_estimate_maps
      (listing_of ["dof"; "pe1.nii.gz"; "cope1.nii.gz"; "pe2.nii.gz";
                   "pe2.txt"])
      (self_level1 "3") "run.feat/stats" = Ok (pes, self')
    /\ map pe_file pes
       = ["run.feat/stats/pe1.nii.gz"; "run.feat/stats/pe2.nii.gz"].
Proof.
  destruct (is_ok_Ok
              (_get_param_estimate_maps
                 (listing_of ["dof"; "pe1.nii.gz"; "cope1.nii.gz";
                              "pe2.nii.gz"; "pe2.txt"])
                 (self_level1 "3") "run.feat/stats")
              ltac:(vm_compute; reflexivity)) as [[pes self'] E].
  exists pes, self'. split; [exact E|].
  exact (proj1 (param_estimate_maps_of_listing _ _ _ _ _ _ eq_refl E)).
Defined.

(** X7.  A name of the listing that starts with [pe] and ends with
    [.nii.gz] but has no digit after a [pe] makes the search of line 631
    return [None]: the call raises an [AttributeError] at this name, and
    [_get_param_estimate_maps] returns no list. *)
Theorem param_estimate_without_number
  (listdir : string -> res (list string)) (self : FSLtoNIDMExporter)
  (stat_dir : string) (filenames : list string) (filename : string) :
  listdir stat_dir = Ok filenames ->
  filename ∈ filenames ->
  is_pe_file filename = true ->
  re.search pe_re filename = None ->
  (forall st, param_estimate_step stat_dir st filename = Raise AttributeError)
  /\ exists e, _get_param_estimate_maps listdir self stat_dir = Raise e.
Proof.
  intros Hls Hin Hpe Hnone. unfold is_pe_file in Hpe.
  apply andb_true_iff in Hpe as [Hstart Hend].
  assert (Hstep : forall st, param_estimate_step stat_dir st filename
                             = Raise AttributeError).
  { intros [s acc]. unfold param_estimate_step.
    rewrite Hstart, Hend, Hnone. reflexivity. }
  split; [exact Hstep|]. unfold _get_param_estimate_maps. rewrite Hls.
  cbn [bind].
  destruct (for_each_raises (param_estimate_step stat_dir) _ filename Hin
              (fun st => ex_intro _ AttributeError (Hstep st)) (self, []))
    as [e ->].
  cbn [bind]. eauto.
Qed.

(** On a directory with a file [perfusion.nii.gz]. *)
Lemma param_estimate_without_number_run :
  exists e,
    _get_param_estimate_maps
      (listing_of ["pe1.nii.gz"; "perfusion.nii.gz"]) (self_level1 "3")
      "run.feat/stats" = Raise e.
Proof.
  refine (proj2 (param_estimate_without_number
                   (listing_of ["pe1.nii.gz"; "perfusion.nii.gz"])
                   (self_level1 "3") "run.feat/stats"
                   ["pe1.nii.gz"; "perfusion.nii.gz"] "perfusion.nii.gz"
                   eq_refl _ _ _)).
  - apply list_elem_of_further, list_elem_of_here.
  - vm_compute. reflexivity.
  - vm_compute. reflexivity.
Defined.

(** ** The contrasts and the inferences *)

Lemma for_each_app {A S : Type} (body : S -> A -> res S) (xs ys : list A)
  (st : S) :
  for_each body (xs ++ ys) st
  = (st' <- for_each body xs st ;; for_each body ys st').
Proof.
  revert st. induction xs as [|x xs IH]; intros st; simpl; [reflexivity|].
  destruct (body st x); simpl; [apply IH | reflexivity].
Qed.

(** Two loops, one in the other, go through the elements of the lists one
    after the other. *)
Lemma for_each_concat {A S : Type} (body : S -> A -> res S)
  (xss : list (list A)) (st : S) :
  for_each (fun s xs => for_each body xs s) xss st
  = for_each body (List.concat xss) st.
Proof.
  revert st. induction xss as [|xs xss IH]; intros st; simpl; [reflexivity|].
  rewrite for_each_app. destruct (for_each body xs st); simpl;
    [apply IH | reflexivity].
Qed.

(** [setdefault(key, list()).append(v)] puts the value after those of a
    dict that has no other key. *)
Lemma setdefault_append_single {K V : Type} `{EqDecision K} (key : K) (v : V)
  (d : list (K * list V)) :
  d = [] \/ (exists vs, d = [(key, vs)]) ->
  exists vs', setdefault_append key v d = [(key, vs')]
              /\ List.concat (values [(key, vs')])
                 = List.concat (values d) ++ [v].
Proof.
  intros [->|[vs ->]]; simpl.
  - exists [v]. auto.
  - destruct (decide (key = key)); [|contradiction]. exists (vs ++ [v]).
    split; [reflexivity|]. simpl. rewrite !app_nil_r. reflexivity.
Qed.

(** It adds the value to those of the dict. *)
Lemma setdefault_append_perm {K V : Type} `{EqDecision K} (key : K) (v : V)
  (d : list (K * list V)) :
  List.concat (values (setdefault_append key v d))
  ≡ₚ List.concat (values d) ++ [v].
Proof.
  unfold values. induction d as [|[k vs] d IH]; simpl; [reflexivity|].
  destruct (decide (k = key)); simpl.
  - rewrite <- !app_assoc. f_equiv. apply Permutation_app_comm.
  - rewrite IH, <- app_assoc. reflexivity.
Qed.

(** The value added is under the key given. *)
Lemma setdefault_append_elem_key {K V : Type} `{EqDecision K} (key : K)
  (v : V) (d : list (K * list V)) (k : K) (vs : list V) (x : V) :
  (k, vs) ∈ setdefault_append key v d -> x ∈ vs ->
  (k = key /\ x = v) \/ exists vs', (k, vs') ∈ d /\ x ∈ vs'.
Proof.
  induction d as [|[k0 vs0] d IH]; simpl; intros Hin Hx.
  - apply list_elem_of_singleton in Hin as [= -> ->].
    apply list_elem_of_singleton in Hx. auto.
  - destruct (decide (k0 = key)) as [->|Hne].
    + apply elem_of_cons in Hin as [[= -> ->]|Hin].
      * apply elem_of_app in Hx as [Hx|Hx].
        -- right. exists vs0. split; [apply list_elem_of_here | exact Hx].
        -- apply list_elem_of_singleton in Hx. auto.
      * right. exists vs. split; [apply list_elem_of_further | ]; assumption.
    + apply elem_of_cons in Hin as [[= -> ->]|Hin].
      * right. exists vs0. split; [apply list_elem_of_here | exact Hx].
      * destruct (IH Hin Hx) as [[-> ->]|(vs' & Hvs' & Hx')]; [auto|].
        right. exists vs'. split; [apply list_elem_of_further | ]; assumption.
Qed.

(** *** The contrasts *)

Lemma contrast_step_made (n : nat) (mf_id : ident) (stat_dir : string)
  (dof : Q) (st st' : FSLtoNIDMExporter * mapping) (filename : string) :
  contrast_step n mf_id stat_dir dof st filename = Ok st' ->
  exists con, contrast_of_file stat_dir filename con
              /\ st'.2 = setdefault_append (mf_id, []) con st.2.
Proof.
  destruct st as [self m]. unfold contrast_step. intros H.
  apply bind_Ok in H as (zstatnum & Hz & H).
  apply bind_Ok in H as (stat_num & _ & H).
  apply bind_Ok in H as ([stat_type con_num] & Hstat & H).
  apply bind_Ok in H as (name & _ & H).
  cbn [fresh_id] in H.
  apply bind_Ok in H as (pe_ids & Hpe & [= <-]).
  apply find_pe_ids_empty in Hpe. subst pe_ids.
  eexists. split; [|reflexivity].
  exists zstatnum, stat_type. split; [exact Hz|]. split.
  - destruct (stat_of zstatnum) as [ts|]; [|discriminate].
    injection Hstat as ->. reflexivity.
  - cbn. auto 10.
Qed.

Lemma contrast_loop_made (n : nat) (mf_id : ident) (stat_dir : string)
  (dof : Q) (files : list string) :
  forall st st' : FSLtoNIDMExporter * mapping,
    st.2 = [] \/ (exists cs, st.2 = [((mf_id, []), cs)]) ->
    for_each (contrast_step n mf_id stat_dir dof) files st = Ok st' ->
    (st'.2 = [] \/ (exists cs, st'.2 = [((mf_id, []), cs)]))
    /\ exists new,
        all_contrasts st'.2 = all_contrasts st.2 ++ new
        /\ Forall2 (contrast_of_file stat_dir) files new.
Proof.
  induction files as [|f files IH]; intros st st' Hst; simpl.
  - intros [= <-]. split; [exact Hst|]. exists []. rewrite app_nil_r.
    split; [reflexivity | constructor].
  - intros H. apply bind_Ok in H as (st1 & Hstep & H).
    apply contrast_step_made in Hstep as (con & Hcon & Hst1).
    destruct (setdefault_append_single (mf_id, []) con st.2 Hst)
      as (cs & Hcs & Hall).
    rewrite Hcs in Hst1.
    destruct (IH st1 st' (or_intror (ex_intro _ cs Hst1)) H)
      as (Hkey & new & Hnew & Hfiles).
    split; [exact Hkey|]. exists (con :: new). split.
    + rewrite Hnew. unfold all_contrasts.
      transitivity ((List.concat (values st.2) ++ [con]) ++ new);
        [|rewrite <- app_assoc; reflexivity].
      f_equal. rewrite Hst1. exact Hall.
    + constructor; assumption.
Qed.

Lemma contrasts_of_dir_made (fs : FileSystem) (mf_id : ident)
  (stat_dir : string) (dof : Q) (st st' : FSLtoNIDMExporter * option mapping)
  (analysis_dir : string) :
  contrasts_of_dir fs mf_id stat_dir dof st analysis_dir = Ok st' ->
  exists m,
    st'.2 = Some m
    /\ Forall (fun kv => kv.1 = (mf_id, [])) m
    /\ Forall2 (contrast_of_file stat_dir) (exc_sets_of fs analysis_dir)
         (all_contrasts m).
Proof.
  unfold contrasts_of_dir. intros H.
  apply bind_Ok in H as (st1 & Hrun & [= <-]).
  apply contrast_loop_made in Hrun as (Hkey & new & Hnew & Hfiles);
    [|left; reflexivity].
  exists st1.2. split; [reflexivity|]. split.
  - destruct Hkey as [->|[cs ->]]; repeat constructor.
  - rewrite Hnew. exact Hfiles.
Qed.

(** X8.  The mapping that [_find_contrasts] returns holds the contrasts of
    the excursion sets of the last analysis directory and no other one: one
    [Contrast] for each excursion set, in the order of the listing, with
    the number and the statistic type read in the name of its file and
    with its maps in the [stats] directory of the last analysis directory;
    all of them are under the one key of the model fitting of this
    directory with an empty tuple.  What the turns for the directories
    before have put in [contrasts] is gone with their dicts.  (The file
    [dof] of every directory holds a number in decimal notation.) *)
Theorem find_contrasts_of_last_directory (fs : FileSystem)
  (self self' : FSLtoNIDMExporter) (dirs : list string) (last : string)
  (m : mapping) :
  analysis_dirs self = dirs ++ [last] ->
  _find_contrasts fs self = Ok (m, self') ->
  exists model_fitting,
    assoc last (model_fittings self) = Some model_fitting
    /\ Forall (fun kv => kv.1 = (activity_id model_fitting, [])) m
    /\ Forall2 (contrast_of_file (os.path.join last "stats"))
         (exc_sets_of fs last) (all_contrasts m).
Proof.
  intros Hdirs H. unfold _find_contrasts in H.
  apply bind_Ok in H as (st & Hrun & H).
  apply bind_Ok in H as (m' & Hlocal & [= <- <-]).
  rewrite Hdirs in Hrun.
  apply for_each_snoc in Hrun as (st1 & Hfirst & Hlast).
  assert (Hsame : same_inputs self st1.1).
  { revert Hfirst. apply (for_each_invariant _ (fun s => same_inputs self s.1)).
    - intros s d s' _ [Hd Hm] Hstep.
      apply contrasts_step_inputs in Hstep as [Hd' Hm']. split; congruence.
    - split; reflexivity. }
  destruct Hsame as [Hd Hm]. unfold contrasts_step in Hlast.
  apply bind_Ok in Hlast as (mf & Hmf & Hlast).
  apply bind_Ok in Hlast as (txt & _ & Hlast).
  apply bind_Ok in Hlast as (dof & _ & Hlast).
  rewrite <- Hd, Hdirs in Hlast.
  apply for_each_snoc in Hlast as (st2 & _ & Hlast).
  apply contrasts_of_dir_made in Hlast as (m2 & Hm2 & Hkeys & Hfiles).
  rewrite Hm2 in Hlocal. injection Hlocal as <-.
  exists mf. split; [|split; assumption].
  unfold getitem in Hmf. rewrite <- Hm in Hmf.
  destruct (assoc last (model_fittings self)); [congruence | discriminate].
Qed.

(** On the second-level analysis with two contrast directories, and on the
    analysis [run.feat] with two excursion sets. *)
Lemma find_contrasts_of_last_directory_run :
  (r <- _find_contrasts fs_two_sets self_two_sets ;;
   Ok (map (fun kv => (kv.1, map (fun c => cm_file (contrast_map c)) kv.2))
         r.1))
  = Ok [((100%nat, []), ["run.feat/stats/cope1.nii.gz";
                         "run.feat/stats/cope2.nii.gz"])]
  /\ exists m self' model_fitting,
      _find_contrasts fs_level2 self_level2 = Ok (m, self')
      /\ assoc "g.gfeat/cope2.feat" (model_fittings self_level2)
         = Some model_fitting
      /\ Forall (fun kv => kv.1 = (activity_id model_fitting, [])) m
      /\ Forall2 (contrast_of_file
                    (os.path.join "g.gfeat/cope2.feat" "stats"))
           (exc_sets_of fs_level2 "g.gfeat/cope2.feat") (all_contrasts m).
Proof.
  split; [vm_compute; reflexivity|].
  destruct (is_ok_Ok (_find_contrasts fs_level2 self_level2)
              ltac:(vm_compute; reflexivity)) as [[m self'] E].
  destruct (find_contrasts_of_last_directory fs_level2 self_level2 self'
              ["g.gfeat/cope1.feat"] "g.gfeat/cope2.feat" m eq_refl E)
    as (mf & Hmf & Hkeys & Hfiles).
  exists m, self', mf. auto.
Defined.

(** X9.  Without analysis directory (a higher-level analysis in which no
    [cope*.feat] directory is found) [_find_contrasts] raises an
    [UnboundLocalError], the variable [contrasts] of its [return] never
    being assigned, whereas [_find_inferences] returns an empty dict. *)
Theorem no_analysis_directory (fs : FileSystem)
  (search_space_of : string -> res SearchSpace) (self : FSLtoNIDMExporter) :
  analysis_dirs self = [] ->
  _find_contrasts fs self = Raise UnboundLocalError
  /\ _find_inferences fs search_space_of self = Ok [].
Proof.
  intros Hdirs. unfold _find_contrasts, _find_inferences. rewrite Hdirs.
  split; reflexivity.
Qed.

Lemma no_analysis_directory_gfeat :
  _find_contrasts fs_level2 (exporter_of "g.gfeat" EmptyString None false [])
  = Raise UnboundLocalError
  /\ _find_inferences fs_level2 some_search_space
       (exporter_of "g.gfeat" EmptyString None false []) = Ok [].
Proof.
  exact (no_analysis_directory fs_level2 some_search_space
           (exporter_of "g.gfeat" EmptyString None false []) eq_refl).
Defined.

(** *** The contrast of an excursion set *)

(** The loop of lines 328-335 on a list of contrasts: [con_id] is left as it
    was when no contrast has the number, and is the identifier of the last
    one that has it otherwise. *)
Lemma match_loop_last (stat_num : string) (cs : list Contrast) :
  forall (acc r : option ident),
    for_each (match_contrast stat_num) cs acc = Ok r ->
    (r = acc /\ Forall (fun c => contrast_number c <> Ok stat_num) cs)
    \/ exists l1 c l2,
        cs = l1 ++ c :: l2
        /\ contrast_number c = Ok stat_num
        /\ r = Some (ce_id (estimation c))
        /\ Forall (fun c' => contrast_number c' <> Ok stat_num) l2.
Proof.
  induction cs as [|c cs IH]; intros acc r; simpl.
  - intros [= <-]. left. split; [reflexivity | constructor].
  - intros H. apply bind_Ok in H as (acc1 & Hstep & H).
    unfold match_contrast in Hstep.
    apply bind_Ok in Hstep as (num & Hnum & Hstep).
    destruct (IH _ _ H) as [[-> Hall]|(l1 & c' & l2 & -> & Hc' & -> & Hall)].
    + destruct (String.eqb_spec num stat_num) as [->|Hne].
      * injection Hstep as <-. right. exists [], c, cs. auto.
      * injection Hstep as <-. left. split; [reflexivity|].
        constructor; [congruence | exact Hall].
    + right. exists (c :: l1), c', l2. auto.
Qed.

(** X10.  The contrast estimation that [_find_inferences] looks up for an
    excursion set (lines 326-336) is the one of the last contrast, in the
    order of [self.contrasts.values()] and of the lists in it, whose
    contrast map is a file [cope<N>.nii.gz] with N the number of the
    excursion set: the loops do not stop at the first one found. *)
Theorem find_con_id_last_match (self : FSLtoNIDMExporter) (stat_num : string)
  (con_id : ident) :
  find_con_id self stat_num = Ok con_id ->
  exists l1 c l2,
    all_contrasts (contrasts self) = l1 ++ c :: l2
    /\ contrast_number c = Ok stat_num
    /\ ce_id (estimation c) = con_id
    /\ Forall (fun c' => contrast_number c' <> Ok stat_num) l2.
Proof.
  unfold find_con_id. rewrite for_each_concat. intros H.
  apply bind_Ok in H as (r & Hrun & H).
  destruct (match_loop_last _ _ _ _ Hrun)
    as [[-> _]|(l1 & c & l2 & Hcs & Hc & -> & Hall)]; [discriminate|].
  injection H as <-. exists l1, c, l2. auto.
Qed.

(** With two contrast maps [cope1.nii.gz], of the estimations 7 and 9, the
    excursion set of the statistic 1 goes to the estimation 9. *)
Lemma find_con_id_last_match_two_copes :
  find_con_id self_two_copes "1" = Ok 9%nat
  /\ exists l1 c l2,
      all_contrasts (contrasts self_two_copes) = l1 ++ c :: l2
      /\ contrast_number c = Ok "1"
      /\ ce_id (estimation c) = 9%nat
      /\ Forall (fun c' => contrast_number c' <> Ok "1") l2.
Proof.
  assert (E : find_con_id self_two_copes "1" = Ok 9%nat)
    by (vm_compute; reflexivity).
  split; [exact E|]. exact (find_con_id_last_match self_two_copes "1" 9%nat E).
Defined.

(** *** The inferences *)

(** What [inference_of] has gone through when it returns. *)
Lemma inference_of_parts (fs : FileSystem)
  (search_space_of : string -> res SearchSpace) (self : FSLtoNIDMExporter)
  (analysis_dir : string) (n : nat) (filename : string)
  (r : ident * Inference) :
  inference_of fs search_space_of self analysis_dir n filename = Ok r ->
  exists zstatnum stat_type stat_num prob z code cc mask,
    found_group0 (re.search zstat_re filename) = Ok zstatnum
    /\ stat_of zstatnum = Some (stat_type, stat_num)
    /\ find_con_id self stat_num = Ok r.1
    /\ float_in_fsf self prob_re = Ok prob
    /\ float_in_fsf self z_re = Ok z
    /\ int_in_fsf self type_re = Ok code
    /\ clusters_and_criteria fs self code stat_num = Ok cc
    /\ find_display_mask self stat_num = Ok mask
    /\ ia_stat_num (inference_act r.2) = stat_num
    /\ es_file (exc_set r.2)
       = os.path.join analysis_dir ("thresh_zstat" +:+ stat_num +:+ ".nii.gz")
    /\ height_thresh r.2 = (thresholds code prob z).1
    /\ extent_thresh r.2 = (thresholds code prob z).2
    /\ display_mask r.2 = mask.
Proof.
  intros H. unfold inference_of in H.
  apply bind_Ok in H as (zstatnum & Hz & H).
  apply bind_Ok in H as (stat_num_t & _ & H).
  apply bind_Ok in H as ([stat_type stat_num] & Hstat & H).
  apply bind_Ok in H as (con_id & Hcon & H).
  apply bind_Ok in H as (name & _ & H).
  apply bind_Ok in H as (prob & Hprob & H).
  apply bind_Ok in H as (z & Hzt & H).
  apply bind_Ok in H as (code & Hcode & H).
  destruct (thresholds code prob z) as [height extent] eqn:Hth.
  apply bind_Ok in H as ([[cls pc] ccr] & Hcc & H).
  apply bind_Ok in H as (mask & Hmask & H).
  apply bind_Ok in H as (ss & _ & [= <-]).
  exists zstatnum, stat_type, stat_num, prob, z, code, (cls, pc, ccr), mask.
  rewrite Hth. destruct (stat_of zstatnum) as [ts|]; [|discriminate].
  injection Hstat as ->. simpl. repeat (split; [assumption || reflexivity|]).
  reflexivity.
Qed.

(** What holds of every [Inference] returned by [inference_of], with the key
    it is filed under, holds of every one of the mapping. *)
Lemma find_inferences_invariant (fs : FileSystem)
  (search_space_of : string -> res SearchSpace) (self : FSLtoNIDMExporter)
  (P : ident -> Inference -> Prop) :
  (forall analysis_dir n filename r,
      inference_of fs search_space_of self analysis_dir n filename = Ok r ->
      P r.1 r.2) ->
  forall result,
    _find_inferences fs search_space_of self = Ok result ->
    forall id infs inf, (id, infs) ∈ result -> inf ∈ infs -> P id inf.
Proof.
  intros Hone result Hrun. unfold _find_inferences in Hrun. revert Hrun.
  set (Inv := fun m : inferences_mapping =>
              forall id infs inf, (id, infs) ∈ m -> inf ∈ infs -> P id inf).
  apply (for_each_invariant _ Inv).
  - intros m d m' _ Hm. unfold inferences_of_dir.
    apply (for_each_invariant _ Inv); [|exact Hm].
    intros m1 f m1' _ Hm1 Hstep id infs inf Hin Hinf.
    unfold inference_step in Hstep.
    apply bind_Ok in Hstep as (r & Hr & [= <-]).
    destruct (setdefault_append_elem_key _ _ _ _ _ _ Hin Hinf)
      as [[-> ->]|(infs' & Hin' & Hinf')].
    + eapply Hone. exact Hr.
    + eapply Hm1; eassumption.
  - intros id infs inf Hin. inversion Hin.
Qed.

(** X11.  Every [Inference] of the mapping that [_find_inferences] returns
    is filed under the identifier of the estimation of a known contrast
    whose contrast map is the file [cope<N>.nii.gz], N being the statistic
    number of the inference activity. *)
Theorem inference_filed_under_its_contrast (fs : FileSystem)
  (search_space_of : string -> res SearchSpace) (self : FSLtoNIDMExporter)
  (result : inferences_mapping) :
  _find_inferences fs search_space_of self = Ok result ->
  forall id infs inf,
    (id, infs) ∈ result -> inf ∈ infs ->
    exists c,
      c ∈ all_contrasts (contrasts self)
      /\ ce_id (estimation c) = id
      /\ contrast_number c = Ok (ia_stat_num (inference_act inf)).
Proof.
  apply (find_inferences_invariant fs search_space_of self
           (fun id inf =>
              exists c, c ∈ all_contrasts (contrasts self)
                        /\ ce_id (estimation c) = id
                        /\ contrast_number c
                           = Ok (ia_stat_num (inference_act inf)))).
  intros d n f r Hr.
  apply inference_of_parts in Hr
    as (zn & ty & num & prob & z & code & cc & mask & _ & _ & Hcon & _ & _
        & _ & _ & _ & Hnum & _).
  unfold find_con_id in Hcon. rewrite for_each_concat in Hcon.
  apply bind_Ok in Hcon as (r0 & Hrun & Hcon).
  destruct (match_loop_last _ _ _ _ Hrun)
    as [[-> _]|(l1 & c & l2 & Hcs & Hc & -> & _)]; [discriminate|].
  injection Hcon as Hid. exists c. split; [|split].
  - unfold all_contrasts. rewrite Hcs. apply elem_of_app. right.
    apply list_elem_of_here.
  - exact Hid.
  - rewrite Hnum. exact Hc.
Qed.

(** On the analysis [run.feat]. *)
Lemma inference_filed_under_its_contrast_run :
  exists result,
    _find_inferences fs_run some_search_space (self_ready "1") = Ok result
    /\ forall id infs inf,
        (id, infs) ∈ result -> inf ∈ infs ->
        exists c,
          c ∈ all_contrasts (contrasts (self_ready "1"))
          /\ ce_id (estimation c) = id
          /\ contrast_number c = Ok (ia_stat_num (inference_act inf)).
Proof.
  destruct (is_ok_Ok (_find_inferences fs_run some_search_space
                        (self_ready "1")) ltac:(vm_compute; reflexivity))
    as [result E].
  exists result. split; [exact E|].
  exact (inference_filed_under_its_contrast _ _ _ _ E).
Defined.

Lemma inference_loop_made (fs : FileSystem)
  (search_space_of : string -> res SearchSpace) (self : FSLtoNIDMExporter)
  (analysis_dir : string) (files : list string) :
  forall m m' : inferences_mapping,
    for_each (inference_step fs search_space_of self analysis_dir
                (length (exc_sets_of fs analysis_dir))) files m = Ok m' ->
    exists rs,
      Forall2 (inference_of_file fs search_space_of self)
        (map (pair analysis_dir) files) rs
      /\ m' = fold_left (fun d r => setdefault_append r.1 r.2 d) rs m.
Proof.
  induction files as [|f files IH]; intros m m'; simpl.
  - intros [= <-]. exists []. split; [constructor | reflexivity].
  - intros H. apply bind_Ok in H as (m1 & Hstep & H).
    unfold inference_step in Hstep.
    apply bind_Ok in Hstep as (r & Hr & [= <-]).
    destruct (IH _ _ H) as (rs & Hrs & ->). exists (r :: rs).
    split; [|reflexivity]. constructor; [|exact Hrs].
    split; [exact Hr|]. cbn [fst snd] in Hr |- *.
    apply inference_of_parts in Hr
      as (zn & ty & num & prob & z & code & cc & mask & Hz & Hstat & _ & _
          & _ & _ & _ & _ & Hnum & Hfile & _).
    exists zn, ty. rewrite Hnum. auto.
Qed.

Lemma inferences_loop_made (fs : FileSystem)
  (search_space_of : string -> res SearchSpace) (self : FSLtoNIDMExporter)
  (dirs : list string) :
  forall m m' : inferences_mapping,
    for_each (inferences_of_dir fs search_space_of self) dirs m = Ok m' ->
    exists rs,
      Forall2 (inference_of_file fs search_space_of self)
        (List.concat
           (map (fun d => map (pair d) (exc_sets_of fs d)) dirs)) rs
      /\ m' = fold_left (fun d r => setdefault_append r.1 r.2 d) rs m.
Proof.
  induction dirs as [|d dirs IH]; intros m m'; simpl.
  - intros [= <-]. exists []. split; [constructor | reflexivity].
  - intros H. apply bind_Ok in H as (m1 & Hdir & H).
    unfold inferences_of_dir in Hdir.
    apply (inference_loop_made fs search_space_of self d) in Hdir
      as (rs1 & Hrs1 & ->).
    destruct (IH _ _ H) as (rs & Hrs & ->). exists (rs1 ++ rs). split.
    + apply Forall2_app; assumption.
    + rewrite fold_left_app. reflexivity.
Qed.

Lemma grouping_perm {K V : Type} `{EqDecision K} (rs : list (K * V)) :
  forall d : list (K * list V),
    List.concat (values (fold_left (fun d r => setdefault_append r.1 r.2 d)
                           rs d))
    ≡ₚ List.concat (values d) ++ map snd rs.
Proof.
  induction rs as [|r rs IH]; intros d; simpl.
  - rewrite app_nil_r. reflexivity.
  - rewrite IH, setdefault_append_perm, <- app_assoc. reflexivity.
Qed.

(** X12.  Each excursion set listed in an analysis directory gives one
    [Inference], the one of the body of the loop for this file, whose
    statistic number is read in the name of the file: the mapping that
    [_find_inferences] returns is the dict built from these inferences,
    taken in the order of the directories and of the listings and each
    appended under its key, so that it holds them all, those of the
    directories before included, and nothing else. *)
Theorem one_inference_per_excursion_set (fs : FileSystem)
  (search_space_of : string -> res SearchSpace) (self : FSLtoNIDMExporter)
  (result : inferences_mapping) :
  _find_inferences fs search_space_of self = Ok result ->
  exists rs,
    Forall2 (inference_of_file fs search_space_of self)
      (listed_excursion_sets fs self) rs
    /\ result = group_by_key rs
    /\ all_inferences result ≡ₚ map snd rs.
Proof.
  unfold _find_inferences. intros H.
  apply inferences_loop_made in H as (rs & Hrs & ->).
  exists rs. split; [exact Hrs|]. split; [reflexivity|].
  unfold all_inferences. rewrite grouping_perm. reflexivity.
Qed.

(** On the analysis [run.feat] with two excursion sets. *)
Lemma one_inference_per_excursion_set_run :
  (result <- _find_inferences fs_two_sets some_search_space
               (after_contrasts fs_two_sets self_two_sets) ;;
   Ok (map (fun inf => es_file (exc_set inf)) (all_inferences result)))
  = Ok ["run.feat/thresh_zstat1.nii.gz"; "run.feat/thresh_zstat2.nii.gz"]
  /\ exists result rs,
      _find_inferences fs_two_sets some_search_space
        (after_contrasts fs_two_sets self_two_sets) = Ok result
      /\ Forall2 (inference_of_file fs_two_sets some_search_space
                    (after_contrasts fs_two_sets self_two_sets))
           (listed_excursion_sets fs_two_sets
              (after_contrasts fs_two_sets self_two_sets)) rs
      /\ result = group_by_key rs
      /\ all_inferences result ≡ₚ map snd rs.
Proof.
  split; [vm_compute; reflexivity|].
  destruct (is_ok_Ok (_find_inferences fs_two_sets some_search_space
                        (after_contrasts fs_two_sets self_two_sets))
              ltac:(vm_compute; reflexivity)) as [result E].
  destruct (one_inference_per_excursion_set _ _ _ _ E)
    as (rs & Hrs & Hresult & Hperm).
  exists result, rs. auto.
Defined.

Lemma find_display_mask_spec (self : FSLtoNIDMExporter) (stat_num : string)
  (mask : option DisplayMaskMap) :
  find_display_mask self stat_num = Ok mask ->
  exists m g,
    re.search conmask_re (design_txt self) = Some m
    /\ int_of_group m "con_maskg" = Ok g
    /\ (is_Some mask <-> g <> 0)
    /\ forall dm, mask = Some dm ->
                  dm_file dm = os.path.join (feat_dir self) "mask.nii.gz".
Proof.
  unfold find_display_mask.
  destruct (re.search conmask_re (design_txt self)) as [m|]; [|discriminate].
  intros H. apply bind_Ok in H as (g & Hg & H). exists m, g.
  split; [reflexivity|]. split; [exact Hg|].
  destruct (Z.eqb_spec g 0) as [->|Hne]; simpl in H; injection H as <-.
  - split; [split; [intros [x Hx]; discriminate | congruence]|].
    intros dm; discriminate.
  - split; [split; [auto | eauto]|]. intros dm [= <-]. reflexivity.
Qed.

(** X13.  The thresholds are read from the design file of the study, not for
    each excursion set: any two inferences of the mapping that
    [_find_inferences] returns have the same height threshold and the
    same extent threshold, both have a display mask or none has, and a
    display mask is always the file [mask.nii.gz] of the FEAT directory. *)
Theorem inferences_share_thresholds (fs : FileSystem)
  (search_space_of : string -> res SearchSpace) (self : FSLtoNIDMExporter)
  (result : inferences_mapping) :
  _find_inferences fs search_space_of self = Ok result ->
  forall id1 infs1 inf1 id2 infs2 inf2,
    (id1, infs1) ∈ result -> inf1 ∈ infs1 ->
    (id2, infs2) ∈ result -> inf2 ∈ infs2 ->
    height_thresh inf1 = height_thresh inf2
    /\ extent_thresh inf1 = extent_thresh inf2
    /\ (is_Some (display_mask inf1) <-> is_Some (display_mask inf2))
    /\ forall dm, display_mask inf1 = Some dm ->
                  dm_file dm = os.path.join (feat_dir self) "mask.nii.gz".
Proof.
  intros Hrun.
  set (P := fun (_ : ident) (inf : Inference) =>
              exists prob z code m g,
                float_in_fsf self prob_re = Ok prob
                /\ float_in_fsf self z_re = Ok z
                /\ int_in_fsf self type_re = Ok code
                /\ re.search conmask_re (design_txt self) = Some m
                /\ int_of_group m "con_maskg" = Ok g
                /\ height_thresh inf = (thresholds code prob z).1
                /\ extent_thresh inf = (thresholds code prob z).2
                /\ (is_Some (display_mask inf) <-> g <> 0)
                /\ forall dm, display_mask inf = Some dm ->
                              dm_file dm
                              = os.path.join (feat_dir self) "mask.nii.gz").
  assert (Hall : forall id infs inf,
             (id, infs) ∈ result -> inf ∈ infs -> P id inf).
  { apply (find_inferences_invariant fs search_space_of self P); [|exact Hrun].
    intros d n f r Hr.
    apply inference_of_parts in Hr
      as (zn & ty & num & prob & z & code & cc & mask & _ & _ & _ & Hprob
          & Hz & Hcode & _ & Hmask & _ & _ & Hh & He & Hdm).
    apply find_display_mask_spec in Hmask as (m & g & Hm & Hg & Hsome & Hfile).
    exists prob, z, code, m, g. rewrite Hdm. auto 10. }
  intros id1 infs1 inf1 id2 infs2 inf2 Hin1 Hinf1 Hin2 Hinf2.
  destruct (Hall _ _ _ Hin1 Hinf1)
    as (p1 & z1 & c1 & m1 & g1 & Hp1 & Hz1 & Hc1 & Hm1 & Hg1 & Hh1 & He1
        & Hs1 & Hf1).
  destruct (Hall _ _ _ Hin2 Hinf2)
    as (p2 & z2 & c2 & m2 & g2 & Hp2 & Hz2 & Hc2 & Hm2 & Hg2 & Hh2 & He2
        & Hs2 & _).
  rewrite Hp1 in Hp2. injection Hp2 as <-. rewrite Hz1 in Hz2.
  injection Hz2 as <-. rewrite Hc1 in Hc2. injection Hc2 as <-.
  rewrite Hm1 in Hm2. injection Hm2 as <-. rewrite Hg1 in Hg2.
  injection Hg2 as <-.
  split; [congruence|]. split; [congruence|]. split; [tauto | exact Hf1].
Qed.

Lemma inferences_share_thresholds_run :
  exists result,
    _find_inferences fs_run some_search_space (self_ready "3") = Ok result
    /\ forall id1 infs1 inf1 id2 infs2 inf2,
        (id1, infs1) ∈ result -> inf1 ∈ infs1 ->
        (id2, infs2) ∈ result -> inf2 ∈ infs2 ->
        height_thresh inf1 = height_thresh inf2
        /\ extent_thresh inf1 = extent_thresh inf2
        /\ (is_Some (display_mask inf1) <-> is_Some (display_mask inf2))
        /\ forall dm, display_mask inf1 = Some dm ->
                      dm_file dm
                      = os.path.join (feat_dir (self_ready "3")) "mask.nii.gz".
Proof.
  destruct (is_ok_Ok (_find_inferences fs_run some_search_space
                        (self_ready "3")) ltac:(vm_compute; reflexivity))
    as [result E].
  exists result. split; [exact E|].
  exact (inferences_share_thresholds _ _ _ _ E).
Defined.

(** X14.  With cluster thresholding (type 3) and a log of the
    post-processing that has no [--connectivity=] option,
    [_get_connectivity] raises an [AttributeError] (the log being absent it
    returns [None]): no [Inference] is assembled for any excursion set, and
    [_find_inferences] raises as soon as there is one. *)
Theorem missing_connectivity_is_fatal (fs : FileSystem)
  (search_space_of : string -> res SearchSpace) (self : FSLtoNIDMExporter)
  (log : string) :
  feat_post_log self = Some log ->
  re.search (option_re "--connectivity" "connectivity") log = None ->
  int_in_fsf self type_re = Ok 3 ->
  _get_connectivity self = Raise AttributeError
  /\ (forall analysis_dir n filename,
         exists e, inference_of fs search_space_of self analysis_dir n
                     filename = Raise e)
  /\ (forall analysis_dir filename,
         analysis_dir ∈ analysis_dirs self ->
         filename ∈ exc_sets_of fs analysis_dir ->
         exists e, _find_inferences fs search_space_of self = Raise e).
Proof.
  intros Hlog Hnone Hcode.
  assert (Hconn : _get_connectivity self = Raise AttributeError).
  { unfold _get_connectivity. rewrite Hlog, Hnone. reflexivity. }
  assert (Hinf : forall d n f,
             exists e, inference_of fs search_space_of self d n f = Raise e).
  { intros d n f.
    destruct (inference_of fs search_space_of self d n f) as [r|e] eqn:E;
      [exfalso | eauto].
    apply inference_of_parts in E
      as (zn & ty & num & prob & z & code & cc & mask & _ & _ & _ & _ & _
          & Hcode' & Hcc & _).
    rewrite Hcode in Hcode'. injection Hcode' as <-.
    unfold clusters_and_criteria in Hcc. cbn [Z.eqb Pos.eqb] in Hcc.
    apply bind_Ok in Hcc as (cls & _ & Hcc).
    apply bind_Ok in Hcc as (np & _ & Hcc).
    apply bind_Ok in Hcc as (pd & _ & Hcc).
    rewrite Hconn in Hcc. discriminate. }
  split; [exact Hconn|]. split; [exact Hinf|].
  intros d f Hd Hf. unfold _find_inferences.
  apply (for_each_raises _ _ d Hd). intros st. unfold inferences_of_dir.
  apply (for_each_raises _ _ f Hf). intros st'. unfold inference_step.
  destruct (Hinf d (length (glob.glob fs (os.path.join d "thresh_z*.nii.gz")))
              f) as [e ->].
  cbn [bind]. eauto.
Qed.

(** On the analysis [run.feat] with a log that gives [--num] and
    [--peakdist] only: the two of them are read, the connectivity is not. *)
Lemma missing_connectivity_is_fatal_run :
  _get_num_peaks
    (with_texts (self_ready "3") (design_fsf "3")
       (Some log_without_connectivity)) = Ok (Some 6)
  /\ _get_peak_dist
       (with_texts (self_ready "3") (design_fsf "3")
          (Some log_without_connectivity)) = Ok (8 # 1)
  /\ _get_connectivity
       (with_texts (self_ready "3") (design_fsf "3")
          (Some log_without_connectivity)) = Raise AttributeError
  /\ exists e,
      _find_inferences fs_run some_search_space
        (with_texts (self_ready "3") (design_fsf "3")
           (Some log_without_connectivity)) = Raise e.
Proof.
  destruct (missing_connectivity_is_fatal fs_run some_search_space
              (with_texts (self_ready "3") (design_fsf "3")
                 (Some log_without_connectivity))
              log_without_connectivity eq_refl)
    as (Hconn & _ & Hall).
  - vm_compute. reflexivity.
  - vm_compute. reflexivity.
  - split; [vm_compute; reflexivity|]. split; [vm_compute; reflexivity|].
    split; [exact Hconn|].
    apply (Hall "run.feat" "run.feat/thresh_zstat1.nii.gz").
    + vm_compute. apply list_elem_of_here.
    + vm_compute. apply list_elem_of_here.
Defined.

(** X15.  The [ExcursionSet] of an inference is given the file
    [thresh_zstat<N>.nii.gz] of the analysis directory, N being the number
    read from the name that the listing has given, whatever the type of the
    statistic: for the name [thresh_zfstat<N>.nii.gz] of an F statistic it
    is not the file listed. *)
Theorem excursion_set_file_of_number (fs : FileSystem)
  (search_space_of : string -> res SearchSpace) (self : FSLtoNIDMExporter)
  (analysis_dir : string) (n : nat) (filename zstatnum stat_type stat_num
    : string) (r : ident * Inference) :
  found_group0 (re.search zstat_re filename) = Ok zstatnum ->
  stat_of zstatnum = Some (stat_type, stat_num) ->
  inference_of fs search_space_of self analysis_dir n filename = Ok r ->
  es_file (exc_set r.2)
  = os.path.join analysis_dir ("thresh_zstat" +:+ stat_num +:+ ".nii.gz").
Proof.
  intros Hz Hstat Hr.
  apply inference_of_parts in Hr
    as (zn & ty & num & prob & z & code & cc & mask & Hz' & Hstat' & _ & _
        & _ & _ & _ & _ & _ & Hfile & _).
  rewrite Hz in Hz'. injection Hz' as <-. rewrite Hstat in Hstat'.
  injection Hstat' as <- <-. exact Hfile.
Qed.

(** On the analysis [run.feat] with the excursion set of the F statistic
    1. *)
Lemma excursion_set_file_of_number_zfstat :
  exists r,
    inference_of fs_zfstat1 some_search_space (self_ready "1") "run.feat" 1
      "run.feat/thresh_zfstat1.nii.gz" = Ok r
    /\ es_file (exc_set r.2) = "run.feat/thresh_zstat1.nii.gz".
Proof.
  destruct (is_ok_Ok
              (inference_of fs_zfstat1 some_search_space (self_ready "1")
                 "run.feat" 1 "run.feat/thresh_zfstat1.nii.gz")
              ltac:(vm_compute; reflexivity)) as [r E].
  exists r. split; [exact E|].
  refine (excursion_set_file_of_number fs_zfstat1 some_search_space
            (self_ready "1") "run.feat" 1 "run.feat/thresh_zfstat1.nii.gz"
            "zfstat1" "F" "1" r _ _ E); vm_compute; reflexivity.
Defined.

(** ** The tables of clusters and peaks *)

(** X16.  When none of the four tables of a statistic is there, in any of
    the analysis directories, [_get_clusters_peaks] returns an empty list
    of clusters: every loop over rows is skipped. *)
Theorem no_tables_no_clusters (fs : FileSystem) (self : FSLtoNIDMExporter)
  (stat_num : string) :
  (forall analysis_dir file,
      analysis_dir ∈ analysis_dirs self ->
      file ∈ table_files analysis_dir stat_num ->
      os.path.isfile fs file = false) ->
  _get_clusters_peaks fs self stat_num = Ok [].
Proof.
  intros Hno. unfold _get_clusters_peaks.
  rewrite (for_each_fix _ _ ([], None)); [reflexivity|].
  intros d Hd. unfold clusters_peaks_step, read_tables, optional_table.
  rewrite !(Hno d _ Hd) by (unfold table_files; repeat constructor).
  reflexivity.
Qed.

(** On a directory [run.feat] without tables. *)
Lemma no_tables_no_clusters_run :
  _get_clusters_peaks (fs_of [] [] []) self_run "1" = Ok [].
Proof.
  apply (no_tables_no_clusters (fs_of [] [] []) self_run "1").
  intros d f _ _. reflexivity.
Defined.

(** X17.  When the peak table in voxels and the one in mm of the first
    analysis directory are both there and do not have the same number of
    rows, [np.column_stack] fails and [_get_clusters_peaks] raises a
    [ValueError]. *)
Theorem uneven_peak_tables (fs : FileSystem) (self : FSLtoNIDMExporter)
  (stat_num : string) (analysis_dir : string) (dirs : list string)
  (t : tables) (rows rows_std : table) :
  analysis_dirs self = analysis_dir :: dirs ->
  read_tables fs analysis_dir stat_num = Ok t ->
  peak_table t = Some rows -> peak_std_table t = Some rows_std ->
  length rows <> length rows_std ->
  _get_clusters_peaks fs self stat_num = Raise ValueError.
Proof.
  intros Hdirs Ht Hrows Hstd Hne. unfold _get_clusters_peaks.
  rewrite Hdirs. cbn [for_each]. unfold clusters_peaks_step.
  rewrite Ht. cbn [bind]. unfold merge_tables, get_peaks.
  rewrite Hrows, Hstd. cbn [peak_rows]. unfold np.column_stack.
  apply Nat.eqb_neq in Hne. rewrite Hne. reflexivity.
Qed.

(** On the directory [run.feat] with two peaks in voxels and one in mm. *)
Lemma uneven_peak_tables_run :
  _get_clusters_peaks fs_uneven self_run "1" = Raise ValueError.
Proof.
  apply (uneven_peak_tables fs_uneven self_run "1" "run.feat" []
           {| cluster_table := Some [cluster_row_of 1 50];
              cluster_std_table := None;
              peak_table :=
                Some [row_of [1; 5; 30; 40; 20]; row_of [1; 4; 32; 41; 22]];
              peak_std_table := Some [row_of [1; 5; 30; 40; 20]] |}
           [row_of [1; 5; 30; 40; 20]; row_of [1; 4; 32; 41; 22]]
           [row_of [1; 5; 30; 40; 20]]).
  - reflexivity.
  - vm_compute. reflexivity.
  - reflexivity.
  - reflexivity.
  - simpl. lia.
Defined.

(** The [Cluster] made for a row has the index, the size and the P value of
    its first three columns. *)
Lemma cluster_of_row ct cst (grouping : gmap Z (list Peak)) (row : list Q)
  (cl : Cluster) :
  cluster_of ct cst grouping row = Ok cl ->
  row_cluster_id row = Ok (cluster_num cl)
  /\ (exists q, item row 1 = Ok q /\ size cl = int_of_float q)
  /\ item row 2 = Ok (pFWER cl).
Proof.
  unfold cluster_of, cluster_joined, cluster_voxel, cluster_std.
  destruct ct, cst; intros H;
    apply bind_Ok in H as (c & Hc & H);
    apply bind_Ok in H as (q & Hq & H);
    apply bind_Ok in H as (p & Hp & H);
    repeat (apply bind_Ok in H as (? & _ & H));
    injection H as <-; simpl; unfold row_cluster_id; rewrite Hc;
    cbn [bind]; eauto.
Qed.

Lemma cluster_loop_rows (mk : list Q -> res Cluster)
  (R : list Q -> Cluster -> Prop) (rows : table) :
  (forall row cl, mk row = Ok cl -> R row cl) ->
  forall acc cls,
    for_each (cluster_step mk) rows acc = Ok cls ->
    exists new, cls = acc ++ new /\ Forall2 R rows new.
Proof.
  intros Hmk. induction rows as [|row rows IH]; intros acc cls; simpl.
  - intros [= <-]. exists []. rewrite app_nil_r. split; [reflexivity|].
    constructor.
  - intros H. apply bind_Ok in H as (acc1 & Hstep & H).
    unfold cluster_step in Hstep.
    apply bind_Ok in Hstep as (cl & Hcl & [= <-]).
    destruct (IH _ _ H) as (new & -> & Hnew). exists (cl :: new).
    rewrite <- app_assoc. split; [reflexivity|].
    constructor; [apply Hmk; exact Hcl | exact Hnew].
Qed.

Lemma clusters_loop_rows (fs : FileSystem) (stat_num : string)
  (R : list Q -> Cluster -> Prop) (dirs : list string) :
  (forall ct cst grouping row cl,
      cluster_of ct cst grouping row = Ok cl -> R row cl) ->
  forall st st',
    for_each (clusters_peaks_step fs stat_num) dirs st = Ok st' ->
    exists rowss new,
      map_res (cluster_rows_of fs stat_num) dirs = Ok rowss
      /\ st'.1 = st.1 ++ new
      /\ Forall2 R (List.concat rowss) new.
Proof.
  intros HR. induction dirs as [|d dirs IH]; intros st st'; simpl.
  - intros [= <-]. exists [], []. rewrite app_nil_r.
    split; [reflexivity|]. split; [reflexivity | constructor].
  - intros H. apply bind_Ok in H as (st1 & Hstep & H).
    unfold clusters_peaks_step in Hstep.
    apply bind_Ok in Hstep as (t & Ht & Hstep). unfold merge_tables in Hstep.
    apply bind_Ok in Hstep as (ps & _ & Hstep).
    apply bind_Ok in Hstep as (cls & Hcls & [= <-]).
    unfold get_clusters in Hcls. apply bind_Ok in Hcls as (rows & Hrows & Hcls).
    apply (cluster_loop_rows _ R) in Hcls as (new1 & -> & Hnew1);
      [|apply HR].
    destruct (IH _ _ H) as (rowss & new & Hmap & Hst' & Hnew).
    simpl in Hst'. exists (rows :: rowss), (new1 ++ new).
    split; [|split].
    + unfold cluster_rows_of at 1. rewrite Ht. cbn [bind]. rewrite Hrows.
      cbn [bind]. rewrite Hmap. reflexivity.
    + rewrite Hst', <- app_assoc. reflexivity.
    + simpl. apply Forall2_app; assumption.
Qed.

(** X18.  The list that [_get_clusters_peaks] returns has one [Cluster] for
    each row of the cluster tables of the analysis directories, in the
    order of the directories and of the rows, with the index, the size and
    the P value of the first three columns of the row: the clusters of the
    directories before are kept in the list. *)
Theorem clusters_in_table_order (fs : FileSystem) (self : FSLtoNIDMExporter)
  (stat_num : string) (found : list Cluster) :
  _get_clusters_peaks fs self stat_num = Ok found ->
  exists rowss,
    map_res (cluster_rows_of fs stat_num) (analysis_dirs self) = Ok rowss
    /\ Forall2
         (fun row cl =>
            row_cluster_id row = Ok (cluster_num cl)
            /\ (exists q, item row 1 = Ok q /\ size cl = int_of_float q)
            /\ item row 2 = Ok (pFWER cl))
         (List.concat rowss) found.
Proof.
  unfold _get_clusters_peaks. intros H.
  apply bind_Ok in H as (st & Hrun & [= <-]).
  apply (clusters_loop_rows fs stat_num
           (fun row cl =>
              row_cluster_id row = Ok (cluster_num cl)
              /\ (exists q, item row 1 = Ok q /\ size cl = int_of_float q)
              /\ item row 2 = Ok (pFWER cl))) in Hrun
    as (rowss & new & Hmap & Hst & Hnew).
  - exists rowss. split; [exact Hmap|]. rewrite Hst. exact Hnew.
  - intros ct cst g row cl. apply cluster_of_row.
Qed.

(** On the analysis [run.feat], whose cluster table lists the cluster 2 and
    then the cluster 1. *)
Lemma clusters_in_table_order_run :
  (found <- _get_clusters_peaks fs_run (self_level1 "3") "1" ;;
   Ok (map (fun cl => (cluster_num cl, size cl)) found))
  = Ok [(2, 50); (1, 20)]
  /\ exists found rowss,
      _get_clusters_peaks fs_run (self_level1 "3") "1" = Ok found
      /\ map_res (cluster_rows_of fs_run "1") ["run.feat"] = Ok rowss
      /\ Forall2
           (fun row cl =>
              row_cluster_id row = Ok (cluster_num cl)
              /\ (exists q, item row 1 = Ok q /\ size cl = int_of_float q)
              /\ item row 2 = Ok (pFWER cl))
           (List.concat rowss) found.
Proof.
  split; [vm_compute; reflexivity|].
  destruct (is_ok_Ok (_get_clusters_peaks fs_run (self_level1 "3") "1")
              ltac:(vm_compute; reflexivity)) as [found E].
  exists found.
  destruct (clusters_in_table_order fs_run (self_level1 "3") "1" found E)
    as (rowss & Hmap & Hall).
  exists rowss. split; [exact E|]. split; [exact Hmap | exact Hall].
Defined.

(** The [Peak] made for a row has the cluster id of the row and the number
    of the statistic. *)
Lemma peak_of_fields stat_num pt pst (peakIndex : option Z) (row : list Q)
  (c : Z) (p : Peak) :
  peak_of stat_num pt pst peakIndex row c = Ok p ->
  cluster_index p = c /\ peak_stat_num p = stat_num.
Proof.
  unfold peak_of, peak_joined, peak_voxel, peak_std.
  destruct pt, pst; intros H;
    repeat (apply bind_Ok in H as (? & _ & H));
    injection H as <-; split; reflexivity.
Qed.

(** The peaks grouped under a cluster id are peaks of this cluster. *)
Lemma peak_step_owner stat_num pt pst (st st' : peak_state) (row : list Q) :
  peak_step (peak_of stat_num pt pst) st row = Ok st' ->
  (forall c ps, st_peaks st !! c = Some ps ->
                Forall (fun p => cluster_index p = c
                                 /\ peak_stat_num p = stat_num) ps) ->
  forall c ps, st_peaks st' !! c = Some ps ->
               Forall (fun p => cluster_index p = c
                                /\ peak_stat_num p = stat_num) ps.
Proof.
  unfold peak_step. intros H Hinv.
  apply bind_Ok in H as (c0 & _ & H). apply bind_Ok in H as (p & Hp & H).
  apply bind_Ok in H as (i & _ & [= <-]). apply peak_of_fields in Hp.
  intros c ps. cbn [st_peaks].
  destruct (st_peaks st !! c0) as [ps0|] eqn:E;
    (destruct (decide (c = c0)) as [->|Hne];
     [rewrite lookup_insert_eq | rewrite lookup_insert_ne by congruence]);
    try (apply Hinv).
  - intros [= <-]. apply Forall_app. split; [apply (Hinv c0), E|].
    constructor; [exact Hp | constructor].
  - intros [= <-]. constructor; [exact Hp | constructor].
Qed.

(** X19.  Every [Peak] held by a [Cluster] that [_get_clusters_peaks]
    returns has the index of this cluster as its cluster index, and the
    number of the statistic asked for. *)
Theorem peaks_belong_to_their_cluster (fs : FileSystem)
  (self : FSLtoNIDMExporter) (stat_num : string) (found : list Cluster) :
  _get_clusters_peaks fs self stat_num = Ok found ->
  Forall (fun cl =>
            Forall (fun p => cluster_index p = cluster_num cl
                             /\ peak_stat_num p = stat_num) (peaks cl))
    found.
Proof.
  unfold _get_clusters_peaks. intros H.
  apply bind_Ok in H as (st & Hrun & [= <-]). revert Hrun.
  set (Owned := fun cl =>
              Forall (fun p => cluster_index p = cluster_num cl
                               /\ peak_stat_num p = stat_num) (peaks cl)).
  apply (for_each_invariant _ (fun s => Forall Owned s.1)); [|constructor].
  intros s d s' _ Hs Hstep. unfold clusters_peaks_step in Hstep.
  apply bind_Ok in Hstep as (t & _ & Hstep). unfold merge_tables in Hstep.
  apply bind_Ok in Hstep as (ps & Hps & Hstep).
  apply bind_Ok in Hstep as (cls & Hcls & [= <-]). cbn [fst].
  assert (Hgroup : forall c l, st_peaks ps !! c = Some l ->
                               Forall (fun p => cluster_index p = c
                                                /\ peak_stat_num p = stat_num)
                                 l).
  { unfold get_peaks in Hps. apply bind_Ok in Hps as (rows & _ & Hps).
    revert Hps.
    apply (for_each_invariant _
             (fun st => forall c l,
                  st_peaks st !! c = Some l ->
                  Forall (fun p => cluster_index p = c
                                   /\ peak_stat_num p = stat_num) l)).
    - intros st0 row st1 _ Hinv Hrow.
      exact (peak_step_owner _ _ _ _ _ _ Hrow Hinv).
    - intros c l. cbn [st_peaks]. rewrite lookup_empty. discriminate. }
  unfold get_clusters in Hcls. apply bind_Ok in Hcls as (rows & _ & Hcls).
  revert Hcls. apply (for_each_invariant _ (Forall Owned)); [|exact Hs].
  intros acc row acc' _ Hacc Hrow. unfold cluster_step in Hrow.
  apply bind_Ok in Hrow as (cl & Hcl & [= <-]).
  apply Forall_app. split; [exact Hacc|]. constructor; [|constructor].
  apply cluster_of_peaks in Hcl. exact (Hgroup _ _ Hcl).
Qed.

(** On the analysis [run.feat]. *)
Lemma peaks_belong_to_their_cluster_run :
  exists found,
    _get_clusters_peaks fs_run (self_level1 "3") "1" = Ok found
    /\ Forall (fun cl =>
                 Forall (fun p => cluster_index p = cluster_num cl
                                  /\ peak_stat_num p = "1") (peaks cl))
         found.
Proof.
  destruct (is_ok_Ok (_get_clusters_peaks fs_run (self_level1 "3") "1")
              ltac:(vm_compute; reflexivity)) as [found E].
  exists found. split; [exact E|].
  exact (peaks_belong_to_their_cluster _ _ _ _ E).
Defined.
